(** * xdb: the process-execution engine, embedded in Rocq

    A shallow embedding of the parts of the xdb server that the written
    specification makes promises about:

    - [engine/backoff.go]: the retry policy ([GetNextBackoff]);
    - [engine/api_engine_sql_impl.go]: [StartProcess] of the API engine and the
      retry path of the immediate-task processor ([checkRetry]);
    - [extensions/postgres/transactional.go]: the SQL statements of a
      transaction, read as functions on tables;
    - [persistence/sql]: [ProcessWaitUntilExecution], [CompleteWaitUntilExecution],
      [CompleteExecuteExecution] and the row helpers they share.

    Conventions.  Go integers are [Z] with the wrap-around of their width written
    out where the code computes with them; [float64] is Rocq's binary64
    [float]; a table is the list of its rows in insertion order; a Go map is a
    [gmap]; a pointer that may be nil is an [option].  Serialized blobs (JSON
    columns) are kept as the values they encode.  The database is a
    deterministic in-memory store: a statement fails only through a modelled
    constraint (primary key, missing row, row count), never through the
    driver. *)

From Stdlib Require Import ZArith QArith Qround Qminmax Bool Floats Sorted.
From stdpp Require Import base option gmap strings list.

Local Open Scope Z_scope.

(** ** Go values *)

(** Two's-complement wrap-around of a [w]-bit signed integer. *)
Definition wrap (w : Z) (z : Z) : Z := (z + 2 ^ (w - 1)) mod 2 ^ w - 2 ^ (w - 1).
Definition int32 (z : Z) : Z := wrap 32 z.
Definition int64 (z : Z) : Z := wrap 64 z.

(** [uuid.UUID], a 128-bit identifier. *)
Definition UUID : Type := N.

(** What a Go call can do besides returning: dereference nil. *)
Inductive GoResult (A : Type) : Type :=
| Returned (a : A)
| Panicked.
Arguments Returned {A} a.
Arguments Panicked {A}.

(** Go's [float64(i)] for an integer [i]: the nearest binary64 value. *)
Definition float64_of_int (z : Z) : float :=
  SF2Prim (binary_normalize prec emax z 0 false).

(** The integer part of a finite binary64 value (truncation towards zero);
    [None] for infinities and NaN. *)
Definition float64_trunc (f : float) : option Z :=
  match Prim2SF f with
  | S754_zero _ => Some 0
  | S754_finite s m e =>
      let mag := if 0 <=? e then Z.shiftl (Z.pos m) e else Z.shiftr (Z.pos m) (- e) in
      Some (if s then - mag else mag)
  | S754_infinity _ | S754_nan => None
  end.

(** The rational a finite binary64 value stands for, and truncation towards
    zero on the rationals, to read [float64_trunc] against. *)
Definition float64_value (f : float) : option Q :=
  match Prim2SF f with
  | S754_zero _ => Some 0%Q
  | S754_finite s m e =>
      let mag := if 0 <=? e then inject_Z (Z.pos m * 2 ^ e)
                 else Qmake (Z.pos m) (Z.to_pos (2 ^ (- e))) in
      Some (if s then Qopp mag else mag)
  | S754_infinity _ | S754_nan => None
  end.

Definition Qtrunc (q : Q) : Z := if Qle_bool 0 q then Qfloor q else Qceiling q.

(** The order and the rounding of binary64 values, to follow a [float64]
    computation through [Prim2SF]. *)
Module binary64.

(** The value of a binary64 number in units of [2^-1074], the smallest
    positive binary64 value.  An infinity counts as [2^1024], the first power
    of two past the finite values; a NaN has no value and counts as 0. *)
Definition units (f : spec_float) : Z :=
  match f with
  | S754_zero _ | S754_nan => 0
  | S754_finite s m e => cond_Zopp s (Z.pos m * 2 ^ (e + 1074))
  | S754_infinity s => cond_Zopp s (2 ^ 2098)
  end.

Definition is_nan (f : spec_float) : bool :=
  match f with
  | S754_nan => true
  | _ => false
  end.

(** [o] is [M / 2^n] rounded to the nearest integer, a tie to the even one. *)
Definition nearest_even (M n o : Z) : Prop :=
  exists q rem : Z,
    M = q * 2 ^ n + rem /\ 0 <= rem < 2 ^ n /\ 0 <= q
    /\ ((2 * rem < 2 ^ n /\ o = q)
        \/ (2 ^ n < 2 * rem /\ o = q + 1)
        \/ (2 * rem = 2 ^ n /\ o = if Z.even q then q else q + 1)).

(** [mrs] is what [k] right shifts leave of the mantissa [M]: the quotient,
    the last bit shifted out, and whether a lower bit was set. *)
Definition shifted (M k : Z) (mrs : shr_record) : Prop :=
  0 <= shr_m mrs
  /\ exists t : Z,
       M = shr_m mrs * 2 ^ k + (if shr_r mrs then 2 ^ (k - 1) else 0) + t
       /\ 0 <= t
       /\ (t < 2 ^ (k - 1) \/ (k = 0 /\ t = 0 /\ shr_r mrs = false))
       /\ (shr_s mrs = true <-> 0 < t).

End binary64.

(** What the Go runtime and its [math] package contribute to the backoff
    computation and the source does not define: [math.Pow], and the result of
    converting to [int32] a [float64] whose truncation [int32] cannot hold (the
    language leaves that value to the implementation). *)
Class GoRuntime : Type := {
  math_Pow : float -> float -> float;
  int32_unrepresentable : float -> Z
}.

(** Go's [int32(f)] for a [float64] [f]. *)
Definition int32_of_float64 {go : GoRuntime} (f : float) : Z :=
  match float64_trunc f with
  | Some z => if (- 2 ^ 31 <=? z) && (z <? 2 ^ 31) then z else int32 (int32_unrepresentable f)
  | None => int32 (int32_unrepresentable f)
  end.

(** ** The API's types ([xdbapi]) *)

Module xdbapi.

(** The retry policy of a worker API; every field is optional. The
    coefficient is a [float32], kept as the [float64] it converts to. *)
Record RetryPolicy : Type := {
  InitialIntervalSeconds : option Z;
  BackoffCoefficient : option float;
  MaximumIntervalSeconds : option Z;
  MaximumAttempts : option Z;
  MaximumAttemptsDurationSeconds : option Z
}.

Record AsyncStateConfig : Type := {
  SkipWaitUntil : option bool;
  WaitUntilApiTimeoutSeconds : option Z;
  ExecuteApiTimeoutSeconds : option Z;
  WaitUntilApiRetryPolicy : option RetryPolicy;
  ExecuteApiRetryPolicy : option RetryPolicy
}.

(** [stateConfig.GetSkipWaitUntil()]: false on a nil config or an unset field. *)
Definition GetSkipWaitUntil (stateConfig : option AsyncStateConfig) : bool :=
  match stateConfig with
  | Some c => default false (SkipWaitUntil c)
  | None => false
  end.

Record EncodedObject : Type := {
  Encoding : string;
  Data : string
}.

Inductive CommandWaitingType : Type :=
| EMPTY_COMMAND
| ANY_OF_COMPLETION
| ALL_OF_COMPLETION.

Record LocalQueueCommand : Type := {
  CommandQueueName : string;
  CommandCount : option Z
}.

Record TimerCommand : Type := {
  DelayInSeconds : Z
}.

Record CommandRequest : Type := {
  WaitingType : CommandWaitingType;
  TimerCommands : list TimerCommand;
  LocalQueueCommands : list LocalQueueCommand
}.

Record LocalQueueMessage : Type := {
  QueueName : string;
  DedupId : option UUID;
  Payload : option EncodedObject
}.

Inductive ThreadCloseType : Type :=
| FORCE_COMPLETE_PROCESS
| GRACEFUL_COMPLETE_PROCESS
| FORCE_FAIL_PROCESS
| DEAD_END.

Record ThreadCloseDecision : Type := {
  CloseType : ThreadCloseType
}.

Record StateMovement : Type := {
  NextStateId : string;
  NextStateInput : option EncodedObject;
  NextStateConfig : option AsyncStateConfig
}.

Record StateDecision : Type := {
  NextStates : list StateMovement;
  ThreadClose : option ThreadCloseDecision
}.

End xdbapi.

#[global] Instance CommandWaitingType_eq_dec : EqDecision xdbapi.CommandWaitingType.
Proof. solve_decision. Defined.

(** ** The retry policy ([engine/backoff.go]) *)

Module backoff.
Import xdbapi.

(** Modelled from the spec: [defaultWorkerTaskBackoffRetryPolicy] is declared
    in another file of the package; the specification gives its values
    ([InitialInterval=1], [Coefficient=2.0], [MaximumInterval=60],
    [MaximumAttempts=0], [MaximumAttemptsDuration=0]). *)
Definition defaultWorkerTaskBackoffRetryPolicy : RetryPolicy := {|
  InitialIntervalSeconds := Some 1;
  BackoffCoefficient := Some 2%float;
  MaximumIntervalSeconds := Some 60;
  MaximumAttempts := Some 0;
  MaximumAttemptsDurationSeconds := Some 0
|}.

(** [if policy.F == nil { policy.F = default.F }] *)
Definition or_default {A : Type} (field dflt : option A) : option A :=
  match field with
  | None => dflt
  | Some _ => field
  end.

Definition setDefaultRetryPolicyValue (policy : option RetryPolicy) : RetryPolicy :=
  let policy := default (Build_RetryPolicy None None None None None) policy in
  let d := defaultWorkerTaskBackoffRetryPolicy in
  {| InitialIntervalSeconds := or_default (InitialIntervalSeconds policy) (InitialIntervalSeconds d);
     BackoffCoefficient := or_default (BackoffCoefficient policy) (BackoffCoefficient d);
     MaximumIntervalSeconds := or_default (MaximumIntervalSeconds policy) (MaximumIntervalSeconds d);
     MaximumAttempts := or_default (MaximumAttempts policy) (MaximumAttempts d);
     MaximumAttemptsDurationSeconds :=
       or_default (MaximumAttemptsDurationSeconds policy) (MaximumAttemptsDurationSeconds d) |}.

(** [*p] on a field that [setDefaultRetryPolicyValue] has filled. *)
Definition deref (p : option Z) : Z := default 0 p.
Definition deref_float (p : option float) : float := default 0%float p.

(** The interval before the cap: the [float64] product converted to [int32]. *)
Definition uncappedInterval {go : GoRuntime} (completedAttempts : Z) (policy : RetryPolicy) : Z :=
  let initInterval := deref (InitialIntervalSeconds policy) in
  int32_of_float64
    (float64_of_int initInterval
     * math_Pow (deref_float (BackoffCoefficient policy)) (float64_of_int completedAttempts))%float.

(** [GetNextBackoff]; [nowSeconds] is what [time.Now().Unix()] returns during
    the call. *)
Definition GetNextBackoff {go : GoRuntime} (nowSeconds : Z)
    (completedAttempts : Z) (firstAttemptStartTimestampSeconds : Z)
    (policy : option RetryPolicy) : Z * bool :=
  let policy := setDefaultRetryPolicyValue policy in
  if (0 <? deref (MaximumAttempts policy))
     && (deref (MaximumAttempts policy) <=? completedAttempts)
  then (0, false)
  else if (0 <? deref (MaximumAttemptsDurationSeconds policy))
          && (int64 (firstAttemptStartTimestampSeconds
                     + deref (MaximumAttemptsDurationSeconds policy)) <? nowSeconds)
  then (0, false)
  else
    let nextInterval := uncappedInterval completedAttempts policy in
    let nextInterval :=
      if deref (MaximumIntervalSeconds policy) <? nextInterval
      then deref (MaximumIntervalSeconds policy)
      else nextInterval in
    (nextInterval, true).

(** The [float64] product of [GetNextBackoff], before its conversion to
    [int32]. *)
Definition intervalProduct {go : GoRuntime} (completedAttempts : Z) (policy : RetryPolicy)
    : float :=
  (float64_of_int (deref (InitialIntervalSeconds policy))
   * math_Pow (deref_float (BackoffCoefficient policy)) (float64_of_int completedAttempts))%float.

(** The language defines [int32(f)]: [f] is finite and its integer part is an
    [int32]. *)
Definition converts_to_int32 (f : float) : bool :=
  match float64_trunc f with
  | Some z => (- 2 ^ 31 <=? z) && (z <? 2 ^ 31)
  | None => false
  end.

(** What the order of the intervals asks of [math.Pow], which the source does
    not define: with a base of at least one and an exponent that is a
    non-negative [int32] converted to [float64], the power is at least one
    and does not decrease as the exponent grows. *)
Definition Pow_monotone (go : GoRuntime) : Prop :=
  forall (x : float) (m n : Z),
    (1 <=? x)%float = true -> 0 <= m <= n -> n < 2 ^ 31 ->
    (1 <=? math_Pow x (float64_of_int m))%float = true
    /\ (math_Pow x (float64_of_int m) <=? math_Pow x (float64_of_int n))%float = true.

(** The interval in the specification's words, over the rationals:
    [min(MaximumIntervalSeconds, InitialIntervalSeconds *
    BackoffCoefficient^completedAttempts)]. *)
Definition spec_interval (initialIntervalSeconds : Z) (backoffCoefficient : Q)
    (maximumIntervalSeconds : Z) (completedAttempts : Z) : Q :=
  Qmin (inject_Z maximumIntervalSeconds)
       (inject_Z initialIntervalSeconds * backoffCoefficient ^ completedAttempts)%Q.

(** A runtime for worked examples.  [Pow] follows the special cases that the
    documentation of [math.Pow] fixes ([Pow(x, ±0) = 1], [Pow(1, y) = 1],
    [Pow(x, 1) = x]) and multiplies the base out for the other whole
    exponents; an unrepresentable conversion yields the smallest [int32], as
    the amd64 conversion instruction does. *)
Fixpoint pow_by_mult (x : float) (n : nat) : float :=
  match n with
  | O => 1%float
  | S n' => (x * pow_by_mult x n')%float
  end.

Definition reference_Pow (x y : float) : float :=
  if (PrimFloat.eqb y 0 || PrimFloat.eqb x 1)%bool then 1%float
  else if PrimFloat.eqb y 1 then x
  else match float64_trunc y with
       | Some n => if 0 <=? n then pow_by_mult x (Z.to_nat n)
                   else (1 / pow_by_mult x (Z.to_nat (- n)))%float
       | None => PrimFloat.nan
       end.

Definition reference_runtime : GoRuntime := {|
  math_Pow := reference_Pow;
  int32_unrepresentable := fun _ => - 2 ^ 31
|}.

End backoff.

(** ** The persistence layer's types ([persistence]) *)

Module persistence.
Import xdbapi.

(** A phase status of a state execution, with the byte the store keeps. *)
Inductive StateExecutionStatus : Type :=
| StateExecutionStatusUndefined
| StateExecutionStatusRunning
| StateExecutionStatusWaiting
| StateExecutionStatusCompleted
| StateExecutionStatusSkipped
| StateExecutionStatusAborted
| StateExecutionStatusFailed.

Definition status_code (s : StateExecutionStatus) : Z :=
  match s with
  | StateExecutionStatusUndefined => 0
  | StateExecutionStatusRunning => 1
  | StateExecutionStatusWaiting => 2
  | StateExecutionStatusCompleted => 3
  | StateExecutionStatusSkipped => 4
  | StateExecutionStatusAborted => 5
  | StateExecutionStatusFailed => 6
  end.

Inductive ProcessExecutionStatus : Type :=
| ProcessExecutionStatusRunning
| ProcessExecutionStatusCompleted
| ProcessExecutionStatusFailed
| ProcessExecutionStatusTerminated
| ProcessExecutionStatusTimeout.

Inductive ImmediateTaskType : Type :=
| ImmediateTaskTypeWaitUntil
| ImmediateTaskTypeExecute
| ImmediateTaskTypeNewLocalQueueMessage.

Definition DefaultShardId : Z := 0.

Record StateExecutionId : Type := {
  StateId : string;
  StateIdSequence : Z
}.

Record AsyncStateExecutionInfoJson : Type := {
  Namespace : string;
  ProcessId : string;
  ProcessType : string;
  WorkerURL : string;
  StateConfig : option AsyncStateConfig
}.

Record WorkerTaskBackoffInfoJson : Type := {
  CompletedAttempts : Z;
  FirstAttemptTimestampSeconds : Z
}.

Record LocalQueueMessageInfoJson : Type := {
  MessageQueueName : string;
  MessageDedupId : UUID
}.

Record ImmediateTaskInfoJson : Type := {
  WorkerTaskBackoffInfo : option WorkerTaskBackoffInfoJson;
  LocalQueueMessageInfo : option LocalQueueMessageInfoJson
}.

Record ImmediateTask : Type := {
  ShardId : Z;
  TaskSequence : option Z;
  TaskType : ImmediateTaskType;
  ProcessExecutionId : UUID;
  TaskStateExecutionId : StateExecutionId;
  ImmediateTaskInfo : ImmediateTaskInfoJson
}.

(** The two maps a process row carries in one column: the last sequence
    number handed out per state id, and the state executions that are pending
    ([map[string]map[int]bool] in the source). *)
Record StateExecutionSequenceMaps : Type := {
  SequenceMap : gmap string Z;
  PendingExecutionMap : gmap string (gmap Z bool)
}.

(** The snapshot [PrepareStateExecution] hands to the processor. *)
Record PrepareStateExecutionResponse : Type := {
  WaitUntilStatus : StateExecutionStatus;
  ExecuteStatus : StateExecutionStatus;
  PreviousVersion : Z;
  Info : AsyncStateExecutionInfoJson;
  Input : EncodedObject
}.

End persistence.

#[global] Instance StateExecutionStatus_eq_dec : EqDecision persistence.StateExecutionStatus.
Proof. solve_decision. Defined.
#[global] Instance ProcessExecutionStatus_eq_dec : EqDecision persistence.ProcessExecutionStatus.
Proof. solve_decision. Defined.
#[global] Instance ImmediateTaskType_eq_dec : EqDecision persistence.ImmediateTaskType.
Proof. solve_decision. Defined.

(** ** Errors and results *)

Inductive error : Type :=
| ErrDuplicateEntry
    (* the driver's unique-violation error *)
| ErrNoRows
    (* [sql.ErrNoRows]: a single-row select found nothing *)
| conditionalUpdateFailure
    (* a versioned update did not affect exactly one row *)
| ErrStateNotPending (pending : gmap string (gmap Z bool))
    (* [CompleteNewStateExecution]: the state execution is not in the map *)
| ErrCompletingNonExisting (stateId : string) (stateIdSequence : Z)
    (currentMap : persistence.StateExecutionSequenceMaps) (err : error)
    (* "completing a non-existing state execution, maybe data is corrupted" *).

Definition IsDupEntryError (err : error) : bool :=
  match err with ErrDuplicateEntry => true | _ => false end.
Definition IsNotFoundError (err : error) : bool :=
  match err with ErrNoRows => true | _ => false end.
Definition IsConditionalUpdateFailure (err : error) : bool :=
  match err with conditionalUpdateFailure => true | _ => false end.

(** A Go result pair [(value, err)] of which exactly one part is meaningful. *)
Inductive result (A : Type) : Type :=
| Ok (a : A)
| Err (e : error).
Arguments Ok {A} a.
Arguments Err {A} e.

#[global] Instance result_ret : MRet result := fun A a => Ok a.
#[global] Instance result_bind : MBind result := fun A B f m =>
  match m with
  | Ok a => f a
  | Err e => Err e
  end.

(** ** The immediate-task processor: what follows a failed worker call
    ([engine/api_engine_sql_impl.go], second part) *)

Module processor.
Import xdbapi persistence.

(** [createWorkerTaskBackoffInfo], at the second [nowSeconds]. *)
Definition createWorkerTaskBackoffInfo (nowSeconds : Z) : WorkerTaskBackoffInfoJson :=
  {| CompletedAttempts := int32 0; FirstAttemptTimestampSeconds := nowSeconds |}.

(** The first statements of [processWaitUntilTask] and [processExecuteTask]:
    create the attempt record when the task has none, then count the attempt. *)
Definition countAttempt (nowSeconds : Z) (task : ImmediateTask) : ImmediateTask :=
  let info :=
    default (createWorkerTaskBackoffInfo nowSeconds)
            (WorkerTaskBackoffInfo (ImmediateTaskInfo task)) in
  let info := {| CompletedAttempts := int32 (CompletedAttempts info + 1);
                 FirstAttemptTimestampSeconds := FirstAttemptTimestampSeconds info |} in
  {| ShardId := ShardId task;
     TaskSequence := TaskSequence task;
     TaskType := TaskType task;
     ProcessExecutionId := ProcessExecutionId task;
     TaskStateExecutionId := TaskStateExecutionId task;
     ImmediateTaskInfo :=
       {| WorkerTaskBackoffInfo := Some info;
          LocalQueueMessageInfo := LocalQueueMessageInfo (ImmediateTaskInfo task) |} |}.

(** [checkRetry]. Both [task.ImmediateTaskInfo.WorkerTaskBackoffInfo] and
    [info.StateConfig] are pointers that the method dereferences. *)
Definition checkRetry {go : GoRuntime} (nowSeconds : Z)
    (task : ImmediateTask) (info : AsyncStateExecutionInfoJson) : GoResult (Z * bool) :=
  match WorkerTaskBackoffInfo (ImmediateTaskInfo task), StateConfig info with
  | Some attempt, Some stateConfig =>
      Returned (backoff.GetNextBackoff nowSeconds
                  (CompletedAttempts attempt)
                  (FirstAttemptTimestampSeconds attempt)
                  (WaitUntilApiRetryPolicy stateConfig))
  | _, _ => Panicked
  end.





(** The same snapshot with another state config, and the same config with
    another [ExecuteApiRetryPolicy]. *)
Definition with_StateConfig (prep : PrepareStateExecutionResponse)
    (stateConfig : option AsyncStateConfig) : PrepareStateExecutionResponse :=
  {| WaitUntilStatus := WaitUntilStatus prep;
     ExecuteStatus := ExecuteStatus prep;
     PreviousVersion := PreviousVersion prep;
     Info := {| Namespace := Namespace (Info prep);
                ProcessId := ProcessId (Info prep);
                ProcessType := ProcessType (Info prep);
                WorkerURL := WorkerURL (Info prep);
                StateConfig := stateConfig |};
     Input := Input prep |}.



End processor.

(** ** The API engine ([engine/api_engine_sql_impl.go], first part) *)

Module api_engine.

Record ProcessStartConfig : Type := {
  TimeoutSeconds : option Z
}.

Record ProcessExecutionStartRequest : Type := {
  Namespace : string;
  ProcessId : string;
  ProcessType : string;
  WorkerUrl : string;
  StartStateId : option string;
  StartStateInput : option xdbapi.EncodedObject;
  StartStateConfig : option xdbapi.AsyncStateConfig;
  StartConfig : option ProcessStartConfig
}.

Record ProcessExecutionStartResponse : Type := {
  ResponseProcessExecutionId : UUID
}.

(** The rows [StartProcess] builds ([extensions]). *)
Record CurrentProcessExecutionRow : Type := {
  CurrentNamespace : string;
  CurrentProcessId : string;
  CurrentProcessExecutionId : UUID
}.

Record ExecutionInfoJson : Type := {
  InfoProcessType : string;
  InfoWorkerURL : string
}.

Record AsyncStateExecutionRow : Type := {
  StateProcessExecutionId : UUID;
  StateId : string;
  StateIdSequence : Z;
  PreviousVersion : Z;
  WaitUntilStatus : persistence.StateExecutionStatus;
  ExecuteStatus : persistence.StateExecutionStatus;
  Input : option xdbapi.EncodedObject;
  Info : ExecutionInfoJson
}.

Inductive WorkerTaskType : Type :=
| WorkerTaskTypeWaitUntil
| WorkerTaskTypeExecute.

Record WorkerTaskRowForInsert : Type := {
  TaskShardId : Z;
  TaskProcessExecutionId : UUID;
  TaskStateId : string;
  TaskStateIdSequence : Z;
  TaskType : WorkerTaskType
}.

Record ProcessExecutionRow : Type := {
  ProcessExecutionId : UUID;
  IsCurrent : bool;
  Status : persistence.ProcessExecutionStatus;
  HistoryEventIdSequence : Z;
  StateIdSequenceJson : gmap string Z;
  RowNamespace : string;
  RowProcessId : string;
  StartTime : Z;
  RowTimeoutSeconds : Z;
  RowInfo : ExecutionInfoJson
}.

(** The four tables [StartProcess] writes. *)
Record DB : Type := {
  current_process_executions : list CurrentProcessExecutionRow;
  process_executions : list ProcessExecutionRow;
  async_state_executions : list AsyncStateExecutionRow;
  worker_tasks : list WorkerTaskRowForInsert
}.

(** The statements of the transaction.  [StartProcess] calls them through
    the transaction interface; they are read as the plain INSERTs of
    [transactional.go], under the primary keys of the tables: (namespace,
    process id) for the pointer to the current execution, the execution id for
    a process, (execution id, state id, sequence) for a state execution. *)
Definition InsertCurrentProcessExecution (row : CurrentProcessExecutionRow) (tx : DB) : result DB :=
  if existsb (fun r => bool_decide (CurrentNamespace r = CurrentNamespace row
                                    /\ CurrentProcessId r = CurrentProcessId row))
             (current_process_executions tx)
  then Err ErrDuplicateEntry
  else Ok {| current_process_executions := current_process_executions tx ++ [row];
             process_executions := process_executions tx;
             async_state_executions := async_state_executions tx;
             worker_tasks := worker_tasks tx |}.

Definition InsertAsyncStateExecution (row : AsyncStateExecutionRow) (tx : DB) : result DB :=
  if existsb (fun r => bool_decide (StateProcessExecutionId r = StateProcessExecutionId row
                                    /\ StateId r = StateId row
                                    /\ StateIdSequence r = StateIdSequence row))
             (async_state_executions tx)
  then Err ErrDuplicateEntry
  else Ok {| current_process_executions := current_process_executions tx;
             process_executions := process_executions tx;
             async_state_executions := async_state_executions tx ++ [row];
             worker_tasks := worker_tasks tx |}.

Definition InsertWorkerTask (row : WorkerTaskRowForInsert) (tx : DB) : result DB :=
  Ok {| current_process_executions := current_process_executions tx;
        process_executions := process_executions tx;
        async_state_executions := async_state_executions tx;
        worker_tasks := worker_tasks tx ++ [row] |}.

Definition InsertProcessExecution (row : ProcessExecutionRow) (tx : DB) : result DB :=
  if existsb (fun r => bool_decide (ProcessExecutionId r = ProcessExecutionId row))
             (process_executions tx)
  then Err ErrDuplicateEntry
  else Ok {| current_process_executions := current_process_executions tx;
             process_executions := process_executions tx ++ [row];
             async_state_executions := async_state_executions tx;
             worker_tasks := worker_tasks tx |}.

(** The named results of [StartProcess]: [(resp, alreadyStarted, retErr)]. *)
Definition StartResults : Type :=
  (option ProcessExecutionStartResponse * bool * option error)%type.

(** The start state's rows: lines 81 to 134. *)
Definition insertStartState (prcExeId : UUID) (request : ProcessExecutionStartRequest)
    (startStateId : string) (tx : DB) : result DB :=
  let stateExeInfo := {| InfoProcessType := ProcessType request;
                         InfoWorkerURL := WorkerUrl request |} in
  let skip := xdbapi.GetSkipWaitUntil (StartStateConfig request) in
  let stateRow := {|
    StateProcessExecutionId := prcExeId;
    StateId := startStateId;
    StateIdSequence := 1;
    PreviousVersion := 1;
    WaitUntilStatus := if skip then persistence.StateExecutionStatusSkipped
                       else persistence.StateExecutionStatusRunning;
    ExecuteStatus := if skip then persistence.StateExecutionStatusRunning
                     else persistence.StateExecutionStatusUndefined;
    Input := StartStateInput request;
    Info := stateExeInfo |} in
  tx ← InsertAsyncStateExecution stateRow tx;
  let workerTaskRow := {|
    TaskShardId := persistence.DefaultShardId;
    TaskProcessExecutionId := prcExeId;
    TaskStateId := startStateId;
    TaskStateIdSequence := 1;
    TaskType := if skip then WorkerTaskTypeExecute else WorkerTaskTypeWaitUntil |} in
  InsertWorkerTask workerTaskRow tx.

(** The body of [StartProcess] between the [defer] and the returns: the
    state of the transaction and the named results at the return reached.
    [prcExeId] is the identifier [uuid.MustNewUUID] mints, [now] the start
    time. *)
Definition startProcessBody (prcExeId : UUID) (now : Z)
    (request : ProcessExecutionStartRequest) (tx : DB) : DB * StartResults :=
  match InsertCurrentProcessExecution
          {| CurrentNamespace := Namespace request;
             CurrentProcessId := ProcessId request;
             CurrentProcessExecutionId := prcExeId |} tx with
  | Err retErr =>
      if IsDupEntryError retErr then (tx, (None, true, None))
      else (tx, (None, false, Some retErr))
  | Ok tx =>
      let timeoutSeconds :=
        match StartConfig request with
        | Some sc => default 0 (TimeoutSeconds sc)
        | None => 0
        end in
      let processExeInfo := {| InfoProcessType := ProcessType request;
                               InfoWorkerURL := WorkerUrl request |} in
      let started :=
        match StartStateId request with
        | Some startStateId =>
            tx ← insertStartState prcExeId request startStateId tx;
            Ok (tx, ({[ startStateId := 1 ]} : gmap string Z))
        | None => Ok (tx, (∅ : gmap string Z))
        end in
      match started with
      | Err err => (tx, (None, false, Some err))
      | Ok (tx, sequenceMap) =>
          let row := {|
            ProcessExecutionId := prcExeId;
            IsCurrent := true;
            Status := persistence.ProcessExecutionStatusRunning;
            HistoryEventIdSequence := 0;
            StateIdSequenceJson := sequenceMap;
            RowNamespace := Namespace request;
            RowProcessId := ProcessId request;
            StartTime := now;
            RowTimeoutSeconds := timeoutSeconds;
            RowInfo := processExeInfo |} in
          let resp := Some {| ResponseProcessExecutionId := prcExeId |} in
          match InsertProcessExecution row tx with
          | Err retErr => (tx, (resp, false, Some retErr))
          | Ok tx => (tx, (resp, false, None))
          end
      end
  end.

(** [StartProcess]: open a transaction on [db], run the body, then the
    deferred function: roll back when [alreadyStarted] or an error is set,
    commit otherwise. The first component is the database afterwards. *)
Definition StartProcess (db : DB) (prcExeId : UUID) (now : Z)
    (request : ProcessExecutionStartRequest) : DB * StartResults :=
  let '(tx, (resp, alreadyStarted, retErr)) := startProcessBody prcExeId now request db in
  if alreadyStarted || bool_decide (retErr <> None)
  then (db, (resp, alreadyStarted, retErr))
  else (tx, (resp, alreadyStarted, None)).

End api_engine.

(** ** The schema of the process store ([extensions]) *)

Module extensions.
Import persistence.

(** The status of a whole state execution, as the update rows of
    [wait_until.go] and [complete_execute.go] carry it in their [Status]
    field.  [StateExecutionCompleted] is [persistence.StateExecutionStatusCompleted]
    used in that field. *)
Inductive StateExecutionRowStatus : Type :=
| StateExecutionStatusWaitUntilRunning
| StateExecutionStatusWaitUntilWaiting
| StateExecutionStatusExecuteRunning
| StateExecutionCompleted
| StateExecutionFailed
| StateExecutionAborted.

(** What the store's code relies on and defines elsewhere:
    the serialized waiting queues of a process and the two operations
    [updateWaitUntilExecution] performs on them; how the [Status] of an update
    row lands in the columns [wait_until_status] and [execute_status] that
    the statements of [transactional.go] write; and the identifiers
    [uuid.MustNewUUID] mints, in the order of the calls of one transaction. *)
Class StoreEnv : Type := {
  StateExecutionWaitingQueues : Type;
  AddNewLocalQueueCommandForStateExecution :
    StateExecutionId -> xdbapi.LocalQueueCommand -> bool ->
    StateExecutionWaitingQueues -> StateExecutionWaitingQueues;
  UnconsumedMessages : StateExecutionWaitingQueues -> list LocalQueueMessageInfoJson;
  status_columns : StateExecutionRowStatus -> StateExecutionStatus * StateExecutionStatus;
  MustNewUUID : nat -> UUID
}.

Record LatestProcessExecutionRow : Type := {
  LatestNamespace : string;
  LatestProcessId : string;
  LatestProcessExecutionId : UUID
}.

Record ProcessExecutionInfoJson : Type := {
  InfoProcessType : string;
  InfoWorkerURL : string
}.

(** A row of [xdb_sys_process_executions]. *)
Record ProcessExecutionRow {env : StoreEnv} : Type := {
  RowNamespace : string;
  RowProcessExecutionId : UUID;
  RowProcessId : string;
  RowStatus : ProcessExecutionStatus;
  RowStartTime : Z;
  RowTimeoutSeconds : Z;
  RowHistoryEventIdSequence : Z;
  RowStateExecutionSequenceMaps : StateExecutionSequenceMaps;
  RowStateExecutionWaitingQueues : StateExecutionWaitingQueues;
  RowWaitToComplete : bool;
  RowInfo : ProcessExecutionInfoJson
}.

(** The columns a transaction reads for update and writes back. *)
Record ProcessExecutionRowForUpdate {env : StoreEnv} : Type := {
  ProcessExecutionId : UUID;
  Status : ProcessExecutionStatus;
  HistoryEventIdSequence : Z;
  SequenceMaps : StateExecutionSequenceMaps;
  WaitingQueues : StateExecutionWaitingQueues;
  WaitToComplete : bool
}.

Record StateExecutionFailureJson : Type := {
  StatusCode : Z;
  Details : string
}.

(** A row of [xdb_sys_async_state_executions]; the Go field [PreviousVersion]
    is the column [version]. *)
Record AsyncStateExecutionRow : Type := {
  StateProcessExecutionId : UUID;
  StateId : string;
  StateIdSequence : Z;
  PreviousVersion : Z;
  WaitUntilStatus : StateExecutionStatus;
  ExecuteStatus : StateExecutionStatus;
  LastFailure : option StateExecutionFailureJson;
  Input : option xdbapi.EncodedObject;
  Info : AsyncStateExecutionInfoJson
}.

Record AsyncStateExecutionRowForUpdate : Type := {
  UpdateProcessExecutionId : UUID;
  UpdateStateId : string;
  UpdateStateIdSequence : Z;
  UpdateStatus : StateExecutionRowStatus;
  UpdateWaitUntilCommands : xdbapi.CommandRequest;
  UpdatePreviousVersion : Z;
  UpdateLastFailure : option StateExecutionFailureJson
}.

Record AsyncStateExecutionRowForUpdateWithoutCommands : Type := {
  PlainProcessExecutionId : UUID;
  PlainStateId : string;
  PlainStateIdSequence : Z;
  PlainStatus : StateExecutionRowStatus;
  PlainPreviousVersion : Z;
  PlainLastFailure : option StateExecutionFailureJson
}.

Record ImmediateTaskRowForInsert : Type := {
  TaskShardId : Z;
  TaskType : ImmediateTaskType;
  TaskProcessExecutionId : UUID;
  TaskStateId : string;
  TaskStateIdSequence : Z;
  TaskInfo : option ImmediateTaskInfoJson
}.

Record TimerTaskRowForInsert : Type := {
  TimerShardId : Z;
  FireTimeUnixSeconds : Z;
  TimerProcessExecutionId : UUID;
  TimerStateId : string;
  TimerStateIdSequence : Z;
  TimerTaskType : Z;
  TimerInfo : option ImmediateTaskInfoJson
}.

Record LocalQueueRow : Type := {
  QueueProcessExecutionId : UUID;
  QueueName : string;
  DedupId : UUID;
  Payload : option xdbapi.EncodedObject
}.

(** The six tables of the store. *)
Record DB {env : StoreEnv} : Type := {
  latest_process_executions : list LatestProcessExecutionRow;
  process_executions : list ProcessExecutionRow;
  async_state_executions : list AsyncStateExecutionRow;
  immediate_tasks : list ImmediateTaskRowForInsert;
  timer_tasks : list TimerTaskRowForInsert;
  local_queue : list LocalQueueRow
}.

(** An open transaction: the database as it was when the transaction began,
    the tables as its statements have left them, and how many identifiers it
    has minted. *)
Record Tx {env : StoreEnv} : Type := {
  begun : DB;
  store : DB;
  minted : nat
}.

Definition StartTransaction {env : StoreEnv} (db : DB) : Tx :=
  {| begun := db; store := db; minted := 0 |}.
Definition Commit {env : StoreEnv} (tx : Tx) : DB := store tx.
Definition Rollback {env : StoreEnv} (tx : Tx) : DB := begun tx.

Definition with_store {env : StoreEnv} (tx : Tx) (db : DB) : Tx :=
  {| begun := begun tx; store := db; minted := minted tx |}.
Definition with_async_state_executions {env : StoreEnv} (tx : Tx)
    (rows : list AsyncStateExecutionRow) : Tx :=
  with_store tx
    {| latest_process_executions := latest_process_executions (store tx);
       process_executions := process_executions (store tx);
       async_state_executions := rows;
       immediate_tasks := immediate_tasks (store tx);
       timer_tasks := timer_tasks (store tx);
       local_queue := local_queue (store tx) |}.
Definition with_process_executions {env : StoreEnv} (tx : Tx)
    (rows : list ProcessExecutionRow) : Tx :=
  with_store tx
    {| latest_process_executions := latest_process_executions (store tx);
       process_executions := rows;
       async_state_executions := async_state_executions (store tx);
       immediate_tasks := immediate_tasks (store tx);
       timer_tasks := timer_tasks (store tx);
       local_queue := local_queue (store tx) |}.
Definition with_immediate_tasks {env : StoreEnv} (tx : Tx)
    (rows : list ImmediateTaskRowForInsert) : Tx :=
  with_store tx
    {| latest_process_executions := latest_process_executions (store tx);
       process_executions := process_executions (store tx);
       async_state_executions := async_state_executions (store tx);
       immediate_tasks := rows;
       timer_tasks := timer_tasks (store tx);
       local_queue := local_queue (store tx) |}.
Definition with_local_queue {env : StoreEnv} (tx : Tx) (rows : list LocalQueueRow) : Tx :=
  with_store tx
    {| latest_process_executions := latest_process_executions (store tx);
       process_executions := process_executions (store tx);
       async_state_executions := async_state_executions (store tx);
       immediate_tasks := immediate_tasks (store tx);
       timer_tasks := timer_tasks (store tx);
       local_queue := rows |}.

End extensions.

(** ** The statements of a transaction ([extensions/postgres/transactional.go]) *)

Module postgres.
Import persistence extensions.

Section statements.
Context {env : StoreEnv}.

(** [UPDATE table SET set WHERE cond]: the table afterwards, and the number
    of rows the statement affected (the rows that satisfy [cond]). *)
Definition sql_update {Row : Type} (cond : Row -> bool) (set : Row -> Row)
    (table : list Row) : list Row * nat :=
  (map (fun r => if cond r then set r else r) table, length (List.filter cond table)).

(** The WHERE clause of [updateAsyncStateExecutionQuery]. *)
Definition versioned_where (processExecutionId : UUID) (stateId : string)
    (stateIdSequence previousVersion : Z) (r : AsyncStateExecutionRow) : bool :=
  bool_decide (StateProcessExecutionId r = processExecutionId)
  && bool_decide (StateId r = stateId)
  && bool_decide (StateIdSequence r = stateIdSequence)
  && bool_decide (PreviousVersion r = previousVersion).

(** Its SET clause: [version = :previous_version + 1], the two status
    columns and [last_failure]. *)
Definition versioned_set (status : StateExecutionRowStatus) (previousVersion : Z)
    (lastFailure : option StateExecutionFailureJson)
    (r : AsyncStateExecutionRow) : AsyncStateExecutionRow :=
  {| StateProcessExecutionId := StateProcessExecutionId r;
     StateId := StateId r;
     StateIdSequence := StateIdSequence r;
     PreviousVersion := previousVersion + 1;
     WaitUntilStatus := fst (status_columns status);
     ExecuteStatus := snd (status_columns status);
     LastFailure := lastFailure;
     Input := Input r;
     Info := Info r |}.

Definition updateAsyncStateExecutionQuery (row : AsyncStateExecutionRowForUpdate)
    (table : list AsyncStateExecutionRow) : list AsyncStateExecutionRow * nat :=
  sql_update
    (versioned_where (UpdateProcessExecutionId row) (UpdateStateId row)
       (UpdateStateIdSequence row) (UpdatePreviousVersion row))
    (versioned_set (UpdateStatus row) (UpdatePreviousVersion row) (UpdateLastFailure row))
    table.

(** [UpdateAsyncStateExecution]: run the statement, then fail unless it
    affected exactly one row. *)
Definition UpdateAsyncStateExecution (row : AsyncStateExecutionRowForUpdate)
    (tx : Tx) : result Tx :=
  let '(rows, effected) := updateAsyncStateExecutionQuery row (async_state_executions (store tx)) in
  if bool_decide (effected <> 1%nat) then Err conditionalUpdateFailure
  else Ok (with_async_state_executions tx rows).

(** Modelled from the spec: the body of [UpdateAsyncStateExecutionWithoutCommands]
    lies outside [transactional.go] (the interface lists the method and the
    store calls it).  The specification makes every update of a state execution a
    conditional write gated on [PreviousVersion] that bumps the version by one,
    and a versioned update that affects a number of rows other than one a
    conditional-update failure; that is the statement of
    [UpdateAsyncStateExecution] on a row without commands. *)
Definition UpdateAsyncStateExecutionWithoutCommands
    (row : AsyncStateExecutionRowForUpdateWithoutCommands) (tx : Tx) : result Tx :=
  let '(rows, effected) :=
    sql_update
      (versioned_where (PlainProcessExecutionId row) (PlainStateId row)
         (PlainStateIdSequence row) (PlainPreviousVersion row))
      (versioned_set (PlainStatus row) (PlainPreviousVersion row) (PlainLastFailure row))
      (async_state_executions (store tx)) in
  if bool_decide (effected <> 1%nat) then Err conditionalUpdateFailure
  else Ok (with_async_state_executions tx rows).

(** The SET clause of [batchUpdateAsyncStateExecutionsToAbortRunningQuery];
    [1] is the code of [Running], [5] that of [Aborted].  The three CASE
    expressions read the row as it was before the statement. *)
Definition abort_running (r : AsyncStateExecutionRow) : AsyncStateExecutionRow :=
  {| StateProcessExecutionId := StateProcessExecutionId r;
     StateId := StateId r;
     StateIdSequence := StateIdSequence r;
     PreviousVersion :=
       if (status_code (WaitUntilStatus r) =? 1) || (status_code (ExecuteStatus r) =? 1)
       then PreviousVersion r + 1 else PreviousVersion r;
     WaitUntilStatus :=
       if status_code (WaitUntilStatus r) =? 1 then StateExecutionStatusAborted
       else WaitUntilStatus r;
     ExecuteStatus :=
       if status_code (ExecuteStatus r) =? 1 then StateExecutionStatusAborted
       else ExecuteStatus r;
     LastFailure := LastFailure r;
     Input := Input r;
     Info := Info r |}.

Definition batchUpdateAsyncStateExecutionsToAbortRunningQuery (processExecutionId : UUID)
    (table : list AsyncStateExecutionRow) : list AsyncStateExecutionRow * nat :=
  sql_update (fun r => bool_decide (StateProcessExecutionId r = processExecutionId))
             abort_running table.

(** [BatchUpdateAsyncStateExecutionsToAbortRunning]: the count of affected
    rows is discarded. *)
Definition BatchUpdateAsyncStateExecutionsToAbortRunning (processExecutionId : UUID)
    (tx : Tx) : result Tx :=
  Ok (with_async_state_executions tx
        (fst (batchUpdateAsyncStateExecutionsToAbortRunningQuery processExecutionId
                (async_state_executions (store tx))))).

(** [InsertAsyncStateExecution], under the primary key (execution id, state
    id, sequence). *)
Definition InsertAsyncStateExecution (row : AsyncStateExecutionRow) (tx : Tx) : result Tx :=
  if existsb (fun r => bool_decide (StateProcessExecutionId r = StateProcessExecutionId row)
                       && bool_decide (StateId r = StateId row)
                       && bool_decide (StateIdSequence r = StateIdSequence row))
             (async_state_executions (store tx))
  then Err ErrDuplicateEntry
  else Ok (with_async_state_executions tx (async_state_executions (store tx) ++ [row])).

(** [InsertImmediateTask]: the task sequence is the store's. *)
Definition InsertImmediateTask (row : ImmediateTaskRowForInsert) (tx : Tx) : result Tx :=
  Ok (with_immediate_tasks tx (immediate_tasks (store tx) ++ [row])).

Definition InsertLocalQueue (row : LocalQueueRow) (tx : Tx) : result Tx :=
  Ok (with_local_queue tx (local_queue (store tx) ++ [row])).

(** [SelectProcessExecutionForUpdate]: the row of that id, [sql.ErrNoRows]
    when there is none. *)
Definition SelectProcessExecutionForUpdate (processExecutionId : UUID)
    (tx : Tx) : result ProcessExecutionRowForUpdate :=
  match List.find (fun r => bool_decide (RowProcessExecutionId r = processExecutionId))
                  (process_executions (store tx)) with
  | Some r => Ok {| ProcessExecutionId := RowProcessExecutionId r;
                    Status := RowStatus r;
                    HistoryEventIdSequence := RowHistoryEventIdSequence r;
                    SequenceMaps := RowStateExecutionSequenceMaps r;
                    WaitingQueues := RowStateExecutionWaitingQueues r;
                    WaitToComplete := RowWaitToComplete r |}
  | None => Err ErrNoRows
  end.

(** The SET clause of [updateProcessExecutionQuery], with the waiting queues
    that [wait_until.go] writes through the same statement. *)
Definition process_set (row : ProcessExecutionRowForUpdate)
    (r : ProcessExecutionRow) : ProcessExecutionRow :=
  {| RowNamespace := RowNamespace r;
     RowProcessExecutionId := RowProcessExecutionId r;
     RowProcessId := RowProcessId r;
     RowStatus := Status row;
     RowStartTime := RowStartTime r;
     RowTimeoutSeconds := RowTimeoutSeconds r;
     RowHistoryEventIdSequence := HistoryEventIdSequence row;
     RowStateExecutionSequenceMaps := SequenceMaps row;
     RowStateExecutionWaitingQueues := WaitingQueues row;
     RowWaitToComplete := WaitToComplete row;
     RowInfo := RowInfo r |}.

(** [UpdateProcessExecution]: no row count is checked. *)
Definition UpdateProcessExecution (row : ProcessExecutionRowForUpdate) (tx : Tx) : result Tx :=
  Ok (with_process_executions tx
        (fst (sql_update
                (fun r => bool_decide (RowProcessExecutionId r = ProcessExecutionId row))
                (process_set row) (process_executions (store tx))))).



(** A phase of the row is [Running]. *)
Definition has_running (r : AsyncStateExecutionRow) : bool :=
  bool_decide (WaitUntilStatus r = StateExecutionStatusRunning)
  || bool_decide (ExecuteStatus r = StateExecutionStatusRunning).

End statements.
End postgres.

(** ** The pending-execution map ([persistence]) *)

Module sequence_maps.
Import persistence.

(** Modelled from the spec: the methods of [StateExecutionSequenceMaps] are
    defined outside the store's files.  The specification has a new state execution take "a new
    [StateIdSequence] from a per-state-id counter" and enter the pending map,
    and a completed one leave it: "remove [(StateId, StateIdSequence)]; if
    absent, fail with data-corruption".  A state id whose last pending
    sequence is removed leaves the map, so that the map is empty exactly when
    nothing is pending (the specification's [pending.empty()]). *)
Definition StartNewStateExecution (stateId : string)
    (s : StateExecutionSequenceMaps) : Z * StateExecutionSequenceMaps :=
  let seqId := default 0 (SequenceMap s !! stateId) + 1 in
  let stateMap := default ∅ (PendingExecutionMap s !! stateId) in
  (seqId,
   {| SequenceMap := <[stateId := seqId]> (SequenceMap s);
      PendingExecutionMap := <[stateId := <[seqId := true]> stateMap]> (PendingExecutionMap s) |}).

Definition CompleteNewStateExecution (stateId : string) (stateSeq : Z)
    (s : StateExecutionSequenceMaps) : result StateExecutionSequenceMaps :=
  match PendingExecutionMap s !! stateId with
  | None => Err (ErrStateNotPending (PendingExecutionMap s))
  | Some pendingMap =>
      match pendingMap !! stateSeq with
      | None => Err (ErrStateNotPending (PendingExecutionMap s))
      | Some _ =>
          let pendingMap := delete stateSeq pendingMap in
          Ok {| SequenceMap := SequenceMap s;
                PendingExecutionMap :=
                  if bool_decide (size pendingMap = 0%nat)
                  then delete stateId (PendingExecutionMap s)
                  else <[stateId := pendingMap]> (PendingExecutionMap s) |}
      end
  end.

(** [(stateId, stateSeq)] is a pending state execution of [s]. *)
Definition pending (stateId : string) (stateSeq : Z) (s : StateExecutionSequenceMaps) : bool :=
  match PendingExecutionMap s !! stateId with
  | Some pendingMap => bool_decide (is_Some (pendingMap !! stateSeq))
  | None => false
  end.

End sequence_maps.

(** ** The process store ([persistence/sql]) *)

Module sql.
Import xdbapi persistence extensions postgres sequence_maps.

Record CompleteWaitUntilExecutionRequest : Type := {
  CompleteTaskShardId : Z;
  CompleteProcessExecutionId : UUID;
  CompleteStateExecutionId : StateExecutionId;
  CompletePreviousVersion : Z
}.

Record ProcessWaitUntilExecutionRequest : Type := {
  WaitUntilProcessExecutionId : UUID;
  WaitUntilStateExecutionId : StateExecutionId;
  WaitUntilPrepare : PrepareStateExecutionResponse;
  WaitUntilCommandRequest : CommandRequest;
  WaitUntilPublishToLocalQueue : list LocalQueueMessage;
  WaitUntilTaskShardId : Z
}.

Record ProcessWaitUntilExecutionResponse : Type := {
  WaitUntilHasNewImmediateTask : bool
}.

Record CompleteExecuteExecutionRequest : Type := {
  ExecuteProcessExecutionId : UUID;
  ExecuteStateExecutionId : StateExecutionId;
  ExecutePrepare : PrepareStateExecutionResponse;
  ExecuteStateDecision : StateDecision;
  ExecutePublishToLocalQueue : list LocalQueueMessage;
  ExecuteTaskShardId : Z
}.

Record CompleteExecuteExecutionResponse : Type := {
  HasNewImmediateTask : bool
}.

Record ProcessLocalQueueMessagesRequest : Type := {
  MessagesTaskShardId : Z;
  MessagesTaskSequence : Z;
  MessagesProcessExecutionId : UUID;
  Messages : list LocalQueueMessageInfoJson
}.

(** [doProcessLocalQueueMessageTx], which [updateWaitUntilExecution] chains
    into and which is defined in another file: the transaction afterwards and
    the response's [HasNewImmediateTask]. *)
Class LocalQueueProcessor {env : StoreEnv} : Type := {
  doProcessLocalQueueMessageTx : Tx -> ProcessLocalQueueMessagesRequest -> result (Tx * bool)
}.

Section store.
Context {env : StoreEnv} {localQueue : LocalQueueProcessor}.

Definition insertAsyncStateExecution (tx : Tx) (processExecutionId : UUID)
    (stateId : string) (stateIdSeq : Z) (stateConfig : option AsyncStateConfig)
    (stateInput : option EncodedObject) (stateInfo : AsyncStateExecutionInfoJson) : result Tx :=
  let skip := GetSkipWaitUntil stateConfig in
  let stateRow := {|
    StateProcessExecutionId := processExecutionId;
    StateId := stateId;
    StateIdSequence := int32 stateIdSeq;
    LastFailure := None;
    PreviousVersion := 1;
    Input := stateInput;
    Info := stateInfo;
    WaitUntilStatus := if skip then StateExecutionStatusSkipped else StateExecutionStatusRunning;
    ExecuteStatus := if skip then StateExecutionStatusRunning else StateExecutionStatusUndefined
  |} in
  InsertAsyncStateExecution stateRow tx.

Definition insertImmediateTask (tx : Tx) (processExecutionId : UUID)
    (stateId : string) (stateIdSeq : Z) (stateConfig : option AsyncStateConfig)
    (shardId : Z) : result Tx :=
  let immediateTaskRow := {|
    TaskShardId := shardId;
    TaskProcessExecutionId := processExecutionId;
    TaskStateId := stateId;
    TaskStateIdSequence := int32 stateIdSeq;
    TaskInfo := None;
    TaskType := if GetSkipWaitUntil stateConfig then ImmediateTaskTypeExecute
                else ImmediateTaskTypeWaitUntil
  |} in
  InsertImmediateTask immediateTaskRow tx.

(** The rows one published message becomes. [xdbapi.DedupId] is the
    message's dedup id as [uuid.ParseUUID] reads it; a fresh one is minted
    when there is none. *)
Definition publishMessage (tx : Tx) (processExecutionId : UUID)
    (message : LocalQueueMessage) : result Tx :=
  let '(dedupId, tx) :=
    match xdbapi.DedupId message with
    | Some dedupId => (dedupId, tx)
    | None => (MustNewUUID (minted tx),
               {| begun := begun tx; store := store tx; minted := S (minted tx) |})
    end in
  tx ← InsertLocalQueue {| QueueProcessExecutionId := processExecutionId;
                           extensions.QueueName := xdbapi.QueueName message;
                           extensions.DedupId := dedupId;
                           extensions.Payload := xdbapi.Payload message |} tx;
  InsertImmediateTask {|
    TaskShardId := DefaultShardId;
    TaskType := ImmediateTaskTypeNewLocalQueueMessage;
    TaskProcessExecutionId := processExecutionId;
    TaskStateId := "";
    TaskStateIdSequence := 0;
    TaskInfo := Some {| WorkerTaskBackoffInfo := None;
                        LocalQueueMessageInfo :=
                          Some {| MessageQueueName := xdbapi.QueueName message;
                                  MessageDedupId := dedupId |} |}
  |} tx.

Fixpoint publishToLocalQueue (tx : Tx) (processExecutionId : UUID)
    (messages : list LocalQueueMessage) : result Tx :=
  match messages with
  | [] => Ok tx
  | message :: messages =>
      tx ← publishMessage tx processExecutionId message;
      publishToLocalQueue tx processExecutionId messages
  end.

Definition CompleteWaitUntilExecution (tx : Tx)
    (request : CompleteWaitUntilExecutionRequest) : result Tx :=
  let stateRow := {|
    PlainProcessExecutionId := CompleteProcessExecutionId request;
    PlainStateId := persistence.StateId (CompleteStateExecutionId request);
    PlainStateIdSequence := persistence.StateIdSequence (CompleteStateExecutionId request);
    PlainStatus := StateExecutionStatusExecuteRunning;
    PlainPreviousVersion := CompletePreviousVersion request;
    PlainLastFailure := None
  |} in
  tx ← UpdateAsyncStateExecutionWithoutCommands stateRow tx;
  InsertImmediateTask {|
    TaskShardId := CompleteTaskShardId request;
    TaskType := ImmediateTaskTypeExecute;
    TaskProcessExecutionId := CompleteProcessExecutionId request;
    TaskStateId := persistence.StateId (CompleteStateExecutionId request);
    TaskStateIdSequence := persistence.StateIdSequence (CompleteStateExecutionId request);
    TaskInfo := None
  |} tx.

Definition updateWaitUntilExecution (tx : Tx)
    (request : ProcessWaitUntilExecutionRequest) : result (Tx * ProcessWaitUntilExecutionResponse) :=
  let commands := LocalQueueCommands (WaitUntilCommandRequest request) in
  (* Step 1: lock and handle process execution row first *)
  locked ←
    (if bool_decide (0 < length commands)%nat then
       prcRow ← SelectProcessExecutionForUpdate (WaitUntilProcessExecutionId request) tx;
       let waitingQueues :=
         fold_left
           (fun waitingQueues localQueueCommand =>
              AddNewLocalQueueCommandForStateExecution
                (WaitUntilStateExecutionId request) localQueueCommand
                (bool_decide (WaitingType (WaitUntilCommandRequest request) = ANY_OF_COMPLETION))
                waitingQueues)
           commands (WaitingQueues prcRow) in
       let prcRow := {| ProcessExecutionId := ProcessExecutionId prcRow;
                        Status := Status prcRow;
                        HistoryEventIdSequence := HistoryEventIdSequence prcRow;
                        SequenceMaps := SequenceMaps prcRow;
                        WaitingQueues := waitingQueues;
                        WaitToComplete := WaitToComplete prcRow |} in
       tx ← UpdateProcessExecution prcRow tx;
       Ok (tx, bool_decide (0 < length (UnconsumedMessages waitingQueues))%nat)
     else Ok (tx, false));
  let tx : Tx := locked.1 in
  let toConsumeUnconsumedMessages : bool := locked.2 in
  (* Step 2: update async state execution *)
  let stateRow := {|
    UpdateProcessExecutionId := WaitUntilProcessExecutionId request;
    UpdateStateId := persistence.StateId (WaitUntilStateExecutionId request);
    UpdateStateIdSequence := persistence.StateIdSequence (WaitUntilStateExecutionId request);
    UpdateStatus := StateExecutionStatusWaitUntilWaiting;
    UpdateWaitUntilCommands := WaitUntilCommandRequest request;
    UpdateLastFailure := None;
    UpdatePreviousVersion := persistence.PreviousVersion (WaitUntilPrepare request)
  |} in
  tx ← UpdateAsyncStateExecution stateRow tx;
  (* Step 3: consume unconsumed messages *)
  if toConsumeUnconsumedMessages then
    resp ← doProcessLocalQueueMessageTx tx
              {| MessagesTaskShardId := WaitUntilTaskShardId request;
                 MessagesTaskSequence := 0;
                 MessagesProcessExecutionId := WaitUntilProcessExecutionId request;
                 Messages := [] |};
    Ok (resp.1, {| WaitUntilHasNewImmediateTask := resp.2 |})
  else Ok (tx, {| WaitUntilHasNewImmediateTask := false |}).

Definition doProcessWaitUntilExecutionTx (tx : Tx)
    (request : ProcessWaitUntilExecutionRequest) : result (Tx * ProcessWaitUntilExecutionResponse) :=
  handled ←
    (if bool_decide (WaitingType (WaitUntilCommandRequest request) = EMPTY_COMMAND) then
       tx ← CompleteWaitUntilExecution tx
              {| CompleteTaskShardId := WaitUntilTaskShardId request;
                 CompleteProcessExecutionId := WaitUntilProcessExecutionId request;
                 CompleteStateExecutionId := WaitUntilStateExecutionId request;
                 CompletePreviousVersion := persistence.PreviousVersion (WaitUntilPrepare request) |};
       Ok (tx, true)
     else
       updated ← updateWaitUntilExecution tx request;
       Ok (updated.1, WaitUntilHasNewImmediateTask updated.2));
  let tx : Tx := handled.1 in
  let hasNewImmediateTask : bool := handled.2 in
  tx ← publishToLocalQueue tx (WaitUntilProcessExecutionId request)
         (WaitUntilPublishToLocalQueue request);
  let hasNewImmediateTask :=
    if bool_decide (0 < length (WaitUntilPublishToLocalQueue request))%nat then true
    else hasNewImmediateTask in
  Ok (tx, {| WaitUntilHasNewImmediateTask := hasNewImmediateTask |}).

(** [ProcessWaitUntilExecution]: the database afterwards and the Go result. *)
Definition ProcessWaitUntilExecution (db : DB)
    (request : ProcessWaitUntilExecutionRequest) : DB * result ProcessWaitUntilExecutionResponse :=
  let tx := StartTransaction db in
  match doProcessWaitUntilExecutionTx tx request with
  | Err err => (Rollback tx, Err err)
  | Ok (tx, resp) => (Commit tx, Ok resp)
  end.

(** One turn of the loop over the next states of a decision. *)
Definition startNextState (prcExeId : UUID) (stateInfo : AsyncStateExecutionInfoJson)
    (taskShardId : Z) (tx : Tx) (sequenceMaps : StateExecutionSequenceMaps)
    (next : StateMovement) : result (Tx * StateExecutionSequenceMaps) :=
  let stateId := NextStateId next in
  let started := StartNewStateExecution (NextStateId next) sequenceMaps in
  let stateIdSeq := started.1 in
  let stateConfig := NextStateConfig next in
  let stateInput := NextStateInput next in
  tx ← insertAsyncStateExecution tx prcExeId stateId stateIdSeq stateConfig stateInput stateInfo;
  tx ← insertImmediateTask tx prcExeId stateId stateIdSeq stateConfig taskShardId;
  Ok (tx, started.2).

Fixpoint startNextStates (prcExeId : UUID) (stateInfo : AsyncStateExecutionInfoJson)
    (taskShardId : Z) (tx : Tx) (sequenceMaps : StateExecutionSequenceMaps)
    (nextStates : list StateMovement) : result (Tx * StateExecutionSequenceMaps) :=
  match nextStates with
  | [] => Ok (tx, sequenceMaps)
  | next :: nextStates =>
      started ← startNextState prcExeId stateInfo taskShardId tx sequenceMaps next;
      startNextStates prcExeId stateInfo taskShardId started.1 started.2 nextStates
  end.

(** What Step 2 - 3 decides: the process row, the maps, and the two flags. *)
Record CloseOutcome : Type := {
  outcomeRow : ProcessExecutionRowForUpdate;
  outcomeMaps : StateExecutionSequenceMaps;
  outcomeGracefullyComplete : bool;
  outcomeAbortRunningAsyncStates : bool
}.

Definition with_Status (prcRow : ProcessExecutionRowForUpdate)
    (status : ProcessExecutionStatus) : ProcessExecutionRowForUpdate :=
  {| ProcessExecutionId := ProcessExecutionId prcRow;
     Status := status;
     HistoryEventIdSequence := HistoryEventIdSequence prcRow;
     SequenceMaps := SequenceMaps prcRow;
     WaitingQueues := WaitingQueues prcRow;
     WaitToComplete := WaitToComplete prcRow |}.

Definition with_WaitToComplete (prcRow : ProcessExecutionRowForUpdate)
    (waitToComplete : bool) : ProcessExecutionRowForUpdate :=
  {| ProcessExecutionId := ProcessExecutionId prcRow;
     Status := Status prcRow;
     HistoryEventIdSequence := HistoryEventIdSequence prcRow;
     SequenceMaps := SequenceMaps prcRow;
     WaitingQueues := WaitingQueues prcRow;
     WaitToComplete := waitToComplete |}.

Definition with_SequenceMaps (prcRow : ProcessExecutionRowForUpdate)
    (sequenceMaps : StateExecutionSequenceMaps) : ProcessExecutionRowForUpdate :=
  {| ProcessExecutionId := ProcessExecutionId prcRow;
     Status := Status prcRow;
     HistoryEventIdSequence := HistoryEventIdSequence prcRow;
     SequenceMaps := sequenceMaps;
     WaitingQueues := WaitingQueues prcRow;
     WaitToComplete := WaitToComplete prcRow |}.

Definition clear_pending (sequenceMaps : StateExecutionSequenceMaps) : StateExecutionSequenceMaps :=
  {| SequenceMap := SequenceMap sequenceMaps; PendingExecutionMap := ∅ |}.

(** [len(sequenceMaps.PendingExecutionMap)] *)
Definition pending_len (sequenceMaps : StateExecutionSequenceMaps) : nat :=
  size (PendingExecutionMap sequenceMaps).

(** Step 2 - 3 of [doCompleteExecuteExecutionTx], up to the assignment of
    the status of a graceful completion. *)
Definition closeThread (prcRow : ProcessExecutionRowForUpdate)
    (sequenceMaps : StateExecutionSequenceMaps) (decision : StateDecision) : CloseOutcome :=
  let toGracefullyComplete :=
    WaitToComplete prcRow && bool_decide (pending_len sequenceMaps = 0%nat) in
  let outcome :=
    match ThreadClose decision with
    | Some threadDecision =>
        if negb toGracefullyComplete then
          match CloseType threadDecision with
          | GRACEFUL_COMPLETE_PROCESS =>
              {| outcomeRow := with_WaitToComplete prcRow true;
                 outcomeMaps := sequenceMaps;
                 outcomeGracefullyComplete := bool_decide (pending_len sequenceMaps = 0%nat);
                 outcomeAbortRunningAsyncStates := false |}
          | FORCE_COMPLETE_PROCESS =>
              {| outcomeRow := with_Status prcRow ProcessExecutionStatusCompleted;
                 outcomeMaps := clear_pending sequenceMaps;
                 outcomeGracefullyComplete := toGracefullyComplete;
                 outcomeAbortRunningAsyncStates := bool_decide (0 < pending_len sequenceMaps)%nat |}
          | FORCE_FAIL_PROCESS =>
              {| outcomeRow := with_Status prcRow ProcessExecutionStatusFailed;
                 outcomeMaps := clear_pending sequenceMaps;
                 outcomeGracefullyComplete := toGracefullyComplete;
                 outcomeAbortRunningAsyncStates := bool_decide (0 < pending_len sequenceMaps)%nat |}
          | DEAD_END =>
              {| outcomeRow := prcRow;
                 outcomeMaps := sequenceMaps;
                 outcomeGracefullyComplete := toGracefullyComplete;
                 outcomeAbortRunningAsyncStates := false |}
          end
        else
          {| outcomeRow := prcRow;
             outcomeMaps := sequenceMaps;
             outcomeGracefullyComplete := toGracefullyComplete;
             outcomeAbortRunningAsyncStates := false |}
    | None =>
        {| outcomeRow := prcRow;
           outcomeMaps := sequenceMaps;
           outcomeGracefullyComplete := toGracefullyComplete;
           outcomeAbortRunningAsyncStates := false |}
    end in
  {| outcomeRow :=
       if outcomeGracefullyComplete outcome
       then with_Status (outcomeRow outcome) ProcessExecutionStatusCompleted
       else outcomeRow outcome;
     outcomeMaps := outcomeMaps outcome;
     outcomeGracefullyComplete := outcomeGracefullyComplete outcome;
     outcomeAbortRunningAsyncStates := outcomeAbortRunningAsyncStates outcome |}.

Definition doCompleteExecuteExecutionTx (tx : Tx)
    (request : CompleteExecuteExecutionRequest) : result (Tx * CompleteExecuteExecutionResponse) :=
  let stateId := persistence.StateId (ExecuteStateExecutionId request) in
  let stateIdSequence := persistence.StateIdSequence (ExecuteStateExecutionId request) in
  (* lock process execution row first *)
  prcRow ← SelectProcessExecutionForUpdate (ExecuteProcessExecutionId request) tx;
  (* Step 1: update state info *)
  let currStateRow := {|
    PlainProcessExecutionId := ExecuteProcessExecutionId request;
    PlainStateId := stateId;
    PlainStateIdSequence := stateIdSequence;
    PlainStatus := StateExecutionCompleted;
    PlainPreviousVersion := persistence.PreviousVersion (ExecutePrepare request);
    PlainLastFailure := None
  |} in
  tx ← UpdateAsyncStateExecutionWithoutCommands currStateRow tx;
  (* Step 2: update the process info *)
  let sequenceMaps := SequenceMaps prcRow in
  (* Step 2 - 1: remove current state from PendingExecutionMap *)
  sequenceMaps ←
    match CompleteNewStateExecution stateId stateIdSequence sequenceMaps with
    | Ok sequenceMaps => Ok sequenceMaps
    | Err err => Err (ErrCompletingNonExisting stateId stateIdSequence sequenceMaps err)
    end;
  (* Step 2 - 2: add next states to PendingExecutionMap *)
  let nextStates := NextStates (ExecuteStateDecision request) in
  started ← startNextStates (ExecuteProcessExecutionId request)
              (persistence.Info (ExecutePrepare request)) (ExecuteTaskShardId request)
              tx sequenceMaps nextStates;
  let tx : Tx := started.1 in
  let sequenceMaps : StateExecutionSequenceMaps := started.2 in
  let hasNewImmediateTask := bool_decide (0 < length nextStates)%nat in
  (* Step 2 - 3 *)
  let outcome := closeThread prcRow sequenceMaps (ExecuteStateDecision request) in
  tx ← (if outcomeAbortRunningAsyncStates outcome
        then BatchUpdateAsyncStateExecutionsToAbortRunning (ExecuteProcessExecutionId request) tx
        else Ok tx);
  (* update process execution row *)
  let prcRow := with_SequenceMaps (outcomeRow outcome) (outcomeMaps outcome) in
  tx ← UpdateProcessExecution prcRow tx;
  (* Step 3: publish to local queue.  The two-result form of
     [publishToLocalQueue] called here is defined elsewhere; its flag is
     taken to say that a message was published, as
     [doProcessWaitUntilExecutionTx] computes it. *)
  tx ← publishToLocalQueue tx (ExecuteProcessExecutionId request)
         (ExecutePublishToLocalQueue request);
  let hasNewImmediateTask2 := bool_decide (0 < length (ExecutePublishToLocalQueue request))%nat in
  Ok (tx, {| HasNewImmediateTask := if hasNewImmediateTask2 then true else hasNewImmediateTask |}).

(** [CompleteExecuteExecution]: the database afterwards and the Go result. *)
Definition CompleteExecuteExecution (db : DB)
    (request : CompleteExecuteExecutionRequest) : DB * result CompleteExecuteExecutionResponse :=
  let tx := StartTransaction db in
  match doCompleteExecuteExecutionTx tx request with
  | Err err => (Rollback tx, Err err)
  | Ok (tx, resp) => (Commit tx, Ok resp)
  end.

End store.
End sql.

(** ** Timer-task pages ([persistence/sql], [createGetTimerTaskResponse]) *)

Module timer_rows.

(** [extensions.TimerTaskRow]: a row of [xdb_sys_timer_tasks] as the
    selects return it; [Info] is the serialized task info. *)
Record TimerTaskRow : Type := {
  ShardId : Z;
  FireTimeUnixSeconds : Z;
  TaskSequence : Z;
  ProcessExecutionId : UUID;
  StateId : string;
  StateIdSequence : Z;
  TaskType : Z;
  Info : string
}.

End timer_rows.

Module timer_tasks.

(** [persistence.BytesToTimerTaskInfo] and the type it decodes to, which the
    persistence package defines in another file. *)
Class TimerTaskCodec : Type := {
  TimerTaskInfoJson : Type;
  BytesToTimerTaskInfo : string -> result TimerTaskInfoJson
}.

Record TimerTask {codec : TimerTaskCodec} : Type := {
  ShardId : Z;
  FireTimestampSeconds : Z;
  TaskSequence : option Z;
  TaskType : Z;
  ProcessExecutionId : UUID;
  StateExecutionId : persistence.StateExecutionId;
  TimerTaskInfo : TimerTaskInfoJson
}.

Record GetTimerTasksResponse {codec : TimerTaskCodec} : Type := {
  Tasks : list TimerTask;
  MinFireTimestampSecondsInclusive : Z;
  MaxFireTimestampSecondsInclusive : Z;
  MinSequenceInclusive : Z;
  MaxSequenceInclusive : Z;
  FullPage : bool
}.

Definition MaxInt64 : Z := 2 ^ 63 - 1.
Definition MinInt64 : Z := - 2 ^ 63.

Section response.
Context {codec : TimerTaskCodec}.

(** The first loop: one task per row, stopping at the first row whose info
    does not decode. *)
Fixpoint toTimerTasks (shardId : Z) (dbTimerTasks : list timer_rows.TimerTaskRow)
    (tasks : list TimerTask) : result (list TimerTask) :=
  match dbTimerTasks with
  | [] => Ok tasks
  | t :: dbTimerTasks =>
      info ← BytesToTimerTaskInfo (timer_rows.Info t);
      toTimerTasks shardId dbTimerTasks
        (tasks ++ [ {| ShardId := shardId;
                       FireTimestampSeconds := timer_rows.FireTimeUnixSeconds t;
                       TaskSequence := Some (timer_rows.TaskSequence t);
                       TaskType := timer_rows.TaskType t;
                       ProcessExecutionId := timer_rows.ProcessExecutionId t;
                       StateExecutionId :=
                         {| persistence.StateId := timer_rows.StateId t;
                            persistence.StateIdSequence := timer_rows.StateIdSequence t |};
                       TimerTaskInfo := info |} ])
  end.

(** The second loop: the running [(MinSequenceInclusive, MaxSequenceInclusive)]. *)
Definition sequenceBounds (dbTimerTasks : list timer_rows.TimerTaskRow) : Z * Z :=
  fold_left
    (fun bounds t =>
       (if timer_rows.TaskSequence t <? bounds.1 then timer_rows.TaskSequence t else bounds.1,
        if bounds.2 <? timer_rows.TaskSequence t then timer_rows.TaskSequence t else bounds.2))
    dbTimerTasks (MaxInt64, MinInt64).

Definition createGetTimerTaskResponse (shardId : Z)
    (dbTimerTasks : list timer_rows.TimerTaskRow) (reqPageSize : option Z)
    : result GetTimerTasksResponse :=
  tasks ← toTimerTasks shardId dbTimerTasks [];
  let fullPage :=
    match reqPageSize with
    | Some reqPageSize => bool_decide (Z.of_nat (length dbTimerTasks) = reqPageSize)
    | None => false
    end in
  match dbTimerTasks with
  | firstTask :: _ =>
      let lastTask := List.last dbTimerTasks firstTask in
      let bounds := sequenceBounds dbTimerTasks in
      Ok {| Tasks := tasks;
            MinFireTimestampSecondsInclusive := timer_rows.FireTimeUnixSeconds firstTask;
            MaxFireTimestampSecondsInclusive := timer_rows.FireTimeUnixSeconds lastTask;
            MinSequenceInclusive := bounds.1;
            MaxSequenceInclusive := bounds.2;
            FullPage := fullPage |}
  | [] =>
      Ok {| Tasks := tasks;
            MinFireTimestampSecondsInclusive := 0;
            MaxFireTimestampSecondsInclusive := 0;
            MinSequenceInclusive := 0;
            MaxSequenceInclusive := 0;
            FullPage := fullPage |}
  end.

(** The task a row becomes once its info has decoded to [info]. *)
Definition task_of_row (shardId : Z) (t : timer_rows.TimerTaskRow)
    (info : TimerTaskInfoJson) : TimerTask :=
  {| ShardId := shardId;
     FireTimestampSeconds := timer_rows.FireTimeUnixSeconds t;
     TaskSequence := Some (timer_rows.TaskSequence t);
     TaskType := timer_rows.TaskType t;
     ProcessExecutionId := timer_rows.ProcessExecutionId t;
     StateExecutionId :=
       {| persistence.StateId := timer_rows.StateId t;
          persistence.StateIdSequence := timer_rows.StateIdSequence t |};
     TimerTaskInfo := info |}.

(** The info of row [t] decodes; [task] is the task of row [t]. *)
Definition decodes (t : timer_rows.TimerTaskRow) : Prop :=
  exists info, BytesToTimerTaskInfo (timer_rows.Info t) = Ok info.

Definition task_for (shardId : Z) (t : timer_rows.TimerTaskRow) (task : TimerTask) : Prop :=
  exists info,
    BytesToTimerTaskInfo (timer_rows.Info t) = Ok info /\ task = task_of_row shardId t info.

End response.
End timer_tasks.

(** ** The results of the wait-until commands ([persistence/sql],
    [prepareWaitUntilCommandResults]) *)

Module command_results.
Import xdbapi.

Inductive CommandStatus : Type :=
| WAITING_COMMAND
| COMPLETED_COMMAND
| SKIPPED_COMMAND.

Record TimerResult : Type := {
  TimerStatus : CommandStatus
}.

Record LocalQueueMessageResult : Type := {
  ResultDedupId : string;
  ResultPayload : option EncodedObject
}.

Record LocalQueueResult : Type := {
  Status : CommandStatus;
  ResultQueueName : string;
  Messages : list LocalQueueMessageResult
}.

Record CommandResults : Type := {
  TimerResults : list TimerResult;
  LocalQueueResults : list LocalQueueResult
}.

(** [data_models.CommandResultsJson]: what the store has recorded, by the
    index of the command ([map[int]bool] and
    [map[int][]xdbapi.LocalQueueMessageResult]). *)
Record CommandResultsJson : Type := {
  JsonTimerResults : gmap Z bool;
  JsonLocalQueueResults : gmap Z (list LocalQueueMessageResult)
}.

(** The body of the loop over the timer commands, at index [idx]. *)
Definition timerResult (commandResultsJson : CommandResultsJson) (idx : nat) : TimerResult :=
  match (JsonTimerResults commandResultsJson !! Z.of_nat idx : option bool) with
  | Some fired => {| TimerStatus := if fired then COMPLETED_COMMAND else SKIPPED_COMMAND |}
  | None => {| TimerStatus := WAITING_COMMAND |}
  end.

(** The body of the loop over the local-queue commands. *)
Definition localQueueResult (commandResultsJson : CommandResultsJson) (idx : nat)
    (localQueueCommand : LocalQueueCommand) : LocalQueueResult :=
  match JsonLocalQueueResults commandResultsJson !! Z.of_nat idx with
  | Some result => {| Status := COMPLETED_COMMAND;
                      ResultQueueName := CommandQueueName localQueueCommand;
                      Messages := result |}
  | None => {| Status := WAITING_COMMAND;
               ResultQueueName := CommandQueueName localQueueCommand;
               Messages := [] |}
  end.

(** [for idx := range commands { results = append(results, body idx) }],
    from index [idx] on. *)
Fixpoint rangeAppend {Command Result : Type} (body : nat -> Command -> Result)
    (idx : nat) (commands : list Command) (results : list Result) : list Result :=
  match commands with
  | [] => results
  | command :: commands => rangeAppend body (S idx) commands (results ++ [body idx command])
  end.

Definition prepareWaitUntilCommandResults (commandResultsJson : CommandResultsJson)
    (commandRequest : CommandRequest) : CommandResults :=
  {| TimerResults :=
       rangeAppend (fun (idx : nat) (_ : TimerCommand) => timerResult commandResultsJson idx) 0
         (TimerCommands commandRequest) [];
     LocalQueueResults :=
       rangeAppend (localQueueResult commandResultsJson) 0
         (LocalQueueCommands commandRequest) [] |}.

End command_results.

(** ** The immediate-task processor: the worker call and what follows it
    ([engine/api_engine_sql_impl.go], second part) *)

Module immediate_task_processor.
Import xdbapi persistence processor.

(** The fields of [config.ImmediateTaskQueueConfig] the processor reads; the
    two timeouts are [time.Duration] values, in nanoseconds. *)
Record ImmediateTaskQueueConfig : Type := {
  DefaultAsyncStateAPITimeout : Z;
  MaxAsyncStateAPITimeout : Z;
  MaxStateAPIFailureDetailSize : Z
}.

(** [time.Second] *)
Definition Second : Z := 1000000000.

Definition GetWaitUntilApiTimeoutSeconds (stateConfig : AsyncStateConfig) : Z :=
  default 0 (WaitUntilApiTimeoutSeconds stateConfig).
Definition GetExecuteApiTimeoutSeconds (stateConfig : AsyncStateConfig) : Z :=
  default 0 (ExecuteApiTimeoutSeconds stateConfig).

(** [createContextWithTimeout]: the timeout of the context it returns.  The
    product with [time.Second] is an [int64] product. *)
Definition createContextWithTimeout (qCfg : ImmediateTaskQueueConfig)
    (taskType : ImmediateTaskType) (stateConfig : option AsyncStateConfig) : GoResult Z :=
  let timeout := DefaultAsyncStateAPITimeout qCfg in
  match stateConfig with
  | Some stateConfig =>
      let chosen :=
        match taskType with
        | ImmediateTaskTypeWaitUntil =>
            Returned (if 0 <? GetWaitUntilApiTimeoutSeconds stateConfig
                      then int64 (GetWaitUntilApiTimeoutSeconds stateConfig * Second)
                      else timeout)
        | ImmediateTaskTypeExecute =>
            Returned (if 0 <? GetExecuteApiTimeoutSeconds stateConfig
                      then int64 (GetExecuteApiTimeoutSeconds stateConfig * Second)
                      else timeout)
        | _ => Panicked
        end in
      match chosen with
      | Returned timeout =>
          Returned (if MaxAsyncStateAPITimeout qCfg <? timeout
                    then MaxAsyncStateAPITimeout qCfg else timeout)
      | Panicked => Panicked
      end
  | None => Returned timeout
  end.

(** What the worker call hands back besides the decoded response: the HTTP
    response ([Body] is [None] when reading it fails) and the error, by its
    message. *)
Record HttpResponse : Type := {
  StatusCode : Z;
  Body : option string
}.

Record AsyncStateExecuteResponse : Type := {
  StateDecision : StateDecision;
  PublishToLocalQueue : list LocalQueueMessage
}.

Definition checkDecision (decision : xdbapi.StateDecision) : option string :=
  if bool_decide (is_Some (ThreadClose decision)) && (0 <? Z.of_nat (length (NextStates decision)))
  then Some "cannot have both thread decision and next states"
  else None.

Definition checkResponseAndError (err : option string) (httpResp : option HttpResponse) : bool :=
  bool_decide (is_Some err)
  || match httpResp with
     | Some httpResp => negb (StatusCode httpResp =? 200)
     | None => false
     end.

(** [composeHttpError]: the status code and the details it returns.  The
    details are cut by a slice expression, which panics on a negative bound. *)
Definition composeHttpError (qCfg : ImmediateTaskQueueConfig)
    (err : option string) (httpResp : option HttpResponse) : GoResult (Z * string) :=
  let responseBody :=
    match httpResp with
    | Some httpResp => default "cannot read body from http response" (Body httpResp)
    | None => "None"
    end in
  let statusCode :=
    match httpResp with
    | Some httpResp => int32 (StatusCode httpResp)
    | None => 0
    end in
  let details := "errMsg: " +:+ default "<nil>" err +:+ ", responseBody: " +:+ responseBody in
  let maxDetailSize := MaxStateAPIFailureDetailSize qCfg in
  if maxDetailSize <? Z.of_nat (String.length details) then
    if maxDetailSize <? 0 then Panicked
    else Returned (statusCode,
                   String.substring 0 (Z.to_nat maxDetailSize) details +:+ "...(truncated)")
  else Returned (statusCode, details).

Record BackoffImmediateTaskRequest : Type := {
  LastFailureStatus : Z;
  LastFailureDetails : string;
  Prep : PrepareStateExecutionResponse;
  FireTimestampSeconds : Z;
  Task : ImmediateTask
}.

(** [retryTask]: the request it passes to [BackoffImmediateTask];
    [nowSeconds] is what [time.Now().Unix()] returns in it.  The same fire
    time goes to the timer notification that follows a successful call. *)
Definition retryTask (nowSeconds : Z) (task : ImmediateTask)
    (prep : PrepareStateExecutionResponse) (nextIntervalSecs : Z)
    (LastFailureStatus : Z) (LastFailureDetails : string) : BackoffImmediateTaskRequest :=
  let fireTimeUnixSeconds := int64 (nowSeconds + nextIntervalSecs) in
  {| LastFailureStatus := LastFailureStatus;
     LastFailureDetails := LastFailureDetails;
     Prep := prep;
     FireTimestampSeconds := fireTimeUnixSeconds;
     Task := task |}.

(** Where [processImmediateTask] sends a task, given the snapshot
    [PrepareStateExecution] returned for it (no snapshot is read for a
    local-queue message). *)
Inductive Handler : Type :=
| LocalQueueMessageTask
| WaitUntilTask
| ExecuteTask
| Noop.

Definition processImmediateTask (task : ImmediateTask)
    (prep : PrepareStateExecutionResponse) : Handler :=
  if bool_decide (TaskType task = ImmediateTaskTypeNewLocalQueueMessage)
  then LocalQueueMessageTask
  else if bool_decide (WaitUntilStatus prep = StateExecutionStatusRunning) then WaitUntilTask
  else if bool_decide (ExecuteStatus prep = StateExecutionStatusRunning) then ExecuteTask
  else Noop.

(** What [processExecuteTask] does once the worker has answered: the call to
    the store it makes, or the error it returns without one. *)
Inductive TaskStep : Type :=
| BackoffImmediateTask (request : BackoffImmediateTaskRequest)
| ReturnError (statusCode : Z) (details : string)
| CompleteExecuteExecution (request : sql.CompleteExecuteExecutionRequest).

(** [processExecuteTask]: the timeout of the worker call and the step after
    it.  [resp], [httpResp] and [err] are the three results of the worker
    call; [nowSeconds] is the clock where the attempt is counted and the retry
    decided, [retrySeconds] the clock in [retryTask]. *)
Definition processExecuteTask {go : GoRuntime} (qCfg : ImmediateTaskQueueConfig)
    (nowSeconds retrySeconds : Z) (task : ImmediateTask)
    (prep : PrepareStateExecutionResponse)
    (resp : option AsyncStateExecuteResponse) (httpResp : option HttpResponse)
    (err : option string) : GoResult (Z * TaskStep) :=
  let task := countAttempt nowSeconds task in
  match createContextWithTimeout qCfg (TaskType task) (StateConfig (Info prep)) with
  | Panicked => Panicked
  | Returned timeout =>
      let checked :=
        match err with
        | None =>
            match resp with
            | Some resp => Returned (checkDecision (StateDecision resp))
            | None => Panicked
            end
        | Some _ => Returned err
        end in
      match checked with
      | Panicked => Panicked
      | Returned err =>
          if checkResponseAndError err httpResp then
            match composeHttpError qCfg err httpResp with
            | Panicked => Panicked
            | Returned (status, details) =>
                match checkRetry nowSeconds task (Info prep) with
                | Panicked => Panicked
                | Returned (nextIntervalSecs, shouldRetry) =>
                    if shouldRetry
                    then Returned (timeout,
                                   BackoffImmediateTask
                                     (retryTask retrySeconds task prep nextIntervalSecs
                                        status details))
                    else Returned (timeout, ReturnError status details)
                end
            end
          else
            match resp with
            | Some resp =>
                Returned (timeout,
                          CompleteExecuteExecution
                            {| sql.ExecuteProcessExecutionId := ProcessExecutionId task;
                               sql.ExecuteStateExecutionId :=
                                 {| StateId := StateId (TaskStateExecutionId task);
                                    StateIdSequence :=
                                      StateIdSequence (TaskStateExecutionId task) |};
                               sql.ExecutePrepare := prep;
                               sql.ExecuteStateDecision := StateDecision resp;
                               sql.ExecutePublishToLocalQueue := PublishToLocalQueue resp;
                               sql.ExecuteTaskShardId := ShardId task |})
            | None => Panicked
            end
      end
  end.

End immediate_task_processor.

(** ** Describing the latest execution of a process
    ([engine/api_engine_sql_impl.go], [extensions/postgres/non_transactional.go]) *)

Module api_describe.
Import api_engine.

Record ProcessExecutionDescribeRequest : Type := {
  DescribeNamespace : string;
  DescribeProcessId : string
}.

Record ProcessExecutionDescribeResponse : Type := {
  DescribedProcessExecutionId : UUID;
  DescribedProcessType : string;
  DescribedWorkerUrl : string;
  StartTimestamp : Z
}.

Section describe.
(** [FromPostgresDateTime], which the postgres package defines in another
    file, on times in Unix seconds. *)
Variable FromPostgresDateTime : Z -> Z.

(** [selectCurrentExecutionQuery]: the pointer rows of the namespace and
    process id, each joined with the process executions of its process id.
    The execution id of a joined row is the pointer's, the other columns are
    the execution's. *)
Definition selectCurrentExecutionQuery (namespace processId : string)
    (db : DB) : list ProcessExecutionRow :=
  flat_map
    (fun ce =>
       map (fun e =>
              {| ProcessExecutionId := CurrentProcessExecutionId ce;
                 IsCurrent := IsCurrent e;
                 Status := Status e;
                 HistoryEventIdSequence := HistoryEventIdSequence e;
                 StateIdSequenceJson := StateIdSequenceJson e;
                 RowNamespace := "";
                 RowProcessId := "";
                 StartTime := StartTime e;
                 RowTimeoutSeconds := RowTimeoutSeconds e;
                 RowInfo := RowInfo e |})
           (List.filter (fun e => bool_decide (RowProcessId e = CurrentProcessId ce))
                        (process_executions db)))
    (List.filter (fun ce => bool_decide (CurrentNamespace ce = namespace)
                            && bool_decide (CurrentProcessId ce = processId))
                 (current_process_executions db)).

(** [SelectCurrentProcessExecution]: the first row of the query,
    [sql.ErrNoRows] when it has none. *)
Definition SelectCurrentProcessExecution (namespace processId : string)
    (db : DB) : result ProcessExecutionRow :=
  match selectCurrentExecutionQuery namespace processId db with
  | row :: _ =>
      Ok {| ProcessExecutionId := ProcessExecutionId row;
            IsCurrent := IsCurrent row;
            Status := Status row;
            HistoryEventIdSequence := HistoryEventIdSequence row;
            StateIdSequenceJson := StateIdSequenceJson row;
            RowNamespace := namespace;
            RowProcessId := processId;
            StartTime := FromPostgresDateTime (StartTime row);
            RowTimeoutSeconds := RowTimeoutSeconds row;
            RowInfo := RowInfo row |}
  | [] => Err ErrNoRows
  end.

(** [DescribeLatestProcess]: the results [(response, notExists, err)]. *)
Definition DescribeLatestProcess (db : DB) (request : ProcessExecutionDescribeRequest)
    : option ProcessExecutionDescribeResponse * bool * option error :=
  match SelectCurrentProcessExecution (DescribeNamespace request) (DescribeProcessId request) db with
  | Err err => if IsNotFoundError err then (None, true, None) else (None, false, Some err)
  | Ok row =>
      (Some {| DescribedProcessExecutionId := ProcessExecutionId row;
               DescribedProcessType := InfoProcessType (RowInfo row);
               DescribedWorkerUrl := InfoWorkerURL (RowInfo row);
               StartTimestamp := int32 (StartTime row) |},
       false, None)
  end.

End describe.
End api_describe.

(** * Worked data

    The concrete policies, environments and databases the examples below
    evaluate the code on. *)

Module examples.

Definition halving_policy : xdbapi.RetryPolicy := {|
  xdbapi.InitialIntervalSeconds := Some 10;
  xdbapi.BackoffCoefficient := Some 0.5%float;
  xdbapi.MaximumIntervalSeconds := Some 60;
  xdbapi.MaximumAttempts := None;
  xdbapi.MaximumAttemptsDurationSeconds := None
|}.

Definition slow_policy : xdbapi.RetryPolicy := {|
  xdbapi.InitialIntervalSeconds := Some 1;
  xdbapi.BackoffCoefficient := Some 1.5%float;
  xdbapi.MaximumIntervalSeconds := Some 60;
  xdbapi.MaximumAttempts := None;
  xdbapi.MaximumAttemptsDurationSeconds := None
|}.

(** A pointer row for process "p" of namespace "n", and a request to start
    that process again. *)
Definition started_db : api_engine.DB := {|
  api_engine.current_process_executions :=
    [ {| api_engine.CurrentNamespace := "n";
         api_engine.CurrentProcessId := "p";
         api_engine.CurrentProcessExecutionId := 7%N |} ];
  api_engine.process_executions := [];
  api_engine.async_state_executions := [];
  api_engine.worker_tasks := []
|}.

Definition start_request : api_engine.ProcessExecutionStartRequest := {|
  api_engine.Namespace := "n";
  api_engine.ProcessId := "p";
  api_engine.ProcessType := "order";
  api_engine.WorkerUrl := "http://worker";
  api_engine.StartStateId := Some "S";
  api_engine.StartStateInput := None;
  api_engine.StartStateConfig := None;
  api_engine.StartConfig := None
|}.

(** One way an update row's [Status] can land in the two status columns; the
    properties below hold for every such encoding, the examples run on this
    one. *)
Definition two_phase_columns (status : extensions.StateExecutionRowStatus)
    : persistence.StateExecutionStatus * persistence.StateExecutionStatus :=
  match status with
  | extensions.StateExecutionStatusWaitUntilRunning =>
      (persistence.StateExecutionStatusRunning, persistence.StateExecutionStatusUndefined)
  | extensions.StateExecutionStatusWaitUntilWaiting =>
      (persistence.StateExecutionStatusWaiting, persistence.StateExecutionStatusUndefined)
  | extensions.StateExecutionStatusExecuteRunning =>
      (persistence.StateExecutionStatusCompleted, persistence.StateExecutionStatusRunning)
  | extensions.StateExecutionCompleted =>
      (persistence.StateExecutionStatusCompleted, persistence.StateExecutionStatusCompleted)
  | extensions.StateExecutionFailed =>
      (persistence.StateExecutionStatusCompleted, persistence.StateExecutionStatusFailed)
  | extensions.StateExecutionAborted =>
      (persistence.StateExecutionStatusAborted, persistence.StateExecutionStatusAborted)
  end.

(** An environment without local queues: no waiting queues to keep, and
    identifiers minted in order. *)
Definition env : extensions.StoreEnv := {|
  extensions.StateExecutionWaitingQueues := unit;
  extensions.AddNewLocalQueueCommandForStateExecution := fun _ _ _ queues => queues;
  extensions.UnconsumedMessages := fun _ => [];
  extensions.status_columns := two_phase_columns;
  extensions.MustNewUUID := fun n => N.of_nat (1000 + n)
|}.

Definition localQueue : sql.LocalQueueProcessor (env := env) := {|
  sql.doProcessLocalQueueMessageTx := fun tx _ => Ok (tx, false)
|}.

Definition info : persistence.AsyncStateExecutionInfoJson := {|
  persistence.Namespace := "n";
  persistence.ProcessId := "p";
  persistence.ProcessType := "order";
  persistence.WorkerURL := "http://worker";
  persistence.StateConfig := None
|}.

(** A state-execution row of process 1. *)
Definition state_row (stateId : string) (version : Z)
    (waitUntil execute : persistence.StateExecutionStatus) : extensions.AsyncStateExecutionRow := {|
  extensions.StateProcessExecutionId := 1%N;
  extensions.StateId := stateId;
  extensions.StateIdSequence := 1;
  extensions.PreviousVersion := version;
  extensions.WaitUntilStatus := waitUntil;
  extensions.ExecuteStatus := execute;
  extensions.LastFailure := None;
  extensions.Input := None;
  extensions.Info := info
|}.

(** Process 1 with the state executions (S1, 1) and (S2, 1) pending. *)
Definition both_pending : persistence.StateExecutionSequenceMaps := {|
  persistence.SequenceMap := <[ "S1" := 1 ]> {[ "S2" := 1 ]};
  persistence.PendingExecutionMap := <[ "S1" := {[ 1 := true ]} ]> {[ "S2" := {[ 1 := true ]} ]}
|}.

Definition only_S1_pending : persistence.StateExecutionSequenceMaps := {|
  persistence.SequenceMap := {[ "S1" := 1 ]};
  persistence.PendingExecutionMap := {[ "S1" := {[ 1 := true ]} ]}
|}.

Definition none_pending : persistence.StateExecutionSequenceMaps := {|
  persistence.SequenceMap := <[ "S1" := 1 ]> {[ "S2" := 1 ]};
  persistence.PendingExecutionMap := ∅
|}.

Definition process_row (status : persistence.ProcessExecutionStatus)
    (maps : persistence.StateExecutionSequenceMaps) (waitToComplete : bool)
    : extensions.ProcessExecutionRow (env := env) := {|
  extensions.RowNamespace := "n";
  extensions.RowProcessExecutionId := 1%N;
  extensions.RowProcessId := "p";
  extensions.RowStatus := status;
  extensions.RowStartTime := 1700000000;
  extensions.RowTimeoutSeconds := 0;
  extensions.RowHistoryEventIdSequence := 0;
  extensions.RowStateExecutionSequenceMaps := maps;
  extensions.RowStateExecutionWaitingQueues := (tt : @extensions.StateExecutionWaitingQueues env);
  extensions.RowWaitToComplete := waitToComplete;
  extensions.RowInfo := {| extensions.InfoProcessType := "order";
                           extensions.InfoWorkerURL := "http://worker" |}
|}.

Definition locked_row (status : persistence.ProcessExecutionStatus)
    (maps : persistence.StateExecutionSequenceMaps) (waitToComplete : bool)
    : extensions.ProcessExecutionRowForUpdate (env := env) := {|
  extensions.ProcessExecutionId := 1%N;
  extensions.Status := status;
  extensions.HistoryEventIdSequence := 0;
  extensions.SequenceMaps := maps;
  extensions.WaitingQueues := (tt : @extensions.StateExecutionWaitingQueues env);
  extensions.WaitToComplete := waitToComplete
|}.

Definition db_of (process : extensions.ProcessExecutionRow (env := env))
    (states : list extensions.AsyncStateExecutionRow) : extensions.DB (env := env) := {|
  extensions.latest_process_executions :=
    [ {| extensions.LatestNamespace := "n";
         extensions.LatestProcessId := "p";
         extensions.LatestProcessExecutionId := 1%N |} ];
  extensions.process_executions := [ process ];
  extensions.async_state_executions := states;
  extensions.immediate_tasks := [];
  extensions.timer_tasks := [];
  extensions.local_queue := []
|}.

Definition prepared (version : Z) (waitUntil execute : persistence.StateExecutionStatus)
    : persistence.PrepareStateExecutionResponse := {|
  persistence.WaitUntilStatus := waitUntil;
  persistence.ExecuteStatus := execute;
  persistence.PreviousVersion := version;
  persistence.Info := info;
  persistence.Input := {| xdbapi.Encoding := "json"; xdbapi.Data := "{}" |}
|}.

(** The execute phase of (stateId, 1), prepared at [version], returned
    [decision]. *)
Definition execute_request (stateId : string) (version : Z)
    (decision : xdbapi.StateDecision) : sql.CompleteExecuteExecutionRequest := {|
  sql.ExecuteProcessExecutionId := 1%N;
  sql.ExecuteStateExecutionId :=
    {| persistence.StateId := stateId; persistence.StateIdSequence := 1 |};
  sql.ExecutePrepare :=
    prepared version persistence.StateExecutionStatusSkipped
      persistence.StateExecutionStatusRunning;
  sql.ExecuteStateDecision := decision;
  sql.ExecutePublishToLocalQueue := [];
  sql.ExecuteTaskShardId := 0
|}.

Definition close_with (closeType : xdbapi.ThreadCloseType) : xdbapi.StateDecision := {|
  xdbapi.NextStates := [];
  xdbapi.ThreadClose := Some {| xdbapi.CloseType := closeType |}
|}.

Definition no_decision : xdbapi.StateDecision := {|
  xdbapi.NextStates := [];
  xdbapi.ThreadClose := None
|}.

(** Two executions of process 1 under way: S1 in its execute phase, S2 in
    its wait-until phase. *)
Definition two_running : extensions.DB (env := env) :=
  db_of (process_row persistence.ProcessExecutionStatusRunning both_pending false)
    [ state_row "S1" 1 persistence.StateExecutionStatusSkipped
        persistence.StateExecutionStatusRunning;
      state_row "S2" 1 persistence.StateExecutionStatusRunning
        persistence.StateExecutionStatusUndefined ].

(** The same process after S1 has force-failed it. *)
Definition force_failed : extensions.DB (env := env) :=
  db_of (process_row persistence.ProcessExecutionStatusFailed none_pending false)
    [ state_row "S1" 2 persistence.StateExecutionStatusCompleted
        persistence.StateExecutionStatusCompleted;
      state_row "S2" 2 persistence.StateExecutionStatusAborted
        persistence.StateExecutionStatusUndefined ].

(** A process armed for graceful completion whose last state is executing. *)
Definition last_state_running : extensions.DB (env := env) :=
  db_of (process_row persistence.ProcessExecutionStatusRunning only_S1_pending true)
    [ state_row "S1" 1 persistence.StateExecutionStatusSkipped
        persistence.StateExecutionStatusRunning ].

(** A force-failed process one of whose state executions, waiting at the
    time, has since reached its execute phase. *)
Definition late_execution : extensions.DB (env := env) :=
  db_of (process_row persistence.ProcessExecutionStatusFailed none_pending false)
    [ state_row "S2" 3 persistence.StateExecutionStatusCompleted
        persistence.StateExecutionStatusRunning ].

(** The wait-until phase of (S2, 1), prepared at version 1, returned an empty
    command request and one message for queue "q". *)
Definition empty_command_request : sql.ProcessWaitUntilExecutionRequest := {|
  sql.WaitUntilProcessExecutionId := 1%N;
  sql.WaitUntilStateExecutionId :=
    {| persistence.StateId := "S2"; persistence.StateIdSequence := 1 |};
  sql.WaitUntilPrepare :=
    prepared 1 persistence.StateExecutionStatusRunning
      persistence.StateExecutionStatusUndefined;
  sql.WaitUntilCommandRequest :=
    {| xdbapi.WaitingType := xdbapi.EMPTY_COMMAND;
       xdbapi.TimerCommands := [];
       xdbapi.LocalQueueCommands := [] |};
  sql.WaitUntilPublishToLocalQueue :=
    [ {| xdbapi.QueueName := "q"; xdbapi.DedupId := None; xdbapi.Payload := None |} ];
  sql.WaitUntilTaskShardId := 0
|}.

(** The armed process after its last state has completed. *)
Definition gracefully_completed : extensions.DB (env := env) :=
  db_of (process_row persistence.ProcessExecutionStatusCompleted
           {| persistence.SequenceMap := {[ "S1" := 1 ]};
              persistence.PendingExecutionMap := ∅ |} true)
    [ state_row "S1" 2 persistence.StateExecutionStatusCompleted
        persistence.StateExecutionStatusCompleted ].

End examples.

(** More worked data: a page of timer tasks, and a task of the processor
    with the answers of its worker. *)

Module samples.

(** Task infos kept as the bytes the store holds. *)
Definition codec : timer_tasks.TimerTaskCodec := {|
  timer_tasks.TimerTaskInfoJson := string;
  timer_tasks.BytesToTimerTaskInfo := fun bytes => Ok bytes
|}.

Definition timer_row (fireTime sequence : Z) : timer_rows.TimerTaskRow := {|
  timer_rows.ShardId := 0;
  timer_rows.FireTimeUnixSeconds := fireTime;
  timer_rows.TaskSequence := sequence;
  timer_rows.ProcessExecutionId := 1%N;
  timer_rows.StateId := "S1";
  timer_rows.StateIdSequence := 1;
  timer_rows.TaskType := 1;
  timer_rows.Info := "{}"
|}.

(** Three timers in the order of their fire times; the one that fires first
    was inserted last. *)
Definition due_timers : list timer_rows.TimerTaskRow :=
  [ timer_row 100 9; timer_row 105 4; timer_row 105 7 ].

Definition queue_config : immediate_task_processor.ImmediateTaskQueueConfig := {|
  immediate_task_processor.DefaultAsyncStateAPITimeout := 10 * immediate_task_processor.Second;
  immediate_task_processor.MaxAsyncStateAPITimeout := 60 * immediate_task_processor.Second;
  immediate_task_processor.MaxStateAPIFailureDetailSize := 1000
|}.

Definition state_config : xdbapi.AsyncStateConfig := {|
  xdbapi.SkipWaitUntil := Some true;
  xdbapi.WaitUntilApiTimeoutSeconds := None;
  xdbapi.ExecuteApiTimeoutSeconds := Some 30;
  xdbapi.WaitUntilApiRetryPolicy := Some examples.slow_policy;
  xdbapi.ExecuteApiRetryPolicy := None
|}.

(** The Execute task of (S1, 1) of process 1, not attempted yet, and the
    snapshot prepared for it. *)
Definition execute_task : persistence.ImmediateTask := {|
  persistence.ShardId := 0;
  persistence.TaskSequence := Some 12;
  persistence.TaskType := persistence.ImmediateTaskTypeExecute;
  persistence.ProcessExecutionId := 1%N;
  persistence.TaskStateExecutionId :=
    {| persistence.StateId := "S1"; persistence.StateIdSequence := 1 |};
  persistence.ImmediateTaskInfo :=
    {| persistence.WorkerTaskBackoffInfo := None;
       persistence.LocalQueueMessageInfo := None |}
|}.

Definition prepared_execute : persistence.PrepareStateExecutionResponse :=
  processor.with_StateConfig
    (examples.prepared 1 persistence.StateExecutionStatusSkipped
       persistence.StateExecutionStatusRunning)
    (Some state_config).

(** The worker's answer: go on to S2. *)
Definition go_to_S2 : immediate_task_processor.AsyncStateExecuteResponse := {|
  immediate_task_processor.StateDecision :=
    {| xdbapi.NextStates :=
         [ {| xdbapi.NextStateId := "S2";
              xdbapi.NextStateInput := None;
              xdbapi.NextStateConfig := None |} ];
       xdbapi.ThreadClose := None |};
  immediate_task_processor.PublishToLocalQueue := []
|}.

Definition status_ok : immediate_task_processor.HttpResponse := {|
  immediate_task_processor.StatusCode := 200;
  immediate_task_processor.Body := Some "{}"
|}.

(** The wait-until phase of (S2, 1), prepared at version 1, asks for a
    five-second timer. *)
Definition timer_request : sql.ProcessWaitUntilExecutionRequest := {|
  sql.WaitUntilProcessExecutionId := 1%N;
  sql.WaitUntilStateExecutionId :=
    {| persistence.StateId := "S2"; persistence.StateIdSequence := 1 |};
  sql.WaitUntilPrepare :=
    examples.prepared 1 persistence.StateExecutionStatusRunning
      persistence.StateExecutionStatusUndefined;
  sql.WaitUntilCommandRequest :=
    {| xdbapi.WaitingType := xdbapi.ANY_OF_COMPLETION;
       xdbapi.TimerCommands := [ {| xdbapi.DelayInSeconds := 5 |} ];
       xdbapi.LocalQueueCommands := [] |};
  sql.WaitUntilPublishToLocalQueue := [];
  sql.WaitUntilTaskShardId := 0
|}.

(** The execute phase of (S1, 1) goes on to S2 and publishes a message with
    a dedup id of its own. *)
Definition on_to_S2 : sql.CompleteExecuteExecutionRequest := {|
  sql.ExecuteProcessExecutionId := 1%N;
  sql.ExecuteStateExecutionId :=
    {| persistence.StateId := "S1"; persistence.StateIdSequence := 1 |};
  sql.ExecutePrepare := prepared_execute;
  sql.ExecuteStateDecision := immediate_task_processor.StateDecision go_to_S2;
  sql.ExecutePublishToLocalQueue :=
    [ {| xdbapi.QueueName := "q"; xdbapi.DedupId := Some 77%N; xdbapi.Payload := None |} ];
  sql.ExecuteTaskShardId := 3
|}.

End samples.

(** * Properties *)

(** ** Retry and backoff *)

(** [float64_trunc] is truncation towards zero of the value of the float. *)
Lemma float64_trunc_value (f : float) :
  float64_trunc f = Qtrunc <$> float64_value f.
Proof.
  unfold float64_trunc, float64_value.
  destruct (Prim2SF f) as [s|s| |s m e]; try reflexivity.
  cbn [fmap option_fmap option_map]. f_equal.
  destruct (Z.leb_spec 0 e) as [He|He].
  - rewrite Z.shiftl_mul_pow2 by exact He.
    assert (Hpos : 0 < Z.pos m * 2 ^ e)
      by (apply Z.mul_pos_pos; [lia | apply Z.pow_pos_nonneg; lia]).
    generalize dependent (Z.pos m * 2 ^ e). intros x Hx.
    destruct s; unfold Qtrunc.
    + change (- inject_Z x)%Q with (inject_Z (- x)).
      replace (Qle_bool 0 (inject_Z (- x))) with false.
      * rewrite Qceiling_Z. reflexivity.
      * symmetry. unfold Qle_bool. cbn. apply Z.leb_gt. lia.
    + replace (Qle_bool 0 (inject_Z x)) with true.
      * rewrite Qfloor_Z. reflexivity.
      * symmetry. unfold Qle_bool. cbn. apply Z.leb_le. lia.
  - rewrite Z.shiftr_div_pow2 by lia.
    assert (Hpow : 0 < 2 ^ (- e)) by (apply Z.pow_pos_nonneg; lia).
    destruct s; unfold Qtrunc.
    + replace (Qle_bool 0 (- (Z.pos m # Z.to_pos (2 ^ (- e))))) with false.
      * unfold Qceiling, Qfloor. cbn [Qopp Qnum Qden]. rewrite Z.opp_involutive.
        rewrite Z2Pos.id by exact Hpow. reflexivity.
      * symmetry. unfold Qle_bool. cbn. reflexivity.
    + replace (Qle_bool 0 (Z.pos m # Z.to_pos (2 ^ (- e)))) with true.
      * unfold Qfloor. rewrite Z2Pos.id by exact Hpow. reflexivity.
      * symmetry. unfold Qle_bool. cbn. reflexivity.
Qed.

(** *** binary64 arithmetic *)

Section float_facts.
Import binary64.

Lemma digits2_pos_bounds (p : positive) :
  2 ^ (Z.pos (digits2_pos p) - 1) <= Z.pos p < 2 ^ Z.pos (digits2_pos p).
Proof.
  induction p as [p IH|p IH|]; cbn [digits2_pos]; [| |cbn; lia].
  all: rewrite Pos2Z.inj_succ.
  all: replace (Z.succ (Z.pos (digits2_pos p)) - 1) with (Z.succ (Z.pos (digits2_pos p) - 1)) by lia.
  all: rewrite !Z.pow_succ_r by lia.
  all: lia.
Qed.

Lemma fexp_eq (e : Z) : fexp prec emax e = Z.max (e - 53) (-1074).
Proof. reflexivity. Qed.

Lemma pow2_pos (k : Z) : 0 <= k -> 0 < 2 ^ k.
Proof. intros. apply Z.pow_pos_nonneg; lia. Qed.

Lemma pow2_le (j k : Z) : 0 <= j <= k -> 2 ^ j <= 2 ^ k.
Proof. intros. apply Z.pow_le_mono_r; lia. Qed.

Lemma pow2_lt (j k : Z) : 0 <= j < k -> 2 ^ j < 2 ^ k.
Proof. intros. apply Z.pow_lt_mono_r; lia. Qed.

Lemma pow2_split (j k : Z) : 0 <= j -> 0 <= k -> 2 ^ (j + k) = 2 ^ j * 2 ^ k.
Proof. intros. apply Z.pow_add_r; lia. Qed.

(** A canonical mantissa has at most 53 bits, and exactly 53 above the
    smallest exponent. *)
Lemma valid_finite (s : bool) (m : positive) (e : Z) :
  valid_binary (S754_finite s m e) = true ->
  -1074 <= e <= 971
  /\ Z.pos m < 2 ^ 53
  /\ (e = -1074 \/ 2 ^ 52 <= Z.pos m)
  /\ fexp prec emax (Z.pos (digits2_pos m) + e) = e.
Proof.
  cbn [SpecFloat.valid_binary]. unfold bounded, canonical_mantissa.
  intros [Hc Hb]%andb_true_iff.
  apply Z.eqb_eq in Hc. apply Z.leb_le in Hb. change (emax - prec) with 971 in Hb.
  pose proof (digits2_pos_bounds m) as Hd.
  rewrite fexp_eq in Hc |- *.
  set (d := Z.pos (digits2_pos m)) in *.
  assert (0 < d) by (unfold d; lia).
  split; [lia|]. split; [|split; [|exact Hc]].
  - apply Z.lt_le_trans with (2 ^ d); [lia|]. apply pow2_le. lia.
  - destruct (decide (e = -1074)) as [|Hne]; [left; assumption|right].
    assert (d = 53) as Hd53 by lia. rewrite Hd53 in Hd. exact (proj1 Hd).
Qed.


(** *** Shifting a mantissa right *)

Lemma iter_pos_invariant {A : Type} (f : A -> A) (P : Z -> A -> Prop) :
  (forall k x, 0 <= k -> P k x -> P (k + 1) (f x)) ->
  forall (p : positive) (k : Z) (x : A), 0 <= k -> P k x -> P (k + Z.pos p) (SpecFloat.iter_pos f p x).
Proof.
  intros Hstep. induction p as [p IH|p IH|]; intros k x Hk Hx; cbn [SpecFloat.iter_pos].
  - replace (k + Z.pos p~1) with (k + 1 + Z.pos p + Z.pos p) by lia.
    apply IH; [lia|]. apply IH; [lia|]. apply Hstep; assumption.
  - replace (k + Z.pos p~0) with (k + Z.pos p + Z.pos p) by lia.
    apply IH; [lia|]. apply IH; assumption.
  - apply Hstep; assumption.
Qed.

Lemma shr_1_spec (m : Z) (r s : bool) :
  0 <= m ->
  shr_1 {| shr_m := m; shr_r := r; shr_s := s |}
  = {| shr_m := Z.div2 m; shr_r := Z.odd m; shr_s := r || s |}.
Proof. destruct m as [|[p|p|]|p]; intros Hm; try reflexivity; lia. Qed.

Lemma shifted_0 (M : Z) :
  0 <= M -> shifted M 0 {| shr_m := M; shr_r := false; shr_s := false |}.
Proof.
  intros HM. split; [exact HM|]. exists 0. cbn [shr_m shr_r shr_s].
  split; [cbn; lia|]. split; [lia|]. split; [right; auto|]. split; [discriminate|lia].
Qed.

Lemma shifted_step (M k : Z) (mrs : shr_record) :
  0 <= k -> shifted M k mrs -> shifted M (k + 1) (shr_1 mrs).
Proof.
  intros Hk [Hm (t & HM & Ht & Hlt & Hs)]. destruct mrs as [m r s].
  cbn [shr_m shr_r shr_s] in *. rewrite shr_1_spec by exact Hm.
  pose proof (Z.div2_odd m) as Hdiv. unfold Z.b2z in Hdiv.
  assert (Hpow : 2 ^ (k + 1) = 2 * 2 ^ k) by (rewrite Z.pow_add_r by lia; lia).
  assert (Hk' : 0 < 2 ^ k) by (apply pow2_pos; lia).
  unfold shifted. cbn [shr_m shr_r shr_s]. replace (k + 1 - 1) with k by lia.
  split; [destruct (Z.odd m); lia|].
  exists ((if r then 2 ^ (k - 1) else 0) + t).
  destruct Hlt as [Hlt|(-> & -> & ->)].
  - assert (0 < k) as Hkpos.
    { destruct (decide (k = 0)) as [-> |]; [|lia]. cbn in Hlt. lia. }
    assert (Hhalf : 2 ^ k = 2 * 2 ^ (k - 1)).
    { replace k with (k - 1 + 1) at 1 by lia. rewrite Z.pow_add_r by lia. lia. }
    assert (0 < 2 ^ (k - 1)) by (apply pow2_pos; lia).
    split; [destruct (Z.odd m), r; nia|].
    split; [destruct r; lia|].
    split; [left; destruct r; lia|].
    destruct r, s; cbn [orb]; split; intros; try lia; try reflexivity;
      try (exfalso; destruct Hs as [Hs1 Hs2]; first [ lia | discriminate (Hs2 ltac:(lia)) ]).
  - cbn [orb]. cbn in HM |- *.
    split; [destruct (Z.odd m); lia|]. split; [lia|]. split; [left; lia|].
    rewrite Hs. lia.
Qed.

Lemma shr_shifted (M : Z) (p : positive) :
  0 <= M ->
  shifted M (Z.pos p) (SpecFloat.iter_pos shr_1 p {| shr_m := M; shr_r := false; shr_s := false |}).
Proof.
  intros HM. change (Z.pos p) with (0 + Z.pos p).
  apply (iter_pos_invariant shr_1 (shifted M)); [|lia|apply shifted_0; exact HM].
  intros k x Hk Hx. apply shifted_step; assumption.
Qed.

Lemma round_shifted (M n : Z) (mrs : shr_record) :
  0 <= n -> shifted M n mrs ->
  nearest_even M n (round_nearest_even (shr_m mrs) (loc_of_shr_record mrs)).
Proof.
  intros Hn [Hm (t & HM & Ht & Hlt & Hs)]. destruct mrs as [m r s].
  cbn [shr_m shr_r shr_s] in *.
  exists m, ((if r then 2 ^ (n - 1) else 0) + t).
  destruct Hlt as [Hlt|(-> & -> & ->)].
  - assert (0 < n) as Hnpos.
    { destruct (decide (n = 0)) as [-> |]; [|lia]. cbn in Hlt. lia. }
    assert (Hhalf : 2 ^ n = 2 * 2 ^ (n - 1)).
    { replace n with (n - 1 + 1) at 1 by lia. rewrite Z.pow_add_r by lia. lia. }
    assert (0 < 2 ^ (n - 1)) by (apply pow2_pos; lia).
    split; [lia|]. split; [destruct r; lia|]. split; [exact Hm|].
    destruct r, s; cbn [loc_of_shr_record round_nearest_even].
    + right. left. destruct Hs as [Hs _]. specialize (Hs eq_refl). lia.
    + right. right. assert (t = 0) as ->.
      { destruct (decide (0 < t)) as [Hpos|]; [|lia]. destruct Hs as [_ Hs].
        discriminate (Hs Hpos). }
      split; [lia|]. reflexivity.
    + left. lia.
    + left. lia.
  - assert (s = false) as ->.
    { destruct s; [|reflexivity]. destruct Hs as [Hs _]. specialize (Hs eq_refl). lia. }
    cbn. split; [lia|]. split; [lia|]. split; [exact Hm|]. left. lia.
Qed.

(** *** Rounding to nearest, ties to even *)

Lemma nearest_even_mono (M1 M2 n o1 o2 : Z) :
  0 <= n -> nearest_even M1 n o1 -> nearest_even M2 n o2 -> M1 <= M2 -> o1 <= o2.
Proof.
  intros Hn (q1 & r1 & HM1 & Hr1 & Hq1 & Ho1) (q2 & r2 & HM2 & Hr2 & Hq2 & Ho2) Hle.
  assert (0 < 2 ^ n) as HP by (apply pow2_pos; exact Hn).
  generalize dependent (2 ^ n). intros P HM1 Hr1 Ho1 HM2 Hr2 Ho2 HP.
  assert (q1 < q2 \/ q1 = q2) as [Hlt| ->] by nia.
  - assert (o1 <= q1 + 1)
      by (destruct Ho1 as [?|[?|[? Ho1]]]; [lia|lia|destruct (Z.even q1); lia]).
    assert (q2 <= o2)
      by (destruct Ho2 as [?|[?|[? Ho2]]]; [lia|lia|destruct (Z.even q2); lia]).
    lia.
  - assert (r1 <= r2) by lia.
    destruct Ho1 as [?|[?|[? Ho1]]], Ho2 as [?|[?|[? Ho2]]]; try lia;
      destruct (Z.even q2); lia.
Qed.

Lemma nearest_even_exact (K n : Z) : 0 <= n -> 0 <= K -> nearest_even (K * 2 ^ n) n K.
Proof.
  intros Hn HK. exists K, 0. pose proof (pow2_pos n Hn).
  split; [lia|]. split; [lia|]. split; [exact HK|]. left. lia.
Qed.

Lemma nearest_even_scale (M n k o : Z) :
  0 <= n -> 0 <= k -> nearest_even M n o -> nearest_even (M * 2 ^ k) (n + k) o.
Proof.
  intros Hn Hk (q & r & HM & Hr & Hq & Ho).
  exists q, (r * 2 ^ k). rewrite Z.pow_add_r by lia.
  pose proof (pow2_pos n Hn). pose proof (pow2_pos k Hk).
  generalize dependent (2 ^ n). generalize dependent (2 ^ k). intros Q HQ P HM Hr Ho HP.
  split; [nia|]. split; [nia|]. split; [exact Hq|].
  destruct Ho as [[? Ho]|[[? Ho]|[? Ho]]]; [left|right; left|right; right];
    (split; [nia|exact Ho]).
Qed.


Lemma nearest_even_nonneg (M n o : Z) : nearest_even M n o -> 0 <= o.
Proof.
  intros (q & r & _ & _ & Hq & [[_ Ho]|[[_ Ho]|[_ Ho]]]); [lia|lia|].
  destruct (Z.even q); lia.
Qed.

Lemma nearest_even_lower (M n K o : Z) :
  0 <= n -> 0 <= K -> K * 2 ^ n <= M -> nearest_even M n o -> K <= o.
Proof.
  intros Hn HK Hle Ho.
  exact (nearest_even_mono _ _ n _ _ Hn (nearest_even_exact K n Hn HK) Ho Hle).
Qed.

Lemma nearest_even_upper (M n K o : Z) :
  0 <= n -> 0 <= K -> M <= K * 2 ^ n -> nearest_even M n o -> o <= K.
Proof.
  intros Hn HK Hle Ho.
  exact (nearest_even_mono _ _ n _ _ Hn Ho (nearest_even_exact K n Hn HK) Hle).
Qed.

Lemma digits2_pos_le (p : positive) (k : Z) :
  0 <= k -> Z.pos p < 2 ^ k -> Z.pos (digits2_pos p) <= k.
Proof.
  intros Hk Hlt. pose proof (digits2_pos_bounds p) as [Hlo _].
  assert (2 ^ (Z.pos (digits2_pos p) - 1) < 2 ^ k) as Hpow by lia.
  apply Z.pow_lt_mono_r_iff in Hpow; lia.
Qed.

Lemma digits2_pos_ge (p : positive) (k : Z) :
  0 <= k -> 2 ^ k <= Z.pos p -> k + 1 <= Z.pos (digits2_pos p).
Proof.
  intros Hk Hle. pose proof (digits2_pos_bounds p) as [_ Hhi].
  assert (2 ^ k < 2 ^ Z.pos (digits2_pos p)) as Hpow by lia.
  apply Z.pow_lt_mono_r_iff in Hpow; lia.
Qed.

Lemma below_overflow (o k : Z) : 0 <= o < 2 ^ 53 -> 0 <= k <= 2045 -> o * 2 ^ k < 2 ^ 2098.
Proof.
  intros Ho Hk. change 2098 with (53 + 2045). rewrite pow2_split by lia.
  pose proof (pow2_le k 2045 ltac:(lia)). pose proof (pow2_pos k ltac:(lia)).
  generalize dependent (2 ^ k). generalize dependent (2 ^ 2045). generalize dependent (2 ^ 53).
  intros. nia.
Qed.

Lemma above_overflow (o k : Z) : 2 ^ 52 <= o -> 2046 <= k -> 2 ^ 2098 <= o * 2 ^ k.
Proof.
  intros Ho Hk. change 2098 with (52 + 2046). rewrite pow2_split by lia.
  pose proof (pow2_le 2046 k ltac:(lia)). pose proof (pow2_pos 2046 ltac:(lia)).
  pose proof (pow2_pos 52 ltac:(lia)).
  generalize dependent (2 ^ k). generalize dependent (2 ^ 2046). generalize dependent (2 ^ 52).
  intros. nia.
Qed.

(** *** The last steps of [binary_round_aux] *)

(** The result for a rounded mantissa [o] at exponent [T]. *)
Lemma round_finish (s : bool) (o T : Z) :
  0 <= o <= 2 ^ 53 -> -1074 <= T -> (T = -1074 \/ 2 ^ 52 <= o) ->
  let out :=
    let '(mrs, e) := shr_fexp prec emax o T loc_Exact in
    match shr_m mrs with
    | Z0 => S754_zero s
    | Zpos m => if e <=? emax - prec then S754_finite s m e else S754_infinity s
    | Zneg _ => S754_nan
    end in
  is_nan out = false /\ valid_binary out = true
  /\ units out = cond_Zopp s (Z.min (o * 2 ^ (T + 1074)) (2 ^ 2098)).
Proof.
  intros Ho HT Hnormal. unfold shr_fexp. rewrite fexp_eq.
  change (emax - prec) with 971. cbn [shr_record_of_loc].
  assert (0 < 2 ^ 2098) as Hbig by (apply pow2_pos; lia).
  destruct (decide (o = 2 ^ 53)) as [->|Hne].
  - change (Zdigits2 (2 ^ 53)) with 54.
    replace (Z.max (54 + T - 53) (-1074) - T) with 1 by lia.
    cbn [shr SpecFloat.iter_pos]. change (shr_m (shr_1 _)) with (Z.pos 4503599627370496).
    cbv iota beta.
    assert (2 ^ 53 * 2 ^ (T + 1074) = 2 ^ 52 * 2 ^ (T + 1 + 1074)) as Heq.
    { replace (T + 1 + 1074) with (1 + (T + 1074)) by lia.
      rewrite (pow2_split 1 (T + 1074)) by lia.
      change (2 ^ 53) with (2 ^ 52 * 2 ^ 1). ring. }
    destruct (Z.leb_spec (T + 1) 971) as [Hfin|Hinf].
    + split; [reflexivity|]. split.
      * cbn [SpecFloat.valid_binary]. unfold bounded, canonical_mantissa.
        change (Z.pos (digits2_pos 4503599627370496)) with 53. rewrite fexp_eq.
        apply andb_true_iff. split; [apply Z.eqb_eq|apply Z.leb_le; change (emax - prec) with 971]; lia.
      * cbn [units]. change (Z.pos 4503599627370496) with (2 ^ 52). rewrite Heq.
        pose proof (below_overflow (2 ^ 52) (T + 1 + 1074)
                      ltac:(split; [apply Z.lt_le_incl, pow2_pos; lia|apply pow2_lt; lia])
                      ltac:(lia)).
        f_equal. lia.
    + split; [reflexivity|]. split; [reflexivity|]. cbn [units]. rewrite Heq.
      pose proof (above_overflow (2 ^ 52) (T + 1 + 1074) ltac:(lia) ltac:(lia)).
      f_equal. lia.
  - assert (o < 2 ^ 53) as Hlt by lia.
    destruct o as [|po|po]; [| |lia].
    + cbn [Zdigits2]. replace (Z.max (0 + T - 53) (-1074) - T) with (- 0) by lia.
      cbn [shr Z.opp shr_m]. split; [reflexivity|]. split; [reflexivity|].
      cbn [units]. rewrite Z.mul_0_l. rewrite Z.min_l by lia. destruct s; reflexivity.
    + cbn [Zdigits2].
      pose proof (digits2_pos_le po 53 ltac:(lia) Hlt) as Hd.
      assert (Z.max (Z.pos (digits2_pos po) + T - 53) (-1074) - T <= 0) as Hshift by lia.
      assert (Hcanon : Z.max (Z.pos (digits2_pos po) + T - 53) (-1074) = T).
      { destruct Hnormal as [->|Hn]; [lia|].
        pose proof (digits2_pos_ge po 52 ltac:(lia) Hn). lia. }
      destruct (Z.max (Z.pos (digits2_pos po) + T - 53) (-1074) - T) as [|?|?] eqn:Hsh; [| lia |].
      all: cbn [shr shr_m].
      all: destruct (Z.leb_spec T 971) as [Hfin|Hinf].
      all: (split; [reflexivity|]); split.
      all: try reflexivity.
      all: try (cbn [SpecFloat.valid_binary]; unfold bounded, canonical_mantissa;
                rewrite fexp_eq, Hcanon; apply andb_true_iff;
                split; [apply Z.eqb_eq; reflexivity|apply Z.leb_le; change (emax - prec) with 971; lia]).
      all: cbn [units]; f_equal.
      all: try (pose proof (below_overflow (Z.pos po) (T + 1074) ltac:(lia) ltac:(lia)); lia).
      all: destruct Hnormal as [->|Hn]; [lia|];
        pose proof (above_overflow (Z.pos po) (T + 1074) Hn ltac:(lia)); lia.
Qed.


(** [binary_round_aux] on a mantissa whose exponent is not above the one of
    its binade: the result is the mantissa rounded to nearest-even at that
    exponent, an infinity from [2^1024] on. *)
Lemma binary_round_aux_spec (s : bool) (m : positive) (E : Z) :
  let T := fexp prec emax (Z.pos (digits2_pos m) + E) in
  E <= T ->
  exists o : Z,
    nearest_even (Z.pos m) (T - E) o
    /\ is_nan (binary_round_aux prec emax s (Z.pos m) E loc_Exact) = false
    /\ valid_binary (binary_round_aux prec emax s (Z.pos m) E loc_Exact) = true
    /\ units (binary_round_aux prec emax s (Z.pos m) E loc_Exact)
       = cond_Zopp s (Z.min (o * 2 ^ (T + 1074)) (2 ^ 2098)).
Proof.
  intros T HT.
  assert (exists mrs, shr_fexp prec emax (Z.pos m) E loc_Exact = (mrs, T)
                      /\ shifted (Z.pos m) (T - E) mrs) as (mrs & Hshr & Hmrs).
  { unfold shr_fexp. cbn [Zdigits2 shr_record_of_loc]. fold T.
    destruct (T - E) as [|p|p] eqn:Hn; [| |lia]; cbn [shr].
    - eexists. split; [f_equal; lia|]. apply shifted_0. lia.
    - eexists. split; [f_equal; lia|]. apply shr_shifted. lia. }
  pose proof (round_shifted (Z.pos m) (T - E) mrs ltac:(lia) Hmrs) as Ho.
  set (o := round_nearest_even (shr_m mrs) (loc_of_shr_record mrs)) in *.
  pose proof (digits2_pos_bounds m) as [Hlo Hhi].
  assert (HTeq : T = Z.max (Z.pos (digits2_pos m) + E - 53) (-1074)) by apply fexp_eq.
  set (d := Z.pos (digits2_pos m)) in *.
  assert (0 < d) by (unfold d; lia).
  assert (o <= 2 ^ 53) as Hup.
  { apply (nearest_even_upper (Z.pos m) (T - E)); [lia|lia| |exact Ho].
    rewrite <- pow2_split by lia. apply Z.lt_le_incl, Z.lt_le_trans with (2 ^ d); [exact Hhi|].
    apply pow2_le. lia. }
  assert (T = -1074 \/ 2 ^ 52 <= o) as Hnormal.
  { destruct (decide (T = -1074)) as [|Hne]; [left; assumption|right].
    apply (nearest_even_lower (Z.pos m) (T - E)); [lia|lia| |exact Ho].
    rewrite <- pow2_split by lia. replace (52 + (T - E)) with (d - 1) by lia. exact Hlo. }
  exists o. split; [exact Ho|].
  unfold binary_round_aux. rewrite Hshr. fold o.
  apply round_finish; [|lia|exact Hnormal].
  split; [|exact Hup]. exact (nearest_even_nonneg _ _ _ Ho).
Qed.


(** *** Rounding keeps the order *)

Lemma rounded_units_mono (m1 m2 : positive) (E1 E2 o1 o2 : Z) :
  let T1 := fexp prec emax (Z.pos (digits2_pos m1) + E1) in
  let T2 := fexp prec emax (Z.pos (digits2_pos m2) + E2) in
  E1 <= T1 -> E2 <= T2 -> -2148 <= E1 -> -2148 <= E2 ->
  nearest_even (Z.pos m1) (T1 - E1) o1 ->
  nearest_even (Z.pos m2) (T2 - E2) o2 ->
  Z.pos m1 * 2 ^ (E1 + 2148) <= Z.pos m2 * 2 ^ (E2 + 2148) ->
  o1 * 2 ^ (T1 + 1074) <= o2 * 2 ^ (T2 + 1074).
Proof.
  intros T1 T2 HT1 HT2 HE1 HE2 Ho1 Ho2 Hle.
  pose proof (digits2_pos_bounds m1) as [Hlo1 Hhi1].
  pose proof (digits2_pos_bounds m2) as [Hlo2 Hhi2].
  assert (HT1eq : T1 = Z.max (Z.pos (digits2_pos m1) + E1 - 53) (-1074)) by apply fexp_eq.
  assert (HT2eq : T2 = Z.max (Z.pos (digits2_pos m2) + E2 - 53) (-1074)) by apply fexp_eq.
  set (d1 := Z.pos (digits2_pos m1)) in *. set (d2 := Z.pos (digits2_pos m2)) in *.
  assert (0 < d1) by (unfold d1; lia). assert (0 < d2) by (unfold d2; lia).
  clearbody T1 T2 d1 d2.
  assert (Hmag : d1 + E1 <= d2 + E2).
  { destruct (Z.le_gt_cases (d1 + E1) (d2 + E2)) as [|Hgt]; [assumption|exfalso].
    assert (2 ^ (d2 + (E2 + 2148)) <= 2 ^ ((d1 - 1) + (E1 + 2148))) as Hpow
      by (apply pow2_le; lia).
    rewrite (pow2_split d2 (E2 + 2148)), (pow2_split (d1 - 1) (E1 + 2148)) in Hpow by lia.
    pose proof (pow2_pos (E1 + 2148) ltac:(lia)). pose proof (pow2_pos (E2 + 2148) ltac:(lia)).
    generalize dependent (2 ^ (E1 + 2148)). generalize dependent (2 ^ (E2 + 2148)).
    generalize dependent (2 ^ (d1 - 1)). generalize dependent (2 ^ d2).
    intros. nia. }
  pose proof (nearest_even_nonneg _ _ _ Ho1) as Hpos1.
  pose proof (nearest_even_nonneg _ _ _ Ho2) as Hpos2.
  destruct (decide (T1 = T2)) as [Heq|Hne].
  - rewrite <- Heq. apply Z.mul_le_mono_nonneg_r; [apply Z.lt_le_incl, pow2_pos; lia|].
    set (N := Z.max (T1 - E1) (T2 - E2)).
    apply (nearest_even_mono (Z.pos m1 * 2 ^ (N - (T1 - E1))) (Z.pos m2 * 2 ^ (N - (T2 - E2))) N);
      [lia| | |].
    + replace N with ((T1 - E1) + (N - (T1 - E1))) at 2 by lia.
      apply nearest_even_scale; [lia|lia|exact Ho1].
    + replace N with ((T2 - E2) + (N - (T2 - E2))) at 2 by lia.
      apply nearest_even_scale; [lia|lia|exact Ho2].
    + replace (E1 + 2148) with ((N - (T1 - E1)) + (T1 - N + 2148)) in Hle by lia.
      replace (E2 + 2148) with ((N - (T2 - E2)) + (T1 - N + 2148)) in Hle by lia.
      rewrite (pow2_split (N - (T1 - E1)) (T1 - N + 2148)),
        (pow2_split (N - (T2 - E2)) (T1 - N + 2148)) in Hle by lia.
      pose proof (pow2_pos (T1 - N + 2148) ltac:(lia)).
      generalize dependent (2 ^ (T1 - N + 2148)). intros. nia.
  - assert (T1 < T2) as Hlt by lia.
    set (k1 := Z.max (d1 + E1 - T1) 0).
    assert (o1 <= 2 ^ k1) as Hup.
    { apply (nearest_even_upper (Z.pos m1) (T1 - E1));
        [lia|apply Z.lt_le_incl, pow2_pos; lia| |exact Ho1].
      rewrite <- (pow2_split k1 (T1 - E1)) by lia.
      apply Z.lt_le_incl, Z.lt_le_trans with (2 ^ d1); [exact Hhi1|].
      apply pow2_le. lia. }
    assert (2 ^ 52 <= o2) as Hdown.
    { apply (nearest_even_lower (Z.pos m2) (T2 - E2)); [lia|lia| |exact Ho2].
      rewrite <- (pow2_split 52 (T2 - E2)) by lia.
      replace (52 + (T2 - E2)) with (d2 - 1) by lia. exact Hlo2. }
    apply Z.le_trans with (2 ^ k1 * 2 ^ (T1 + 1074)).
    { apply Z.mul_le_mono_nonneg_r; [apply Z.lt_le_incl, pow2_pos; lia|exact Hup]. }
    apply Z.le_trans with (2 ^ 52 * 2 ^ (T2 + 1074)).
    { rewrite <- (pow2_split k1 (T1 + 1074)), <- (pow2_split 52 (T2 + 1074)) by lia.
      apply pow2_le. lia. }
    apply Z.mul_le_mono_nonneg_r; [apply Z.lt_le_incl, pow2_pos; lia|exact Hdown].
Qed.


(** *** The order of binary64 values *)

Lemma finite_units (s : bool) (m : positive) (e : Z) :
  valid_binary (S754_finite s m e) = true ->
  0 < Z.pos m * 2 ^ (e + 1074) < 2 ^ 2098.
Proof.
  intros (He & Hm & _ & _)%valid_finite. split.
  - apply Z.mul_pos_pos; [lia|apply pow2_pos; lia].
  - apply below_overflow; lia.
Qed.

Lemma canonical_lt (s1 s2 : bool) (m1 m2 : positive) (e1 e2 : Z) :
  valid_binary (S754_finite s1 m1 e1) = true ->
  valid_binary (S754_finite s2 m2 e2) = true ->
  e1 < e2 ->
  Z.pos m1 * 2 ^ (e1 + 1074) < Z.pos m2 * 2 ^ (e2 + 1074).
Proof.
  intros (He1 & Hm1 & _ & _)%valid_finite (He2 & _ & Hm2 & _)%valid_finite Hlt.
  destruct Hm2 as [->|Hm2]; [lia|].
  apply Z.lt_le_trans with (2 ^ 53 * 2 ^ (e1 + 1074)).
  { apply Z.mul_lt_mono_pos_r; [apply pow2_pos; lia|exact Hm1]. }
  apply Z.le_trans with (2 ^ 52 * 2 ^ (e2 + 1074)).
  { rewrite <- (pow2_split 53 (e1 + 1074)), <- (pow2_split 52 (e2 + 1074)) by lia.
    apply pow2_le. lia. }
  apply Z.mul_le_mono_nonneg_r; [apply Z.lt_le_incl, pow2_pos; lia|exact Hm2].
Qed.

Lemma SFcompare_units (x y : spec_float) :
  valid_binary x = true -> valid_binary y = true ->
  is_nan x = false -> is_nan y = false ->
  SFcompare x y = Some (units x ?= units y).
Proof.
  intros Hx Hy Hnx Hny.
  assert (0 < 2 ^ 2098) as Hbig by (apply pow2_pos; lia).
  destruct x as [sx|sx| |sx mx ex], y as [sy|sy| |sy my ey]; try discriminate;
    cbn [SFcompare units]; f_equal; symmetry.
  all: try pose proof (finite_units _ _ _ Hx); try pose proof (finite_units _ _ _ Hy).
  all: repeat match goal with s : bool |- _ => destruct s end; cbn [cond_Zopp].
  all: try solve [ reflexivity | apply Z.compare_eq_iff; lia
                 | apply Z.compare_lt_iff; lia | apply Z.compare_gt_iff; lia ].
  all: assert (ex = ey -> (Z.pos mx * 2 ^ (ex + 1074) ?= Z.pos my * 2 ^ (ey + 1074))
                          = (mx ?= my)%positive) as Hsame
    by (intros ->; apply valid_finite in Hy;
        pose proof (pow2_pos (ey + 1074) ltac:(lia)); generalize dependent (2 ^ (ey + 1074));
        intros; destruct (Pos.compare_spec mx my);
        [apply Z.compare_eq_iff; subst; reflexivity
        |apply Z.compare_lt_iff; nia|apply Z.compare_gt_iff; nia]).
  - rewrite Z.compare_opp.
    destruct (Z.compare_spec ex ey) as [Heq|Hlt|Hgt].
    + rewrite Z.compare_antisym, (Hsame Heq). reflexivity.
    + apply Z.compare_gt_iff. exact (canonical_lt _ _ _ _ _ _ Hx Hy Hlt).
    + apply Z.compare_lt_iff. exact (canonical_lt _ _ _ _ _ _ Hy Hx Hgt).
  - destruct (Z.compare_spec ex ey) as [Heq|Hlt|Hgt].
    + exact (Hsame Heq).
    + apply Z.compare_lt_iff. exact (canonical_lt _ _ _ _ _ _ Hx Hy Hlt).
    + apply Z.compare_gt_iff. exact (canonical_lt _ _ _ _ _ _ Hy Hx Hgt).
Qed.

Lemma SFleb_units (x y : spec_float) :
  valid_binary x = true -> valid_binary y = true ->
  SFleb x y = true <-> is_nan x = false /\ is_nan y = false /\ units x <= units y.
Proof.
  intros Hx Hy. split.
  - intros Hle.
    assert (is_nan x = false /\ is_nan y = false) as [Hnx Hny].
    { destruct x, y; try discriminate; split; reflexivity. }
    split; [exact Hnx|]. split; [exact Hny|].
    unfold SFleb in Hle. rewrite (SFcompare_units x y Hx Hy Hnx Hny) in Hle.
    destruct (Z.compare_spec (units x) (units y)); [lia|lia|discriminate].
  - intros (Hnx & Hny & Hle). unfold SFleb. rewrite (SFcompare_units x y Hx Hy Hnx Hny).
    destruct (Z.compare_spec (units x) (units y)); [reflexivity|reflexivity|lia].
Qed.

Lemma leb_units (x y : float) :
  (x <=? y)%float = true
  <-> is_nan (Prim2SF x) = false /\ is_nan (Prim2SF y) = false
      /\ units (Prim2SF x) <= units (Prim2SF y).
Proof. rewrite FloatAxioms.leb_spec. apply SFleb_units; apply Prim2SF_valid. Qed.

Lemma eqb_units (x y : float) :
  is_nan (Prim2SF x) = false -> is_nan (Prim2SF y) = false ->
  (x =? y)%float = bool_decide (units (Prim2SF x) = units (Prim2SF y)).
Proof.
  intros Hx Hy. rewrite FloatAxioms.eqb_spec. unfold SFeqb.
  rewrite (SFcompare_units _ _ (Prim2SF_valid x) (Prim2SF_valid y) Hx Hy).
  destruct (Z.compare_spec (units (Prim2SF x)) (units (Prim2SF y)));
    [rewrite bool_decide_eq_true_2 by assumption|rewrite bool_decide_eq_false_2 by lia
     |rewrite bool_decide_eq_false_2 by lia]; reflexivity.
Qed.

Lemma units_range (x : spec_float) :
  valid_binary x = true -> - 2 ^ 2098 <= units x <= 2 ^ 2098.
Proof.
  intros Hx. assert (0 < 2 ^ 2098) as Hbig by (apply pow2_pos; lia).
  destruct x as [s|s| |s m e]; cbn [units]; try lia.
  - destruct s; cbn [cond_Zopp]; lia.
  - pose proof (finite_units _ _ _ Hx). destruct s; cbn [cond_Zopp]; lia.
Qed.


(** *** Multiplication *)

Lemma product_exponent (sx sy : bool) (mx my : positive) (ex ey : Z) :
  valid_binary (S754_finite sx mx ex) = true ->
  valid_binary (S754_finite sy my ey) = true ->
  ex + ey <= fexp prec emax (Z.pos (digits2_pos (mx * my)) + (ex + ey))
  /\ -2148 <= ex + ey.
Proof.
  intros (Hex & _ & _ & Hcx)%valid_finite (Hey & _ & _ & Hcy)%valid_finite.
  rewrite fexp_eq in *.
  pose proof (digits2_pos_bounds mx) as [Hlox _].
  pose proof (digits2_pos_bounds my) as [Hloy _].
  assert (0 < Z.pos (digits2_pos mx)) by lia. assert (0 < Z.pos (digits2_pos my)) by lia.
  assert (Z.pos (digits2_pos mx) + Z.pos (digits2_pos my) - 2 + 1
          <= Z.pos (digits2_pos (mx * my))) as Hd.
  { apply digits2_pos_ge; [lia|]. rewrite Pos2Z.inj_mul.
    replace (Z.pos (digits2_pos mx) + Z.pos (digits2_pos my) - 2)
      with ((Z.pos (digits2_pos mx) - 1) + (Z.pos (digits2_pos my) - 1)) by lia.
    rewrite pow2_split by lia. apply Z.mul_le_mono_nonneg; try assumption.
    all: apply Z.lt_le_incl, pow2_pos; lia. }
  lia.
Qed.

Lemma abs_cond_Zopp (s : bool) (g : Z) : 0 <= g -> Z.abs (cond_Zopp s g) = g.
Proof. destruct s; cbn [cond_Zopp]; lia. Qed.

Lemma units_split (mx my : positive) (ex ey : Z) :
  -1074 <= ex -> -1074 <= ey ->
  Z.pos (mx * my) * 2 ^ (ex + ey + 2148)
  = (Z.pos mx * 2 ^ (ex + 1074)) * (Z.pos my * 2 ^ (ey + 1074)).
Proof.
  intros Hex Hey. replace (ex + ey + 2148) with ((ex + 1074) + (ey + 1074)) by lia.
  rewrite pow2_split by lia. rewrite Pos2Z.inj_mul. ring.
Qed.

(** The product of two finite numbers is no NaN and has the sign of the
    factors' signs. *)
Lemma SFmul_finite_sign (sx sy : bool) (mx my : positive) (ex ey : Z) :
  let product := SFmul prec emax (S754_finite sx mx ex) (S754_finite sy my ey) in
  valid_binary (S754_finite sx mx ex) = true ->
  valid_binary (S754_finite sy my ey) = true ->
  is_nan product = false
  /\ units product = cond_Zopp (xorb sx sy) (Z.abs (units product))
  /\ Z.abs (units product) <= 2 ^ 2098.
Proof.
  intros product Hx Hy. destruct (product_exponent _ _ _ _ _ _ Hx Hy) as [HT _].
  destruct (binary_round_aux_spec (xorb sx sy) (mx * my) (ex + ey) HT)
    as (o & Ho & Hnan & _ & Hunits).
  fold (SFmul prec emax (S754_finite sx mx ex) (S754_finite sy my ey)) in Hnan, Hunits.
  fold product in Hnan, Hunits. split; [exact Hnan|].
  pose proof (nearest_even_nonneg _ _ _ Ho).
  assert (0 <= Z.min (o * 2 ^ (fexp prec emax (Z.pos (digits2_pos (mx * my)) + (ex + ey)) + 1074))
                     (2 ^ 2098)) as Hpos.
  { apply Z.min_glb; [|apply Z.lt_le_incl, pow2_pos; lia].
    apply Z.mul_nonneg_nonneg; [assumption|]. apply Z.pow_nonneg. lia. }
  rewrite Hunits at 2 3. rewrite abs_cond_Zopp by exact Hpos.
  split; [exact Hunits|]. apply Z.le_min_r.
Qed.

(** The magnitude of a product grows with the magnitude of a factor. *)
Lemma SFmul_finite_mono (sx s1 s2 : bool) (mx m1 m2 : positive) (ex e1 e2 : Z) :
  valid_binary (S754_finite sx mx ex) = true ->
  valid_binary (S754_finite s1 m1 e1) = true ->
  valid_binary (S754_finite s2 m2 e2) = true ->
  Z.pos m1 * 2 ^ (e1 + 1074) <= Z.pos m2 * 2 ^ (e2 + 1074) ->
  Z.abs (units (SFmul prec emax (S754_finite sx mx ex) (S754_finite s1 m1 e1)))
  <= Z.abs (units (SFmul prec emax (S754_finite sx mx ex) (S754_finite s2 m2 e2))).
Proof.
  intros Hx H1 H2 Hle.
  destruct (product_exponent _ _ _ _ _ _ Hx H1) as [HT1 HE1].
  destruct (product_exponent _ _ _ _ _ _ Hx H2) as [HT2 HE2].
  destruct (binary_round_aux_spec (xorb sx s1) (mx * m1) (ex + e1) HT1)
    as (o1 & Ho1 & _ & _ & Hu1).
  destruct (binary_round_aux_spec (xorb sx s2) (mx * m2) (ex + e2) HT2)
    as (o2 & Ho2 & _ & _ & Hu2).
  cbn [SFmul]. rewrite Hu1, Hu2.
  pose proof (nearest_even_nonneg _ _ _ Ho1). pose proof (nearest_even_nonneg _ _ _ Ho2).
  assert (0 < 2 ^ 2098) by (apply pow2_pos; lia).
  pose proof (rounded_units_mono (mx * m1) (mx * m2) (ex + e1) (ex + e2) o1 o2
                HT1 HT2 HE1 HE2 Ho1 Ho2) as Hmono.
  pose proof (valid_finite _ _ _ Hx) as (Hex & _). pose proof (valid_finite _ _ _ H1) as (He1 & _).
  pose proof (valid_finite _ _ _ H2) as (He2 & _).
  rewrite (units_split mx m1 ex e1), (units_split mx m2 ex e2) in Hmono by lia.
  pose proof (finite_units _ _ _ Hx) as [Hxpos _].
  specialize (Hmono ltac:(apply Z.mul_le_mono_nonneg_l; lia)).
  assert (0 <= o1 * 2 ^ (fexp prec emax (Z.pos (digits2_pos (mx * m1)) + (ex + e1)) + 1074))
    by (apply Z.mul_nonneg_nonneg; [assumption|apply Z.pow_nonneg; lia]).
  rewrite !abs_cond_Zopp by lia. lia.
Qed.

(** A factor of at least one does not make the product smaller. *)
Lemma SFmul_finite_ge (sx sy : bool) (mx my : positive) (ex ey : Z) :
  valid_binary (S754_finite sx mx ex) = true ->
  valid_binary (S754_finite sy my ey) = true ->
  2 ^ 1074 <= Z.pos mx * 2 ^ (ex + 1074) ->
  Z.pos my * 2 ^ (ey + 1074)
  <= Z.abs (units (SFmul prec emax (S754_finite sx mx ex) (S754_finite sy my ey)))
  /\ Z.pos my * 2 ^ (ey + 1074)
     <= Z.abs (units (SFmul prec emax (S754_finite sy my ey) (S754_finite sx mx ex))).
Proof.
  intros Hx Hy Hone.
  pose proof (valid_finite _ _ _ Hx) as (Hex & _).
  pose proof (valid_finite _ _ _ Hy) as (Hey & _ & _ & Hcy).
  pose proof (finite_units _ _ _ Hy) as [Hypos Hylt].
  assert (0 < 2 ^ 2098) by (apply pow2_pos; lia).
  assert (Hself : nearest_even (Z.pos my)
                    (fexp prec emax (Z.pos (digits2_pos my) + ey) - ey) (Z.pos my)).
  { rewrite Hcy, Z.sub_diag. replace (Z.pos my) with (Z.pos my * 2 ^ 0) at 1 by (cbn; lia).
    apply nearest_even_exact; lia. }
  assert (Hscale : Z.pos my * 2 ^ (ey + 2148)
                   <= (Z.pos mx * 2 ^ (ex + 1074)) * (Z.pos my * 2 ^ (ey + 1074))).
  { replace (ey + 2148) with (1074 + (ey + 1074)) by lia.
    rewrite (pow2_split 1074 (ey + 1074)) by lia.
    pose proof (pow2_pos (ey + 1074) ltac:(lia)).
    generalize dependent (2 ^ (ey + 1074)). generalize dependent (2 ^ (ex + 1074)).
    generalize dependent (2 ^ 1074). intros. nia. }
  split.
  - destruct (product_exponent _ _ _ _ _ _ Hx Hy) as [HT HE].
    destruct (binary_round_aux_spec (xorb sx sy) (mx * my) (ex + ey) HT)
      as (o & Ho & _ & _ & Hu).
    cbn [SFmul]. rewrite Hu.
    pose proof (nearest_even_nonneg _ _ _ Ho).
    pose proof (rounded_units_mono my (mx * my) ey (ex + ey) (Z.pos my) o
                  ltac:(rewrite Hcy; lia) HT ltac:(lia) HE Hself Ho) as Hmono.
    rewrite (units_split mx my ex ey) in Hmono by lia.
    specialize (Hmono Hscale). rewrite Hcy in Hmono.
    rewrite abs_cond_Zopp; [lia|].
    apply Z.min_glb; [|lia]. apply Z.mul_nonneg_nonneg; [assumption|apply Z.pow_nonneg; lia].
  - destruct (product_exponent _ _ _ _ _ _ Hy Hx) as [HT HE].
    destruct (binary_round_aux_spec (xorb sy sx) (my * mx) (ey + ex) HT)
      as (o & Ho & _ & _ & Hu).
    cbn [SFmul]. rewrite Hu.
    pose proof (nearest_even_nonneg _ _ _ Ho).
    pose proof (rounded_units_mono my (my * mx) ey (ey + ex) (Z.pos my) o
                  ltac:(rewrite Hcy; lia) HT ltac:(lia) HE Hself Ho) as Hmono.
    rewrite (units_split my mx ey ex) in Hmono by lia.
    specialize (Hmono ltac:(lia)). rewrite Hcy in Hmono.
    rewrite abs_cond_Zopp; [lia|].
    apply Z.min_glb; [|lia]. apply Z.mul_nonneg_nonneg; [assumption|apply Z.pow_nonneg; lia].
Qed.


(** Multiplying by a number that is not negative keeps the order, whenever
    neither product is a NaN. *)
Lemma SFmul_mono (x p1 p2 : spec_float) :
  valid_binary x = true -> valid_binary p1 = true -> valid_binary p2 = true ->
  is_nan x = false -> 0 <= units x ->
  is_nan p1 = false -> is_nan p2 = false -> units p1 <= units p2 ->
  is_nan (SFmul prec emax x p1) = false -> is_nan (SFmul prec emax x p2) = false ->
  units (SFmul prec emax x p1) <= units (SFmul prec emax x p2).
Proof.
  intros Hx H1 H2 Hnx Hposx Hn1 Hn2 Hle Hnp1 Hnp2.
  assert (0 < 2 ^ 2098) as Hbig by (apply pow2_pos; lia).
  destruct x as [sx|sx| |sx mx ex]; [| |discriminate|].
  - destruct p1 as [s1|s1| |s1 m1 e1], p2 as [s2|s2| |s2 m2 e2]; try discriminate;
      cbn [SFmul units]; lia.
  - destruct sx; [cbn [units cond_Zopp] in Hposx; lia|].
    destruct p1 as [s1|s1| |s1 m1 e1], p2 as [s2|s2| |s2 m2 e2]; try discriminate.
    all: try pose proof (finite_units _ _ _ H1); try pose proof (finite_units _ _ _ H2).
    all: cbn [SFmul units xorb] in *.
    all: repeat match goal with s : bool |- _ => destruct s end; cbn [cond_Zopp] in *; lia.
  - pose proof (finite_units _ _ _ Hx) as Hux.
    destruct sx; [cbn [units cond_Zopp] in Hposx; lia|].
    destruct p1 as [s1|s1| |s1 m1 e1], p2 as [s2|s2| |s2 m2 e2]; try discriminate.
    all: try pose proof (finite_units _ _ _ H1) as Hu1.
    all: try pose proof (finite_units _ _ _ H2) as Hu2.
    all: try pose proof (SFmul_finite_sign false s1 mx m1 ex e1 Hx H1) as (_ & Hs1 & Hb1).
    all: try pose proof (SFmul_finite_sign false s2 mx m2 ex e2 Hx H2) as (_ & Hs2 & Hb2).
    all: try (pose proof (SFmul_finite_mono false s1 s2 mx m1 m2 ex e1 e2 Hx H1 H2) as Hm12;
              pose proof (SFmul_finite_mono false s2 s1 mx m2 m1 ex e2 e1 Hx H2 H1) as Hm21).
    all: try (rewrite Hs1; clear Hs1); try (rewrite Hs2; clear Hs2).
    all: repeat match goal with
           | |- context [Z.abs (units ?p)] =>
               pose proof (Z.abs_nonneg (units p));
               generalize dependent (Z.abs (units p)); intros
           end.
    all: cbn [SFmul units xorb] in *.
    all: repeat match goal with s : bool |- _ => destruct s end; cbn [cond_Zopp] in *; lia.
Qed.

(** Among numbers of at least one, a product is at least each factor. *)
Lemma SFmul_ge (x p : spec_float) :
  valid_binary x = true -> valid_binary p = true ->
  is_nan x = false -> is_nan p = false ->
  2 ^ 1074 <= units x -> 2 ^ 1074 <= units p ->
  is_nan (SFmul prec emax x p) = false
  /\ units x <= units (SFmul prec emax x p)
  /\ units p <= units (SFmul prec emax x p).
Proof.
  intros Hx Hp Hnx Hnp Hux Hup.
  assert (0 < 2 ^ 1074) as Hone by (apply pow2_pos; lia).
  assert (0 < 2 ^ 2098) as Hbig by (apply pow2_pos; lia).
  pose proof (units_range _ Hx). pose proof (units_range _ Hp).
  destruct x as [sx|sx| |sx mx ex], p as [sp|sp| |sp mp ep]; try discriminate.
  all: cbn [units] in Hux, Hup; try lia.
  all: destruct sx; cbn [cond_Zopp] in Hux; try lia.
  all: destruct sp; cbn [cond_Zopp] in Hup; try lia.
  1-3: cbn [SFmul units xorb cond_Zopp is_nan] in *; split; [reflexivity|lia].
  pose proof (SFmul_finite_sign false false mx mp ex ep Hx Hp) as (Hn & Hs & _).
  pose proof (SFmul_finite_ge false false mx mp ex ep Hx Hp Hux) as [Hge1 _].
  pose proof (SFmul_finite_ge false false mp mx ep ex Hp Hx Hup) as [_ Hge2].
  split; [exact Hn|]. rewrite Hs. cbn [xorb cond_Zopp units]. lia.
Qed.


(** A product that is no NaN stays none when a positive factor shrinks, and
    is not negative when no factor is. *)
Lemma SFmul_not_nan (x p1 p2 : spec_float) :
  valid_binary x = true -> valid_binary p1 = true -> valid_binary p2 = true ->
  is_nan x = false -> 0 <= units x ->
  is_nan p1 = false -> is_nan p2 = false -> 0 < units p1 <= units p2 ->
  is_nan (SFmul prec emax x p2) = false ->
  is_nan (SFmul prec emax x p1) = false /\ 0 <= units (SFmul prec emax x p1).
Proof.
  intros Hx H1 H2 Hnx Hposx Hn1 Hn2 Hle Hnp2.
  assert (0 < 2 ^ 2098) as Hbig by (apply pow2_pos; lia).
  destruct x as [sx|sx| |sx mx ex]; [| |discriminate|].
  - destruct p1 as [s1|s1| |s1 m1 e1], p2 as [s2|s2| |s2 m2 e2]; try discriminate.
    all: try pose proof (finite_units _ _ _ H1); try pose proof (finite_units _ _ _ H2).
    all: cbn [SFmul units is_nan] in *; try discriminate.
    all: repeat match goal with s : bool |- _ => destruct s end; cbn [cond_Zopp] in *.
    all: first [ lia | split; [reflexivity|lia] ].
  - destruct sx; [cbn [units cond_Zopp] in Hposx; lia|].
    destruct p1 as [s1|s1| |s1 m1 e1]; try discriminate.
    all: try pose proof (finite_units _ _ _ H1).
    all: cbn [SFmul units is_nan xorb] in *.
    all: destruct s1; cbn [cond_Zopp] in *; first [ lia | split; [reflexivity|lia] ].
  - pose proof (finite_units _ _ _ Hx) as Hux.
    destruct sx; [cbn [units cond_Zopp] in Hposx; lia|].
    destruct p1 as [s1|s1| |s1 m1 e1]; try discriminate.
    1-2: cbn [SFmul units is_nan xorb] in *;
      destruct s1; cbn [cond_Zopp] in *; first [ lia | split; [reflexivity|lia] ].
    pose proof (finite_units _ _ _ H1) as Hu1.
    destruct (SFmul_finite_sign false s1 mx m1 ex e1 Hx H1) as (Hn & Hs & _).
    split; [exact Hn|]. rewrite Hs.
    destruct s1; cbn [units cond_Zopp xorb] in *; lia.
Qed.

(** *** Primitive floats *)

Lemma mul_units_mono (x p1 p2 : float) :
  (0 <=? x)%float = true -> (p1 <=? p2)%float = true ->
  is_nan (Prim2SF (x * p1)) = false -> is_nan (Prim2SF (x * p2)) = false ->
  units (Prim2SF (x * p1)) <= units (Prim2SF (x * p2)).
Proof.
  intros (_ & Hnx & Hx)%leb_units (Hn1 & Hn2 & Hle)%leb_units. rewrite !mul_spec.
  apply SFmul_mono; try apply Prim2SF_valid; assumption.
Qed.

Lemma mul_ge (x p : float) :
  (1 <=? x)%float = true -> (1 <=? p)%float = true ->
  (1 <=? x * p)%float = true /\ (x <=? x * p)%float = true /\ (p <=? x * p)%float = true.
Proof.
  intros (_ & Hnx & Hx)%leb_units (_ & Hnp & Hp)%leb_units.
  change (units (Prim2SF 1)) with (2 ^ 52 * 2 ^ (-52 + 1074)) in Hx, Hp.
  rewrite <- (pow2_split 52 (-52 + 1074)) in Hx, Hp by lia.
  change (52 + (-52 + 1074)) with 1074 in Hx, Hp.
  destruct (SFmul_ge (Prim2SF x) (Prim2SF p) (Prim2SF_valid x) (Prim2SF_valid p)
              Hnx Hnp Hx Hp) as (Hn & Hgx & Hgp).
  change (SFmul prec emax) with SF64mul in Hn, Hgx, Hgp. rewrite <- mul_spec in Hn, Hgx, Hgp.
  rewrite !leb_units.
  change (units (Prim2SF 1)) with (2 ^ 52 * 2 ^ (-52 + 1074)).
  rewrite <- (pow2_split 52 (-52 + 1074)) by lia.
  change (52 + (-52 + 1074)) with 1074.
  repeat split; try assumption; try reflexivity; lia.
Qed.

(** [float64_trunc] drops the fraction of the value. *)
Lemma float64_trunc_units (f : float) (z : Z) :
  float64_trunc f = Some z ->
  is_nan (Prim2SF f) = false /\ z = Z.quot (units (Prim2SF f)) (2 ^ 1074).
Proof.
  unfold float64_trunc. pose proof (Prim2SF_valid f) as Hvalid.
  assert (0 < 2 ^ 1074) as Hone by (apply pow2_pos; lia).
  destruct (Prim2SF f) as [s|s| |s m e]; try discriminate; intros [= <-].
  - split; [reflexivity|]. cbn [units]. rewrite Z.quot_0_l by lia. reflexivity.
  - split; [reflexivity|]. cbn [units].
    pose proof (valid_finite _ _ _ Hvalid) as (He & _).
    assert (Z.quot (Z.pos m * 2 ^ (e + 1074)) (2 ^ 1074)
            = if 0 <=? e then Z.shiftl (Z.pos m) e else Z.shiftr (Z.pos m) (- e)) as Hmag.
    { destruct (Z.leb_spec 0 e) as [Hpos|Hneg].
      - rewrite Z.shiftl_mul_pow2 by lia. rewrite (pow2_split e 1074) by lia.
        rewrite Z.mul_assoc. apply Z.quot_mul. lia.
      - rewrite Z.shiftr_div_pow2 by lia.
        replace 1074 with (- e + (e + 1074)) at 2 by lia.
        rewrite (pow2_split (- e) (e + 1074)) by lia.
        pose proof (pow2_pos (- e) ltac:(lia)). pose proof (pow2_pos (e + 1074) ltac:(lia)).
        rewrite Z.quot_mul_cancel_r by lia. apply Z.quot_div_nonneg; lia. }
    destruct s; cbn [cond_Zopp].
    + rewrite Z.quot_opp_l by lia. rewrite Hmag. reflexivity.
    + rewrite Hmag. reflexivity.
Qed.

Lemma nearest_even_0 (M o : Z) : 0 <= M -> nearest_even M 0 o -> o = M.
Proof.
  intros HM Ho.
  assert (nearest_even M 0 M) as Hself.
  { replace M with (M * 2 ^ 0) at 1 by (cbn; lia). apply nearest_even_exact; lia. }
  pose proof (nearest_even_mono M M 0 o M ltac:(lia) Ho Hself ltac:(lia)).
  pose proof (nearest_even_mono M M 0 M o ltac:(lia) Hself Ho ltac:(lia)).
  lia.
Qed.

Lemma iter_xO (p k : positive) : Z.pos (Pos.iter xO p k) = Z.pos p * 2 ^ Z.pos k.
Proof.
  induction k as [|k IH] using Pos.peano_ind.
  - cbn. lia.
  - rewrite Pos.iter_succ, Pos2Z.inj_succ, Z.pow_succ_r by lia.
    rewrite Pos2Z.inj_xO, IH. ring.
Qed.

(** [float64] of an integer below [2^53] is that integer. *)
Lemma float64_of_int_units (z : Z) :
  0 <= z < 2 ^ 53 ->
  is_nan (Prim2SF (float64_of_int z)) = false
  /\ units (Prim2SF (float64_of_int z)) = z * 2 ^ 1074.
Proof.
  intros Hz. unfold float64_of_int. destruct z as [|p|p]; [| |lia].
  - cbn [binary_normalize]. rewrite Prim2SF_SF2Prim by reflexivity. split; reflexivity.
  - cbn [binary_normalize]. unfold binary_round.
    pose proof (digits2_pos_bounds p) as [Hlo Hhi].
    pose proof (digits2_pos_le p 53 ltac:(lia) ltac:(lia)) as Hd.
    set (d := Z.pos (digits2_pos p)) in *. assert (0 < d) by (unfold d; lia).
    assert (exists mz, shl_align p 0 (fexp prec emax (d + 0)) = (mz, d - 53)
                       /\ Z.pos mz = Z.pos p * 2 ^ (53 - d)) as (mz & -> & Hmz).
    { rewrite fexp_eq. unfold shl_align.
      replace (Z.max (d + 0 - 53) (-1074) - 0) with (d - 53) by lia.
      replace (Z.max (d + 0 - 53) (-1074)) with (d - 53) by lia.
      destruct (d - 53) as [|k|k] eqn:Hk; [|lia|].
      - exists p. split; [reflexivity|]. replace (53 - d) with 0 by lia. cbn. lia.
      - exists (Pos.iter xO p k). split; [reflexivity|].
        rewrite iter_xO. f_equal. f_equal. lia. }
    assert (Z.pos (digits2_pos mz) = 53) as Hdz.
    { apply Z.le_antisymm.
      - apply digits2_pos_le; [lia|]. rewrite Hmz.
        replace 53 with (d + (53 - d)) at 2 by lia. rewrite (pow2_split d (53 - d)) by lia.
        apply Z.mul_lt_mono_pos_r; [apply pow2_pos; lia|exact Hhi].
      - apply (digits2_pos_ge mz 52); [lia|]. rewrite Hmz.
        replace 52 with ((d - 1) + (53 - d)) at 1 by lia.
        rewrite (pow2_split (d - 1) (53 - d)) by lia.
        apply Z.mul_le_mono_nonneg_r; [apply Z.lt_le_incl, pow2_pos; lia|exact Hlo]. }
    assert (HT : fexp prec emax (Z.pos (digits2_pos mz) + (d - 53)) = d - 53)
      by (rewrite fexp_eq, Hdz; lia).
    destruct (binary_round_aux_spec false mz (d - 53) ltac:(rewrite HT; lia))
      as (o & Ho & Hnan & Hvalid & Hunits).
    rewrite Prim2SF_SF2Prim by exact Hvalid. split; [exact Hnan|].
    rewrite Hunits. rewrite HT, Z.sub_diag in *.
    apply nearest_even_0 in Ho; [|lia]. subst o. cbn [cond_Zopp].
    assert (Z.pos mz * 2 ^ (d - 53 + 1074) = Z.pos p * 2 ^ 1074) as ->.
    { rewrite Hmz, <- Z.mul_assoc, <- (pow2_split (53 - d) (d - 53 + 1074)) by lia.
      f_equal. f_equal. lia. }
    pose proof (below_overflow (Z.pos p) 1074 ltac:(lia) ltac:(lia)). lia.
Qed.

Lemma units_one : units (Prim2SF 1) = 2 ^ 1074.
Proof. vm_compute. reflexivity. Qed.

Lemma leb_refl (x : float) : is_nan (Prim2SF x) = false -> (x <=? x)%float = true.
Proof. intros Hx. apply leb_units. repeat split; [exact Hx|exact Hx|lia]. Qed.

Lemma leb_trans (x y z : float) :
  (x <=? y)%float = true -> (y <=? z)%float = true -> (x <=? z)%float = true.
Proof.
  intros (Hx & _ & Hxy)%leb_units (_ & Hz & Hyz)%leb_units.
  apply leb_units. repeat split; [exact Hx|exact Hz|lia].
Qed.

Lemma float64_trunc_of_int (k : Z) :
  0 <= k < 2 ^ 53 -> float64_trunc (float64_of_int k) = Some k.
Proof.
  intros Hk. destruct (float64_of_int_units k Hk) as [Hnan Hunits].
  assert (0 < 2 ^ 1074) as Hone by (apply pow2_pos; lia).
  destruct (float64_trunc (float64_of_int k)) as [z|] eqn:Htrunc.
  - apply float64_trunc_units in Htrunc as [_ ->]. rewrite Hunits.
    rewrite Z.quot_mul by lia. reflexivity.
  - exfalso. unfold float64_trunc in Htrunc.
    destruct (Prim2SF (float64_of_int k)) as [s|s| |s m e]; try discriminate.
    cbn [units] in Hunits.
    pose proof (below_overflow k 1074 ltac:(lia) ltac:(lia)).
    destruct s; cbn [cond_Zopp] in Hunits; nia.
Qed.

End float_facts.

(** *** The reference runtime *)

Section reference_runtime_facts.
Import backoff binary64.

Lemma pow_by_mult_ge (x : float) (j : nat) :
  (1 <=? x)%float = true -> (1 <=? pow_by_mult x j)%float = true.
Proof.
  intros Hx. induction j as [|j IH]; cbn [pow_by_mult]; [reflexivity|].
  exact (proj1 (mul_ge x (pow_by_mult x j) Hx IH)).
Qed.

Lemma pow_by_mult_base (x : float) (j : nat) :
  (1 <=? x)%float = true -> (x <=? pow_by_mult x (S j))%float = true.
Proof.
  intros Hx. cbn [pow_by_mult].
  exact (proj1 (proj2 (mul_ge x (pow_by_mult x j) Hx (pow_by_mult_ge x j Hx)))).
Qed.

Lemma pow_by_mult_mono (x : float) (i j : nat) :
  (1 <=? x)%float = true -> (i <= j)%nat ->
  (pow_by_mult x i <=? pow_by_mult x j)%float = true.
Proof.
  intros Hx Hij. induction Hij as [|j Hij IH].
  - apply leb_refl. exact (proj1 (proj2 (proj1 (leb_units _ _) (pow_by_mult_ge x i Hx)))).
  - apply leb_trans with (pow_by_mult x j); [exact IH|]. cbn [pow_by_mult].
    exact (proj2 (proj2 (mul_ge x (pow_by_mult x j) Hx (pow_by_mult_ge x j Hx)))).
Qed.

(** [reference_Pow] at a whole exponent. *)
Lemma reference_Pow_of_int (x : float) (k : Z) :
  0 <= k < 2 ^ 31 ->
  reference_Pow x (float64_of_int k)
  = if bool_decide (k = 0) || (x =? 1)%float then 1%float
    else if bool_decide (k = 1) then x
    else pow_by_mult x (Z.to_nat k).
Proof.
  intros Hk. assert (0 <= k < 2 ^ 53) as Hk53 by lia.
  destruct (float64_of_int_units k Hk53) as [Hnan Hunits].
  assert (0 < 2 ^ 1074) as Hone by (apply pow2_pos; lia).
  unfold reference_Pow.
  rewrite (eqb_units (float64_of_int k) 0 Hnan eq_refl).
  rewrite (eqb_units (float64_of_int k) 1 Hnan eq_refl).
  rewrite Hunits, units_one. change (units (Prim2SF 0)) with 0.
  rewrite (bool_decide_ext (k * 2 ^ 1074 = 0) (k = 0)) by nia.
  rewrite (bool_decide_ext (k * 2 ^ 1074 = 2 ^ 1074) (k = 1)) by nia.
  rewrite (float64_trunc_of_int k Hk53).
  destruct (Z.leb_spec 0 k); [reflexivity|lia].
Qed.

(** The reference [Pow] of a base of at least one is at least one and does
    not decrease as a whole exponent grows. *)
Lemma reference_Pow_monotone : Pow_monotone reference_runtime.
Proof.
  intros x m n Hx Hmn Hn. cbn [math_Pow reference_runtime].
  rewrite !reference_Pow_of_int by lia.
  pose proof (proj1 (proj2 (proj1 (leb_units _ _) Hx))) as Hnan.
  destruct (x =? 1)%float; [rewrite !orb_true_r; split; reflexivity|]. rewrite !orb_false_r.
  split.
  - repeat case_bool_decide; [reflexivity|exact Hx|]. apply pow_by_mult_ge. exact Hx.
  - repeat case_bool_decide; subst; try lia.
    + reflexivity.
    + exact Hx.
    + apply pow_by_mult_ge. exact Hx.
    + apply leb_refl. exact Hnan.
    + destruct (Z.to_nat n) as [|j] eqn:Hj; [lia|]. apply pow_by_mult_base. exact Hx.
    + apply pow_by_mult_mono; [exact Hx|lia].
Qed.

End reference_runtime_facts.

Section backoff_facts.
Import xdbapi backoff.
Context {go : GoRuntime}.

Lemma cap_is_min (cap x : Z) : (if cap <? x then cap else x) = Z.min cap x.
Proof. destruct (Z.ltb_spec cap x); lia. Qed.

(** [GetNextBackoff], case by case. *)
Lemma GetNextBackoff_unfold (now completedAttempts firstAttemptTs : Z)
    (policy : option RetryPolicy) :
  let p := setDefaultRetryPolicyValue policy in
  GetNextBackoff now completedAttempts firstAttemptTs policy
  = if decide (0 < deref (MaximumAttempts p) /\ deref (MaximumAttempts p) <= completedAttempts)
    then (0, false)
    else if decide (0 < deref (MaximumAttemptsDurationSeconds p)
                    /\ int64 (firstAttemptTs + deref (MaximumAttemptsDurationSeconds p)) < now)
    then (0, false)
    else (Z.min (deref (MaximumIntervalSeconds p)) (uncappedInterval completedAttempts p), true).
Proof.
  intros p. unfold GetNextBackoff. fold p.
  destruct (Z.ltb_spec 0 (deref (MaximumAttempts p)));
    destruct (Z.leb_spec (deref (MaximumAttempts p)) completedAttempts); cbn [andb];
    try (rewrite decide_True by lia; reflexivity);
    rewrite (decide_False (P := _ /\ _)) by lia.
  all: destruct (Z.ltb_spec 0 (deref (MaximumAttemptsDurationSeconds p)));
    destruct (Z.ltb_spec
                (int64 (firstAttemptTs + deref (MaximumAttemptsDurationSeconds p))) now);
    cbn [andb];
    try (rewrite decide_True by lia; reflexivity);
    rewrite (decide_False (P := _ /\ _)) by lia.
  all: rewrite cap_is_min; reflexivity.
Qed.

(** C3, as amended.  [GetNextBackoff] on every input, with the policy's
    unset fields replaced by the defaults: no retry when [MaximumAttempts] is
    positive and reached; no retry when [MaximumAttemptsDurationSeconds] is
    positive and the first attempt plus that duration (the [int64] sum) lies
    before now; in every other case a retry after the smaller of
    [MaximumIntervalSeconds] and the [float64] product [InitialIntervalSeconds
    * Pow(BackoffCoefficient, completedAttempts)] converted to [int32].  That
    conversion truncates the product towards zero whenever the truncated
    product is an [int32]. *)
Theorem GetNextBackoff_cases (now completedAttempts firstAttemptTs : Z)
    (policy : option RetryPolicy) :
  let p := setDefaultRetryPolicyValue policy in
  GetNextBackoff now completedAttempts firstAttemptTs policy
  = (if decide (0 < deref (MaximumAttempts p) /\ deref (MaximumAttempts p) <= completedAttempts)
     then (0, false)
     else if decide (0 < deref (MaximumAttemptsDurationSeconds p)
                     /\ int64 (firstAttemptTs + deref (MaximumAttemptsDurationSeconds p)) < now)
     then (0, false)
     else (Z.min (deref (MaximumIntervalSeconds p))
                 (int32_of_float64
                    (float64_of_int (deref (InitialIntervalSeconds p))
                     * math_Pow (deref_float (BackoffCoefficient p))
                                (float64_of_int completedAttempts))%float),
           true))
  /\ (forall (product : float) (value : Q),
        float64_value product = Some value ->
        - 2 ^ 31 <= Qtrunc value < 2 ^ 31 ->
        int32_of_float64 product = Qtrunc value).
Proof.
  intros p. split.
  - apply GetNextBackoff_unfold.
  - intros product value Hvalue Hrange. unfold int32_of_float64.
    rewrite float64_trunc_value, Hvalue. cbn [fmap option_fmap option_map].
    destruct (Z.leb_spec (- 2 ^ 31) (Qtrunc value)); [|lia].
    destruct (Z.ltb_spec (Qtrunc value) (2 ^ 31)); [reflexivity | lia].
Qed.

Lemma converts_to_int32_spec (f : float) :
  converts_to_int32 f = true
  <-> exists z : Z, float64_trunc f = Some z /\ - 2 ^ 31 <= z < 2 ^ 31.
Proof.
  unfold converts_to_int32. destruct (float64_trunc f) as [z|].
  - rewrite andb_true_iff, Z.leb_le, Z.ltb_lt. split.
    + intros Hz. exists z. split; [reflexivity|exact Hz].
    + intros (z' & [= <-] & Hz). exact Hz.
  - split; [discriminate|]. intros (z & Hz & _). discriminate Hz.
Qed.

Lemma int32_of_float64_converted (f : float) (z : Z) :
  float64_trunc f = Some z -> - 2 ^ 31 <= z < 2 ^ 31 -> int32_of_float64 f = z.
Proof.
  intros Hf Hz. unfold int32_of_float64. rewrite Hf.
  destruct (Z.leb_spec (- 2 ^ 31) z); [|lia]. destruct (Z.ltb_spec z (2 ^ 31)); [|lia].
  reflexivity.
Qed.

(** With an initial interval that is a non-negative [int32] and powers of at
    least one in their order, the product of the smaller power converts to
    [int32] when that of the larger does, and the conversions are in the
    order of the powers. *)
Lemma uncappedInterval_mono (a b : Z) (p : RetryPolicy) :
  0 <= deref (InitialIntervalSeconds p) < 2 ^ 31 ->
  (1 <=? math_Pow (deref_float (BackoffCoefficient p)) (float64_of_int a))%float = true ->
  (math_Pow (deref_float (BackoffCoefficient p)) (float64_of_int a)
   <=? math_Pow (deref_float (BackoffCoefficient p)) (float64_of_int b))%float = true ->
  converts_to_int32 (intervalProduct b p) = true ->
  converts_to_int32 (intervalProduct a p) = true
  /\ 0 <= uncappedInterval a p <= uncappedInterval b p.
Proof.
  intros Hinit Hone Hpow (zb & Htb & Hzb)%converts_to_int32_spec.
  change (uncappedInterval a p) with (int32_of_float64 (intervalProduct a p)).
  change (uncappedInterval b p) with (int32_of_float64 (intervalProduct b p)).
  rewrite (int32_of_float64_converted _ zb Htb Hzb).
  unfold intervalProduct in *.
  set (x := float64_of_int (deref (InitialIntervalSeconds p))) in *.
  set (pa := math_Pow (deref_float (BackoffCoefficient p)) (float64_of_int a)) in *.
  set (pb := math_Pow (deref_float (BackoffCoefficient p)) (float64_of_int b)) in *.
  assert (0 < 2 ^ 1074) as Hunit by (apply pow2_pos; lia).
  destruct (float64_of_int_units (deref (InitialIntervalSeconds p)) ltac:(lia)) as [Hnx Hux].
  fold x in Hnx, Hux.
  assert (0 <= binary64.units (Prim2SF x)) as Hposx
    by (rewrite Hux; apply Z.mul_nonneg_nonneg; lia).
  apply leb_units in Hone as (_ & Hna & Hua). rewrite units_one in Hua.
  pose proof Hpow as (_ & Hnb & Hab)%leb_units.
  assert (binary64.is_nan (Prim2SF (x * pb)) = false
          /\ Z.abs (binary64.units (Prim2SF (x * pb))) < 2 ^ 2098) as [Hnpb Hfin].
  { unfold float64_trunc in Htb. pose proof (Prim2SF_valid (x * pb)) as Hvalid.
    destruct (Prim2SF (x * pb)) as [s|s| |s m e]; try discriminate.
    - split; [reflexivity|]. cbn. apply pow2_pos. lia.
    - split; [reflexivity|]. pose proof (finite_units _ _ _ Hvalid).
      cbn [binary64.units]. rewrite abs_cond_Zopp by lia. lia. }
  destruct (SFmul_not_nan (Prim2SF x) (Prim2SF pa) (Prim2SF pb)
              (Prim2SF_valid x) (Prim2SF_valid pa) (Prim2SF_valid pb)
              Hnx Hposx Hna Hnb ltac:(lia)
              ltac:(change (SFmul prec emax) with SF64mul; rewrite <- mul_spec; exact Hnpb))
    as [Hnpa Hpos].
  change (SFmul prec emax) with SF64mul in Hnpa, Hpos. rewrite <- mul_spec in Hnpa, Hpos.
  pose proof (mul_units_mono x pa pb
                ltac:(apply leb_units; repeat split; [exact Hnx|exact Hposx])
                Hpow Hnpa Hnpb) as Hmono.
  assert (exists za, float64_trunc (x * pa) = Some za) as [za Hta].
  { unfold float64_trunc. pose proof (Prim2SF_valid (x * pa)) as Hvalid.
    destruct (Prim2SF (x * pa)) as [s|s| |s m e]; try discriminate; eauto.
    exfalso. destruct s; cbn [binary64.units cond_Zopp] in *; lia. }
  pose proof (float64_trunc_units _ _ Hta) as [_ Hza].
  pose proof (float64_trunc_units _ _ Htb) as [_ Hzb'].
  assert (0 <= za <= zb) as Hrange.
  { rewrite Hza, Hzb'. split; [apply Z.quot_pos; lia|apply Z.quot_le_mono; lia]. }
  rewrite (int32_of_float64_converted _ za Hta ltac:(lia)).
  split; [|exact Hrange]. apply converts_to_int32_spec. exists za. split; [exact Hta|lia].
Qed.

(** C9, as amended.  Every interval [GetNextBackoff] returns is at most
    [MaximumIntervalSeconds].  The intervals do not decrease with the attempt
    count for a policy, defaults filled in, whose [InitialIntervalSeconds] is
    not negative and whose [BackoffCoefficient] is at least one, on a runtime
    whose [math.Pow] of such a base is at least one and does not decrease
    with a whole exponent: for attempt counts [0 <= a <= b] that both allow a
    retry, when the [float64] product [InitialIntervalSeconds *
    Pow(BackoffCoefficient, b)] converts to [int32] without overflow, so does
    the product at [a], and the interval returned at [a] is at most the
    interval returned at [b]. *)
Theorem GetNextBackoff_monotone_in_attempts (firstAttemptTs : Z)
    (policy : option RetryPolicy) :
  (forall now n i : Z,
     GetNextBackoff now n firstAttemptTs policy = (i, true) ->
     i <= deref (MaximumIntervalSeconds (setDefaultRetryPolicyValue policy)))
  /\ (Pow_monotone go ->
      0 <= deref (InitialIntervalSeconds (setDefaultRetryPolicyValue policy)) < 2 ^ 31 ->
      (1 <=? deref_float (BackoffCoefficient (setDefaultRetryPolicyValue policy)))%float = true ->
      forall now_a now_b a b ia ib : Z,
        0 <= a <= b -> b < 2 ^ 31 ->
        converts_to_int32 (intervalProduct b (setDefaultRetryPolicyValue policy)) = true ->
        GetNextBackoff now_a a firstAttemptTs policy = (ia, true) ->
        GetNextBackoff now_b b firstAttemptTs policy = (ib, true) ->
        converts_to_int32 (intervalProduct a (setDefaultRetryPolicyValue policy)) = true
        /\ ia <= ib).
Proof.
  set (p := setDefaultRetryPolicyValue policy). split.
  - intros now n i. rewrite GetNextBackoff_unfold. cbv zeta. fold p.
    generalize (uncappedInterval n p) (deref (MaximumIntervalSeconds p)). intros u cap.
    repeat case_decide; intros Hi; try discriminate.
    assert (i = Z.min cap u) as -> by congruence. lia.
  - intros Hpow Hinit Hcoeff now_a now_b a b ia ib Hab Hb Hfb.
    destruct (Hpow _ a b Hcoeff Hab Hb) as [Hone Hle].
    destruct (uncappedInterval_mono a b p Hinit Hone Hle Hfb) as [Hfa Hmono].
    rewrite !GetNextBackoff_unfold. cbv zeta. fold p.
    revert Hmono.
    generalize (uncappedInterval a p) (uncappedInterval b p)
               (deref (MaximumIntervalSeconds p)).
    intros ua ub cap Hmono.
    repeat case_decide; intros Ha Hib; try discriminate.
    assert (ia = Z.min cap ua) as -> by congruence.
    assert (ib = Z.min cap ub) as -> by congruence.
    split; [exact Hfa|lia].
Qed.

End backoff_facts.

(** The default policy backs off 1, 2, 4, 8, 16, 32 and then 60 seconds. *)
Example default_backoff_sequence :
  map (fun a => backoff.GetNextBackoff (go := backoff.reference_runtime) 100 a 90 None)
      [0; 1; 2; 3; 4; 5; 6; 7]
  = [(1, true); (2, true); (4, true); (8, true); (16, true); (32, true); (60, true); (60, true)].
Proof. vm_compute. reflexivity. Qed.

(** C3, as stated, fails: with an initial interval of 1 second and a
    coefficient of 1.5 the interval after one completed attempt is 1 second,
    not the 3/2 seconds of min(60, 1 * 1.5^1). *)
Lemma GetNextBackoff_truncates_interval :
  backoff.GetNextBackoff (go := backoff.reference_runtime) 100 1 90
    (Some examples.slow_policy) = (1, true)
  /\ (exists coefficient : Q,
        float64_value 1.5%float = Some coefficient
        /\ (coefficient == 3 # 2)%Q
        /\ ~ (inject_Z 1 == backoff.spec_interval 1 coefficient 60 1)%Q).
Proof.
  split; [vm_compute; reflexivity|].
  eexists. split; [vm_compute; reflexivity|].
  split; [reflexivity|].
  vm_compute. intros Heq. discriminate Heq.
Qed.

(** Past int32 the conversion of the product is the runtime's: on one that
    yields the smallest [int32], as amd64 does, the default policy returns a
    negative interval after 31 completed attempts. *)
Example backoff_after_31_attempts :
  map (fun a => backoff.GetNextBackoff (go := backoff.reference_runtime) 100 a 90 None)
      [30; 31]
  = [(60, true); (- 2147483648, true)].
Proof. vm_compute. reflexivity. Qed.

(** C9, as stated, fails: with a coefficient of 0.5 and an initial interval
    of 10 seconds the interval after no completed attempt is 10 seconds and
    after one completed attempt 5 seconds. *)
Lemma GetNextBackoff_not_monotone :
  ~ (forall a b ia ib : Z,
       a <= b ->
       backoff.GetNextBackoff (go := backoff.reference_runtime) 100 a 90 (Some examples.halving_policy)
         = (ia, true) ->
       backoff.GetNextBackoff (go := backoff.reference_runtime) 100 b 90 (Some examples.halving_policy)
         = (ib, true) ->
       ia <= ib).
Proof.
  intros Hmono.
  specialize (Hmono 0 1 10 5 ltac:(lia)).
  assert (10 <= 5) by (apply Hmono; vm_compute; reflexivity).
  lia.
Qed.

(** A negative initial interval, which the code does not reject, moves away
    from zero as well: -1 second after no completed attempt, -2 seconds after
    one. *)
Example negative_initial_interval :
  map (fun a => backoff.GetNextBackoff (go := backoff.reference_runtime) 100 a 90
                  (Some {| xdbapi.InitialIntervalSeconds := Some (-1);
                           xdbapi.BackoffCoefficient := None;
                           xdbapi.MaximumIntervalSeconds := None;
                           xdbapi.MaximumAttempts := None;
                           xdbapi.MaximumAttemptsDurationSeconds := None |}))
      [0; 1]
  = [(-1, true); (-2, true)].
Proof. vm_compute. reflexivity. Qed.

(** The default policy on the reference runtime: at most 60 seconds; 1
    second after no completed attempt and 2 seconds after one, the product
    after one, and so the product after none, within [int32]. *)
Lemma GetNextBackoff_monotone_in_attempts_witness :
  (forall now n i : Z,
     backoff.GetNextBackoff (go := backoff.reference_runtime) now n 90 None = (i, true) ->
     i <= 60)
  /\ backoff.GetNextBackoff (go := backoff.reference_runtime) 100 0 90 None = (1, true)
  /\ backoff.GetNextBackoff (go := backoff.reference_runtime) 101 1 90 None = (2, true)
  /\ backoff.converts_to_int32
       (backoff.intervalProduct (go := backoff.reference_runtime) 1
          (backoff.setDefaultRetryPolicyValue None)) = true
  /\ backoff.converts_to_int32
       (backoff.intervalProduct (go := backoff.reference_runtime) 0
          (backoff.setDefaultRetryPolicyValue None)) = true
  /\ 1 <= 2.
Proof.
  destruct (GetNextBackoff_monotone_in_attempts (go := backoff.reference_runtime) 90 None)
    as [Hcap Hmono].
  split; [exact Hcap|].
  split; [vm_compute; reflexivity|]. split; [vm_compute; reflexivity|].
  split; [vm_compute; reflexivity|].
  apply (Hmono reference_Pow_monotone ltac:(vm_compute; split; congruence)
           ltac:(vm_compute; reflexivity) 100 101 0 1 1 2 ltac:(lia) ltac:(lia));
    vm_compute; reflexivity.
Defined.

Section processor_facts.
Import xdbapi persistence processor.
Context {go : GoRuntime}.


End processor_facts.

(** A state without a config has no policy to read: [checkRetry] dereferences
    the nil [StateConfig]. *)
Example checkRetry_without_StateConfig (now : Z) (task : persistence.ImmediateTask)
    (prep : persistence.PrepareStateExecutionResponse) :
  processor.checkRetry (go := backoff.reference_runtime) now task
    (persistence.Info (processor.with_StateConfig prep None)) = Panicked.
Proof.
  unfold processor.checkRetry. cbn.
  destruct (persistence.WorkerTaskBackoffInfo _); reflexivity.
Qed.

(** ** Starting a process *)

(** C4.  [StartProcess] for a (namespace, process id) that already has a
    pointer row returns [alreadyStarted = true] with no response and no
    error, and its transaction is rolled back: the database afterwards is the
    database before, so no pointer, process row, state-execution row or task
    has been added. *)
Theorem StartProcess_already_started (db : api_engine.DB) (prcExeId : UUID) (now : Z)
    (request : api_engine.ProcessExecutionStartRequest) :
  (exists row, In row (api_engine.current_process_executions db)
               /\ api_engine.CurrentNamespace row = api_engine.Namespace request
               /\ api_engine.CurrentProcessId row = api_engine.ProcessId request) ->
  api_engine.StartProcess db prcExeId now request = (db, (None, true, None)).
Proof.
  intros (row & Hin & Hns & Hid).
  unfold api_engine.StartProcess, api_engine.startProcessBody,
    api_engine.InsertCurrentProcessExecution.
  replace (existsb _ (api_engine.current_process_executions db)) with true.
  - reflexivity.
  - symmetry. apply existsb_exists. exists row. split; [exact Hin|].
    cbn. apply bool_decide_eq_true. auto.
Qed.

(** Process "p" of namespace "n" is started a second time. *)
Lemma StartProcess_already_started_witness :
  api_engine.StartProcess examples.started_db 8%N 1700000000 examples.start_request
  = (examples.started_db, (None, true, None)).
Proof.
  apply (StartProcess_already_started examples.started_db 8%N 1700000000
           examples.start_request).
  eexists. split; [left; reflexivity|]. split; reflexivity.
Defined.

(** Started on an empty database, the same request leaves the four rows of a
    new process behind. *)
Example StartProcess_fresh :
  api_engine.StartProcess
    (api_engine.Build_DB [] [] [] []) 8%N 1700000000 examples.start_request
  = ({| api_engine.current_process_executions :=
          [ {| api_engine.CurrentNamespace := "n";
               api_engine.CurrentProcessId := "p";
               api_engine.CurrentProcessExecutionId := 8%N |} ];
        api_engine.process_executions :=
          [ {| api_engine.ProcessExecutionId := 8%N;
               api_engine.IsCurrent := true;
               api_engine.Status := persistence.ProcessExecutionStatusRunning;
               api_engine.HistoryEventIdSequence := 0;
               api_engine.StateIdSequenceJson := {[ "S" := 1 ]};
               api_engine.RowNamespace := "n";
               api_engine.RowProcessId := "p";
               api_engine.StartTime := 1700000000;
               api_engine.RowTimeoutSeconds := 0;
               api_engine.RowInfo := {| api_engine.InfoProcessType := "order";
                                        api_engine.InfoWorkerURL := "http://worker" |} |} ];
        api_engine.async_state_executions :=
          [ {| api_engine.StateProcessExecutionId := 8%N;
               api_engine.StateId := "S";
               api_engine.StateIdSequence := 1;
               api_engine.PreviousVersion := 1;
               api_engine.WaitUntilStatus := persistence.StateExecutionStatusRunning;
               api_engine.ExecuteStatus := persistence.StateExecutionStatusUndefined;
               api_engine.Input := None;
               api_engine.Info := {| api_engine.InfoProcessType := "order";
                                     api_engine.InfoWorkerURL := "http://worker" |} |} ];
        api_engine.worker_tasks :=
          [ {| api_engine.TaskShardId := 0;
               api_engine.TaskProcessExecutionId := 8%N;
               api_engine.TaskStateId := "S";
               api_engine.TaskStateIdSequence := 1;
               api_engine.TaskType := api_engine.WorkerTaskTypeWaitUntil |} ] |},
     (Some {| api_engine.ResponseProcessExecutionId := 8%N |}, false, None)).
Proof. vm_compute. reflexivity. Qed.

(** ** The statements on state-execution rows *)

Section statement_facts.
Import persistence extensions postgres.
Context {env : StoreEnv}.

Lemma sql_update_Forall2 {Row : Type} (cond : Row -> bool) (set : Row -> Row)
    (R : Row -> Row -> Prop) (table : list Row) :
  (forall r, cond r = true -> R r (set r)) ->
  (forall r, cond r = false -> R r r) ->
  Forall2 R table (fst (sql_update cond set table)).
Proof.
  intros Hset Hkeep. cbn. induction table as [|r table IH]; cbn.
  - constructor.
  - constructor; [|exact IH].
    destruct (cond r) eqn:Hc; auto.
Qed.

Lemma versioned_where_version (peid : UUID) (sid : string) (seq pv : Z)
    (r : AsyncStateExecutionRow) :
  versioned_where peid sid seq pv r = true ->
  StateProcessExecutionId r = peid /\ StateId r = sid
  /\ StateIdSequence r = seq /\ PreviousVersion r = pv.
Proof.
  unfold versioned_where. rewrite !andb_true_iff, !bool_decide_eq_true. tauto.
Qed.


Lemma abort_running_version (r : AsyncStateExecutionRow) :
  PreviousVersion (abort_running r)
  = if has_running r then PreviousVersion r + 1 else PreviousVersion r.
Proof.
  unfold abort_running, has_running; cbn.
  destruct (WaitUntilStatus r), (ExecuteStatus r); reflexivity.
Qed.

Lemma abort_running_idle (r : AsyncStateExecutionRow) :
  has_running r = false -> abort_running r = r.
Proof.
  unfold abort_running, has_running. destruct r as [p s q v w e f i n]; cbn.
  destruct w, e; intros Hrun; vm_compute in Hrun; first [discriminate Hrun | reflexivity].
Qed.


End statement_facts.


(** What the batch abort does to three rows of process 1 and one of process 2. *)
Example batch_abort_rows :
  fst (postgres.batchUpdateAsyncStateExecutionsToAbortRunningQuery 1%N
         [ examples.state_row "A" 3 persistence.StateExecutionStatusRunning
             persistence.StateExecutionStatusUndefined;
           examples.state_row "B" 7 persistence.StateExecutionStatusSkipped
             persistence.StateExecutionStatusRunning;
           examples.state_row "C" 2 persistence.StateExecutionStatusWaiting
             persistence.StateExecutionStatusUndefined ])
  = [ examples.state_row "A" 4 persistence.StateExecutionStatusAborted
        persistence.StateExecutionStatusUndefined;
      examples.state_row "B" 8 persistence.StateExecutionStatusSkipped
        persistence.StateExecutionStatusAborted;
      examples.state_row "C" 2 persistence.StateExecutionStatusWaiting
        persistence.StateExecutionStatusUndefined ].
Proof. reflexivity. Qed.

(** ** The process store *)

Section store_facts.
Import xdbapi persistence extensions postgres sequence_maps sql.
Context {env : StoreEnv} {localQueue : LocalQueueProcessor}.

(** *** New state executions *)


(** *** Published messages *)

Lemma publishMessage_spec (tx : Tx) (processExecutionId : UUID) (message : LocalQueueMessage) :
  exists tx' task,
    publishMessage tx processExecutionId message = Ok tx'
    /\ begun tx' = begun tx
    /\ latest_process_executions (store tx') = latest_process_executions (store tx)
    /\ process_executions (store tx') = process_executions (store tx)
    /\ async_state_executions (store tx') = async_state_executions (store tx)
    /\ timer_tasks (store tx') = timer_tasks (store tx)
    /\ immediate_tasks (store tx') = immediate_tasks (store tx) ++ [task]
    /\ TaskType task = ImmediateTaskTypeNewLocalQueueMessage.
Proof.
  unfold publishMessage.
  destruct (xdbapi.DedupId message); cbn;
    eexists; eexists; (split; [reflexivity|]); cbn; repeat split; reflexivity.
Qed.

Lemma publishToLocalQueue_spec (messages : list LocalQueueMessage) :
  forall (tx : Tx) (processExecutionId : UUID),
  exists tx' tasks,
    publishToLocalQueue tx processExecutionId messages = Ok tx'
    /\ begun tx' = begun tx
    /\ latest_process_executions (store tx') = latest_process_executions (store tx)
    /\ process_executions (store tx') = process_executions (store tx)
    /\ async_state_executions (store tx') = async_state_executions (store tx)
    /\ timer_tasks (store tx') = timer_tasks (store tx)
    /\ immediate_tasks (store tx') = immediate_tasks (store tx) ++ tasks
    /\ Forall (fun t => TaskType t = ImmediateTaskTypeNewLocalQueueMessage) tasks
    /\ length tasks = length messages.
Proof.
  induction messages as [|message messages IH]; intros tx peid; cbn [publishToLocalQueue].
  - exists tx, []. rewrite app_nil_r. repeat split; auto.
  - destruct (publishMessage_spec tx peid message)
      as (tx1 & task & -> & Hb & Hl & Hp & Ha & Ht & Hi & Hty).
    cbn. destruct (IH tx1 peid) as (tx' & tasks & -> & Hb' & Hl' & Hp' & Ha' & Ht' & Hi' & Hty' & Hn).
    exists tx', (task :: tasks).
    split; [reflexivity|].
    rewrite Hb', Hl', Hp', Ha', Ht', Hi', Hi, <- app_assoc. cbn.
    repeat split; auto.
Qed.

(** *** Completing the wait-until phase *)

(** C7.  [ProcessWaitUntilExecution] on an EMPTY_COMMAND request runs
    [CompleteWaitUntilExecution].  When exactly one row has the key of the
    state execution and the prepared [PreviousVersion], the call succeeds with
    [HasNewImmediateTask = true]; that row is now at [PreviousVersion + 1] with
    the status ExecuteRunning in its status columns and every other row is as
    before; and the immediate tasks gained one task of type [Execute] for the
    state execution, followed only by the [NewLocalQueueMessage] tasks of the
    published messages.  Otherwise the call fails with the conditional-update
    failure and the database is as before. *)
Theorem empty_command_completes_wait_until (db : DB)
    (request : ProcessWaitUntilExecutionRequest) :
  WaitingType (WaitUntilCommandRequest request) = EMPTY_COMMAND ->
  let processExecutionId := WaitUntilProcessExecutionId request in
  let stateId := persistence.StateId (WaitUntilStateExecutionId request) in
  let stateIdSequence := persistence.StateIdSequence (WaitUntilStateExecutionId request) in
  let previousVersion := persistence.PreviousVersion (WaitUntilPrepare request) in
  let selected := versioned_where processExecutionId stateId stateIdSequence previousVersion in
  let executeTask := {| TaskShardId := WaitUntilTaskShardId request;
                        TaskType := ImmediateTaskTypeExecute;
                        TaskProcessExecutionId := processExecutionId;
                        TaskStateId := stateId;
                        TaskStateIdSequence := stateIdSequence;
                        TaskInfo := None |} in
  if decide (length (List.filter selected (async_state_executions db)) = 1%nat) then
    exists db' published,
      ProcessWaitUntilExecution db request
      = (db', Ok {| WaitUntilHasNewImmediateTask := true |})
      /\ Forall2 (fun r r' =>
                    if selected r
                    then PreviousVersion r' = previousVersion + 1
                         /\ (WaitUntilStatus r', ExecuteStatus r')
                            = status_columns StateExecutionStatusExecuteRunning
                         /\ StateProcessExecutionId r' = processExecutionId
                         /\ StateId r' = stateId
                         /\ StateIdSequence r' = stateIdSequence
                    else r' = r)
                 (async_state_executions db) (async_state_executions db')
      /\ immediate_tasks db' = immediate_tasks db ++ executeTask :: published
      /\ Forall (fun t => TaskType t = ImmediateTaskTypeNewLocalQueueMessage) published
      /\ length published = length (WaitUntilPublishToLocalQueue request)
      /\ process_executions db' = process_executions db
  else ProcessWaitUntilExecution db request = (db, Err conditionalUpdateFailure).
Proof.
  intros Hempty. cbv zeta.
  unfold ProcessWaitUntilExecution, doProcessWaitUntilExecutionTx.
  rewrite (bool_decide_eq_true_2 (WaitingType _ = EMPTY_COMMAND)) by exact Hempty.
  unfold CompleteWaitUntilExecution, UpdateAsyncStateExecutionWithoutCommands, sql_update.
  cbn [PlainProcessExecutionId PlainStateId PlainStateIdSequence PlainStatus
       PlainPreviousVersion PlainLastFailure CompleteProcessExecutionId
       CompleteStateExecutionId CompletePreviousVersion CompleteTaskShardId
       StartTransaction store].
  case_decide as Hone.
  - rewrite (bool_decide_eq_false_2 (length _ <> 1%nat))
      by (intros Hne; apply Hne; exact Hone).
    cbn [mbind result_bind InsertImmediateTask].
    match goal with
    | |- context [publishToLocalQueue ?tx ?peid ?msgs] =>
        destruct (publishToLocalQueue_spec msgs tx peid)
          as (tx' & tasks & -> & _ & _ & Hp & Ha & _ & Hi & Hty & Hn)
    end.
    cbn [mbind result_bind fst snd].
    exists (store tx'), tasks.
    split.
    { unfold Commit. destruct (bool_decide _); reflexivity. }
    rewrite Ha, Hi, Hp. cbn.
    split; [|split; [|auto]].
    + clear. induction (async_state_executions db) as [|r rows IH]; constructor; [|exact IH].
      destruct (versioned_where _ _ _ _ r) eqn:Hsel; [|reflexivity].
      apply versioned_where_version in Hsel as (Hp & Hs & Hq & _).
      cbn. rewrite <- surjective_pairing. auto.
    + rewrite <- app_assoc. reflexivity.
  - rewrite (bool_decide_eq_true_2 (length _ <> 1%nat)) by exact Hone. reflexivity.
Qed.

(** *** The pending-execution map *)

Lemma CompleteNewStateExecution_absent (stateId : string) (stateSeq : Z)
    (s : StateExecutionSequenceMaps) :
  pending stateId stateSeq s = false ->
  CompleteNewStateExecution stateId stateSeq s = Err (ErrStateNotPending (PendingExecutionMap s)).
Proof.
  unfold pending, CompleteNewStateExecution.
  destruct (PendingExecutionMap s !! stateId) as [pendingMap|]; [|reflexivity].
  destruct (pendingMap !! stateSeq); [|reflexivity].
  intros Hp. apply bool_decide_eq_false in Hp. exfalso. apply Hp. eauto.
Qed.

Lemma CompleteNewStateExecution_some_pending (stateId : string) (stateSeq : Z)
    (s s' : StateExecutionSequenceMaps) :
  CompleteNewStateExecution stateId stateSeq s = Ok s' ->
  PendingExecutionMap s <> ∅.
Proof.
  unfold CompleteNewStateExecution.
  destruct (PendingExecutionMap s !! stateId) as [pendingMap|] eqn:Hs; [|discriminate].
  intros _ Hempty. rewrite Hempty, lookup_empty in Hs. discriminate.
Qed.

Lemma pending_len_pos (s : StateExecutionSequenceMaps) :
  (0 < pending_len s)%nat <-> PendingExecutionMap s <> ∅.
Proof.
  unfold pending_len. rewrite <- map_size_empty_iff. lia.
Qed.

Lemma StartNewStateExecution_pending (stateId : string) (s : StateExecutionSequenceMaps) :
  (0 < pending_len (StartNewStateExecution stateId s).2)%nat.
Proof.
  apply pending_len_pos. cbn. apply insert_non_empty.
Qed.

(** *** Completing the execute phase *)

Lemma startNextStates_spec (prcExeId : UUID) (stateInfo : AsyncStateExecutionInfoJson)
    (taskShardId : Z) (nextStates : list StateMovement) :
  forall (tx tx' : Tx) (maps maps' : StateExecutionSequenceMaps),
  startNextStates prcExeId stateInfo taskShardId tx maps nextStates = Ok (tx', maps') ->
  begun tx' = begun tx
  /\ latest_process_executions (store tx') = latest_process_executions (store tx)
  /\ process_executions (store tx') = process_executions (store tx)
  /\ timer_tasks (store tx') = timer_tasks (store tx)
  /\ local_queue (store tx') = local_queue (store tx)
  /\ (exists rows,
        async_state_executions (store tx') = async_state_executions (store tx) ++ rows
        /\ Forall (fun r => StateProcessExecutionId r = prcExeId) rows
        /\ length rows = length nextStates)
  /\ (exists tasks,
        immediate_tasks (store tx') = immediate_tasks (store tx) ++ tasks
        /\ length tasks = length nextStates)
  /\ (nextStates = [] -> maps' = maps)
  /\ ((0 < pending_len maps)%nat \/ nextStates <> [] -> (0 < pending_len maps')%nat).
Proof.
  induction nextStates as [|next nextStates IH]; intros tx tx' maps maps'; cbn [startNextStates].
  - intros [= <- <-]. repeat split; auto.
    + exists []. rewrite app_nil_r. auto.
    + exists []. rewrite app_nil_r. auto.
    + intros [Hp|Hn]; [exact Hp | contradiction].
  - unfold startNextState, insertAsyncStateExecution, InsertAsyncStateExecution,
      insertImmediateTask, InsertImmediateTask.
    destruct (existsb _ _); [discriminate|].
    cbn [mbind result_bind fst snd]. intros Hrest.
    apply IH in Hrest as (Hb & Hl & Hp & Ht & Hq & (rows & Ha & Hrows & Hn)
                          & (tasks & Hi & Hm) & _ & Hpos).
    cbn in Hb, Hl, Hp, Ht, Hq, Ha, Hi.
    repeat split; auto.
    + eexists (_ :: rows). rewrite Ha, <- app_assoc. cbn. split; [reflexivity|].
      split; [constructor; [reflexivity | exact Hrows] | lia].
    + eexists (_ :: tasks). rewrite Hi, <- app_assoc. cbn. split; [reflexivity | lia].
    + discriminate.
    + intros _. apply Hpos. left. apply StartNewStateExecution_pending.
Qed.

Lemma closeThread_id (prcRow : ProcessExecutionRowForUpdate)
    (maps : StateExecutionSequenceMaps) (decision : StateDecision) :
  ProcessExecutionId (outcomeRow (closeThread prcRow maps decision)) = ProcessExecutionId prcRow.
Proof.
  unfold closeThread.
  destruct (ThreadClose decision) as [[[]]|], (WaitToComplete prcRow),
    (bool_decide (pending_len maps = 0%nat)); reflexivity.
Qed.

(** The status only changes together with an empty pending map. *)
Lemma closeThread_status (prcRow : ProcessExecutionRowForUpdate)
    (maps : StateExecutionSequenceMaps) (decision : StateDecision) :
  Status (outcomeRow (closeThread prcRow maps decision)) = Status prcRow
  \/ PendingExecutionMap (outcomeMaps (closeThread prcRow maps decision)) = ∅.
Proof.
  unfold closeThread.
  destruct (bool_decide (pending_len maps = 0%nat)) eqn:Hlen.
  - right. apply bool_decide_eq_true in Hlen. apply map_size_empty_iff in Hlen.
    destruct (ThreadClose decision) as [[[]]|], (WaitToComplete prcRow); cbn; auto.
  - destruct (ThreadClose decision) as [[[]]|], (WaitToComplete prcRow); cbn;
      rewrite ?Hlen; cbn; auto.
Qed.

Lemma UpdateProcessExecution_rows (row : ProcessExecutionRowForUpdate) (tx tx' : Tx) :
  UpdateProcessExecution row tx = Ok tx' ->
  begun tx' = begun tx
  /\ async_state_executions (store tx') = async_state_executions (store tx)
  /\ immediate_tasks (store tx') = immediate_tasks (store tx)
  /\ Forall (fun r => RowProcessExecutionId r = ProcessExecutionId row ->
                      RowStatus r = Status row
                      /\ RowStateExecutionSequenceMaps r = SequenceMaps row)
            (process_executions (store tx')).
Proof.
  unfold UpdateProcessExecution. intros [= <-]. cbn. repeat split; auto.
  induction (process_executions (store tx)) as [|r rows IH]; cbn; constructor; [|exact IH].
  destruct (bool_decide (RowProcessExecutionId r = ProcessExecutionId row)) eqn:Hid.
  - intros _. split; reflexivity.
  - apply bool_decide_eq_false in Hid. intros Heq. contradiction.
Qed.

Lemma SelectProcessExecutionForUpdate_id (processExecutionId : UUID) (tx : Tx)
    (prcRow : ProcessExecutionRowForUpdate) :
  SelectProcessExecutionForUpdate processExecutionId tx = Ok prcRow ->
  ProcessExecutionId prcRow = processExecutionId.
Proof.
  unfold SelectProcessExecutionForUpdate.
  destruct (List.find _ _) as [r|] eqn:Hfind; [|discriminate].
  intros [= <-]. cbn. apply find_some in Hfind as [_ Hid].
  apply bool_decide_eq_true in Hid. exact Hid.
Qed.

(** The statements a successful [doCompleteExecuteExecutionTx] has run. *)
Lemma doCompleteExecuteExecutionTx_inv (tx tx' : Tx)
    (request : CompleteExecuteExecutionRequest) (resp : CompleteExecuteExecutionResponse) :
  doCompleteExecuteExecutionTx tx request = Ok (tx', resp) ->
  let processExecutionId := ExecuteProcessExecutionId request in
  let stateId := persistence.StateId (ExecuteStateExecutionId request) in
  let stateIdSequence := persistence.StateIdSequence (ExecuteStateExecutionId request) in
  exists prcRow tx1 maps1 tx2 maps2 tx3 tx4,
    SelectProcessExecutionForUpdate processExecutionId tx = Ok prcRow
    /\ UpdateAsyncStateExecutionWithoutCommands
         {| PlainProcessExecutionId := processExecutionId;
            PlainStateId := stateId;
            PlainStateIdSequence := stateIdSequence;
            PlainStatus := StateExecutionCompleted;
            PlainPreviousVersion := persistence.PreviousVersion (ExecutePrepare request);
            PlainLastFailure := None |} tx = Ok tx1
    /\ CompleteNewStateExecution stateId stateIdSequence (SequenceMaps prcRow) = Ok maps1
    /\ startNextStates processExecutionId (persistence.Info (ExecutePrepare request))
         (ExecuteTaskShardId request) tx1 maps1 (NextStates (ExecuteStateDecision request))
       = Ok (tx2, maps2)
    /\ (if outcomeAbortRunningAsyncStates
             (closeThread prcRow maps2 (ExecuteStateDecision request))
        then BatchUpdateAsyncStateExecutionsToAbortRunning processExecutionId tx2
        else Ok tx2) = Ok tx3
    /\ UpdateProcessExecution
         (with_SequenceMaps
            (outcomeRow (closeThread prcRow maps2 (ExecuteStateDecision request)))
            (outcomeMaps (closeThread prcRow maps2 (ExecuteStateDecision request)))) tx3
       = Ok tx4
    /\ publishToLocalQueue tx4 processExecutionId (ExecutePublishToLocalQueue request) = Ok tx'.
Proof.
  unfold doCompleteExecuteExecutionTx. cbv zeta.
  destruct (SelectProcessExecutionForUpdate _ tx) as [prcRow|] eqn:Hsel; [|discriminate].
  cbn [mbind result_bind].
  destruct (UpdateAsyncStateExecutionWithoutCommands _ tx) as [tx1|] eqn:Hupd; [|discriminate].
  cbn [mbind result_bind].
  destruct (CompleteNewStateExecution _ _ _) as [maps1|] eqn:Hdone; [|discriminate].
  cbn [mbind result_bind].
  destruct (startNextStates _ _ _ tx1 maps1 _) as [[tx2 maps2]|] eqn:Hnext; [|discriminate].
  cbn [mbind result_bind fst snd].
  match goal with
  | |- context [if ?b then BatchUpdateAsyncStateExecutionsToAbortRunning ?p ?t else Ok ?t] =>
      destruct (if b then BatchUpdateAsyncStateExecutionsToAbortRunning p t else Ok t)
        as [tx3|] eqn:Habort; [|discriminate]
  end.
  cbn [mbind result_bind].
  destruct (UpdateProcessExecution _ tx3) as [tx4|] eqn:Hprc; [|discriminate].
  cbn [mbind result_bind].
  destruct (publishToLocalQueue tx4 _ _) as [tx5|] eqn:Hpub; [|discriminate].
  cbn [mbind result_bind]. intros [= <- _].
  exists prcRow, tx1, maps1, tx2, maps2, tx3, tx4. auto 10.
Qed.

Lemma CompleteExecuteExecution_error_rolls_back (db db' : DB)
    (request : CompleteExecuteExecutionRequest) (err : error) :
  CompleteExecuteExecution db request = (db', Err err) -> db' = db.
Proof.
  unfold CompleteExecuteExecution.
  destruct (doCompleteExecuteExecutionTx _ request) as [[tx resp]|e]; [discriminate|].
  intros [= <- _]. reflexivity.
Qed.

(** C5, as amended.  When the process row is there and the state execution
    being completed is absent from its pending-execution map,
    [CompleteExecuteExecution] fails and rolls back, leaving every table as it
    was.  If the conditional update of the state-execution row went through
    (one row at the prepared version), the error is the data-corruption error
    that carries the state execution and the maps of the process; if it did
    not, the error is the conditional-update failure, which comes first. *)
Theorem completing_absent_state_rolls_back (db : DB)
    (request : CompleteExecuteExecutionRequest) (prcRow : ProcessExecutionRowForUpdate) :
  let processExecutionId := ExecuteProcessExecutionId request in
  let stateId := persistence.StateId (ExecuteStateExecutionId request) in
  let stateIdSequence := persistence.StateIdSequence (ExecuteStateExecutionId request) in
  let previousVersion := persistence.PreviousVersion (ExecutePrepare request) in
  let selected := versioned_where processExecutionId stateId stateIdSequence previousVersion in
  SelectProcessExecutionForUpdate processExecutionId (StartTransaction db) = Ok prcRow ->
  pending stateId stateIdSequence (SequenceMaps prcRow) = false ->
  CompleteExecuteExecution db request
  = (db,
     Err (if decide (length (List.filter selected (async_state_executions db)) = 1%nat)
          then ErrCompletingNonExisting stateId stateIdSequence (SequenceMaps prcRow)
                 (ErrStateNotPending (PendingExecutionMap (SequenceMaps prcRow)))
          else conditionalUpdateFailure)).
Proof.
  cbv zeta. intros Hsel Habsent.
  unfold CompleteExecuteExecution, doCompleteExecuteExecutionTx. cbv zeta.
  rewrite Hsel. cbn [mbind result_bind].
  unfold UpdateAsyncStateExecutionWithoutCommands, sql_update.
  cbn [PlainProcessExecutionId PlainStateId PlainStateIdSequence PlainStatus
       PlainPreviousVersion PlainLastFailure StartTransaction store].
  case_decide as Hone.
  - rewrite (bool_decide_eq_false_2 (length _ <> 1%nat))
      by (intros Hne; apply Hne; exact Hone).
    cbn [mbind result_bind].
    rewrite (CompleteNewStateExecution_absent _ _ _ Habsent). reflexivity.
  - rewrite (bool_decide_eq_true_2 (length _ <> 1%nat)) by exact Hone. reflexivity.
Qed.

(** C2.  Take a process row that is Running or, if it is not, has an empty
    pending-execution map.  Whenever [CompleteExecuteExecution] succeeds on it,
    the process was Running, and every row of the process it has written
    either still is Running or carries an empty pending-execution map: the
    process leaves Running only in a transaction that leaves the map empty,
    and no row with a terminal status and a non-empty map is written. *)
Theorem terminal_status_has_empty_pending_map (db db' : DB)
    (request : CompleteExecuteExecutionRequest) (resp : CompleteExecuteExecutionResponse)
    (prcRow : ProcessExecutionRowForUpdate) :
  CompleteExecuteExecution db request = (db', Ok resp) ->
  SelectProcessExecutionForUpdate (ExecuteProcessExecutionId request) (StartTransaction db)
    = Ok prcRow ->
  (Status prcRow <> ProcessExecutionStatusRunning ->
   PendingExecutionMap (SequenceMaps prcRow) = ∅) ->
  Status prcRow = ProcessExecutionStatusRunning
  /\ Forall (fun r =>
               RowProcessExecutionId r = ExecuteProcessExecutionId request ->
               RowStatus r <> ProcessExecutionStatusRunning ->
               PendingExecutionMap (RowStateExecutionSequenceMaps r) = ∅)
            (process_executions db').
Proof.
  unfold CompleteExecuteExecution.
  destruct (doCompleteExecuteExecutionTx _ request) as [[tx' resp']|e] eqn:Hdo; [|discriminate].
  intros [= <- _] Hsel Hinv.
  apply doCompleteExecuteExecutionTx_inv in Hdo. cbv zeta in Hdo.
  destruct Hdo as (prcRow' & tx1 & maps1 & tx2 & maps2 & tx3 & tx4
                   & Hsel' & _ & Hdone & _ & _ & Hprc & Hpub).
  rewrite Hsel in Hsel'. injection Hsel' as <-.
  assert (Hrun : Status prcRow = ProcessExecutionStatusRunning).
  { destruct (decide (Status prcRow = ProcessExecutionStatusRunning)) as [Hr|Hr]; [exact Hr|].
    exfalso. apply (CompleteNewStateExecution_some_pending _ _ _ _ Hdone). auto. }
  split; [exact Hrun|].
  destruct (publishToLocalQueue_spec (ExecutePublishToLocalQueue request) tx4
              (ExecuteProcessExecutionId request))
    as (tx5 & tasks & Hpub' & _ & _ & Hp & _).
  rewrite Hpub in Hpub'. injection Hpub' as <-.
  unfold Commit. rewrite Hp.
  apply UpdateProcessExecution_rows in Hprc as (_ & _ & _ & Hrows).
  eapply Forall_impl; [exact Hrows|].
  intros r Hr Hid Hterminal.
  unfold with_SequenceMaps in Hr. cbn [ProcessExecutionId Status SequenceMaps] in Hr.
  rewrite closeThread_id, (SelectProcessExecutionForUpdate_id _ _ _ Hsel) in Hr.
  destruct (Hr Hid) as [Hstatus Hmaps].
  rewrite Hmaps.
  destruct (closeThread_status prcRow maps2 (ExecuteStateDecision request)) as [Hsame|Hempty];
    [|exact Hempty].
  exfalso. apply Hterminal. rewrite Hstatus, Hsame. exact Hrun.
Qed.

Lemma closeThread_force (prcRow : ProcessExecutionRowForUpdate)
    (maps : StateExecutionSequenceMaps) (decision : StateDecision)
    (closeType : ThreadCloseType) :
  ThreadClose decision = Some {| CloseType := closeType |} ->
  closeType = FORCE_COMPLETE_PROCESS \/ closeType = FORCE_FAIL_PROCESS ->
  (0 < pending_len maps)%nat ->
  closeThread prcRow maps decision
  = {| outcomeRow :=
         with_Status prcRow
           match closeType with
           | FORCE_FAIL_PROCESS => ProcessExecutionStatusFailed
           | _ => ProcessExecutionStatusCompleted
           end;
       outcomeMaps := clear_pending maps;
       outcomeGracefullyComplete := false;
       outcomeAbortRunningAsyncStates := true |}.
Proof.
  intros Hclose Hforce Hlen. unfold closeThread. rewrite Hclose.
  rewrite (bool_decide_eq_false_2 (pending_len maps = 0%nat)) by lia.
  rewrite andb_false_r. cbn [negb CloseType].
  rewrite (bool_decide_eq_true_2 (0 < pending_len maps)%nat) by exact Hlen.
  destruct Hforce as [-> | ->]; reflexivity.
Qed.

Lemma abort_running_leaves_none_running (r : AsyncStateExecutionRow) :
  has_running (abort_running r) = false.
Proof.
  unfold abort_running, has_running; cbn.
  destruct (WaitUntilStatus r), (ExecuteStatus r); reflexivity.
Qed.

(** C8.  Let [CompleteExecuteExecution] succeed on a decision that closes
    the thread with FORCE_COMPLETE_PROCESS or FORCE_FAIL_PROCESS while, with
    the completed state execution removed, the pending-execution map is not
    empty.  Then in the committed database every row of the process has
    status Completed (respectively Failed) and an empty pending-execution map,
    and the state-execution rows are those the transaction held before the
    batch statement (the table with the completed row updated, then the rows
    of the next states) with each row of the process that had a phase in
    Running rewritten by the batch statement and every other row untouched.
    The batch statement turns a phase that is Running into Aborted, leaves any
    other phase, and adds one to the version; no row of the process is left
    with a phase in Running. *)
Theorem force_close_aborts_running_states (db db' : DB)
    (request : CompleteExecuteExecutionRequest) (resp : CompleteExecuteExecutionResponse)
    (prcRow : ProcessExecutionRowForUpdate) (maps : StateExecutionSequenceMaps)
    (closeType : ThreadCloseType) :
  let processExecutionId := ExecuteProcessExecutionId request in
  let stateId := persistence.StateId (ExecuteStateExecutionId request) in
  let stateIdSequence := persistence.StateIdSequence (ExecuteStateExecutionId request) in
  let previousVersion := persistence.PreviousVersion (ExecutePrepare request) in
  CompleteExecuteExecution db request = (db', Ok resp) ->
  ThreadClose (ExecuteStateDecision request) = Some {| CloseType := closeType |} ->
  closeType = FORCE_COMPLETE_PROCESS \/ closeType = FORCE_FAIL_PROCESS ->
  SelectProcessExecutionForUpdate processExecutionId (StartTransaction db) = Ok prcRow ->
  CompleteNewStateExecution stateId stateIdSequence (SequenceMaps prcRow) = Ok maps ->
  (0 < pending_len maps)%nat ->
  Forall (fun r =>
            RowProcessExecutionId r = processExecutionId ->
            RowStatus r = match closeType with
                          | FORCE_FAIL_PROCESS => ProcessExecutionStatusFailed
                          | _ => ProcessExecutionStatusCompleted
                          end
            /\ PendingExecutionMap (RowStateExecutionSequenceMaps r) = ∅)
         (process_executions db')
  /\ (exists inserted,
        Forall (fun r => StateProcessExecutionId r = processExecutionId) inserted
        /\ length inserted = length (NextStates (ExecuteStateDecision request))
        /\ Forall2 (fun r r' =>
                      r' = if bool_decide (StateProcessExecutionId r = processExecutionId)
                              && has_running r
                           then abort_running r else r)
             (fst (sql_update
                     (versioned_where processExecutionId stateId stateIdSequence previousVersion)
                     (versioned_set StateExecutionCompleted previousVersion None)
                     (async_state_executions db)) ++ inserted)
             (async_state_executions db'))
  /\ Forall (fun r' => StateProcessExecutionId r' = processExecutionId ->
                       has_running r' = false)
            (async_state_executions db')
  /\ (forall r,
        WaitUntilStatus (abort_running r)
        = (if decide (WaitUntilStatus r = StateExecutionStatusRunning)
           then StateExecutionStatusAborted else WaitUntilStatus r)
        /\ ExecuteStatus (abort_running r)
           = (if decide (ExecuteStatus r = StateExecutionStatusRunning)
              then StateExecutionStatusAborted else ExecuteStatus r)
        /\ PreviousVersion (abort_running r)
           = (if has_running r then PreviousVersion r + 1 else PreviousVersion r)).
Proof.
  cbv zeta. unfold CompleteExecuteExecution.
  destruct (doCompleteExecuteExecutionTx _ request) as [[tx' resp']|e] eqn:Hdo; [|discriminate].
  intros [= <- _] Hclose Hforce Hsel Hdone Hlen.
  apply doCompleteExecuteExecutionTx_inv in Hdo. cbv zeta in Hdo.
  destruct Hdo as (prcRow' & tx1 & maps1 & tx2 & maps2 & tx3 & tx4
                   & Hsel' & Hupd & Hdone' & Hnext & Habort & Hprc & Hpub).
  rewrite Hsel in Hsel'. injection Hsel' as <-.
  rewrite Hdone in Hdone'. injection Hdone' as <-.
  apply startNextStates_spec in Hnext
    as (_ & _ & _ & _ & _ & (inserted & Ha2 & Hins & Hn) & _ & _ & Hpos).
  specialize (Hpos (or_introl Hlen)).
  rewrite (closeThread_force _ _ _ _ Hclose Hforce Hpos) in Habort, Hprc.
  cbn [outcomeAbortRunningAsyncStates outcomeRow outcomeMaps] in Habort, Hprc.
  unfold BatchUpdateAsyncStateExecutionsToAbortRunning in Habort. injection Habort as <-.
  apply UpdateProcessExecution_rows in Hprc as (_ & Ha4 & _ & Hrows).
  destruct (publishToLocalQueue_spec (ExecutePublishToLocalQueue request) tx4
              (ExecuteProcessExecutionId request))
    as (tx5 & tasks & Hpub' & _ & _ & Hp & Ha5 & _).
  rewrite Hpub in Hpub'. injection Hpub' as <-.
  unfold Commit. rewrite Hp, Ha5, Ha4. cbn [with_async_state_executions with_store store].
  unfold UpdateAsyncStateExecutionWithoutCommands in Hupd.
  cbn [PlainProcessExecutionId PlainStateId PlainStateIdSequence PlainStatus
       PlainPreviousVersion PlainLastFailure StartTransaction store] in Hupd.
  destruct (sql_update _ _ (async_state_executions db)) as [updated effected] eqn:Hsql.
  destruct (bool_decide (effected <> 1%nat)); [discriminate|]. injection Hupd as <-.
  cbn in Ha2. rewrite Ha2. cbn [fst].
  split; [|split; [|split]].
  - eapply Forall_impl; [exact Hrows|].
    intros r Hr Hid. cbn in Hr.
    rewrite (SelectProcessExecutionForUpdate_id _ _ _ Hsel) in Hr.
    destruct (Hr Hid) as [-> ->]. split; reflexivity.
  - exists inserted. split; [exact Hins|]. split; [exact Hn|].
    generalize (updated ++ inserted). intros rows.
    induction rows as [|r rows IH]; cbn; constructor; [|exact IH].
    destruct (bool_decide (StateProcessExecutionId r = ExecuteProcessExecutionId request));
      cbn [andb]; [|reflexivity].
    destruct (has_running r) eqn:Hrun; [reflexivity|].
    apply abort_running_idle. exact Hrun.
  - generalize (updated ++ inserted). intros rows.
    induction rows as [|r rows IH]; cbn; constructor; [|exact IH].
    destruct (bool_decide (StateProcessExecutionId r = ExecuteProcessExecutionId request))
      eqn:Hid.
    + intros _. apply abort_running_leaves_none_running.
    + apply bool_decide_eq_false in Hid. intros Heq. contradiction.
  - intros r. split; [|split].
    + cbn. destruct (WaitUntilStatus r); reflexivity.
    + cbn. destruct (ExecuteStatus r); reflexivity.
    + apply abort_running_version.
Qed.

End store_facts.

(** ** The store on concrete databases *)

(** S1 force-fails a process while S2 is in its wait-until phase: the
    process is Failed with nothing pending, S1 is completed at version 2 and
    the running phase of S2 is aborted at version 2. *)
Example force_fail_aborts_sibling :
  sql.CompleteExecuteExecution examples.two_running
    (examples.execute_request "S1" 1 (examples.close_with xdbapi.FORCE_FAIL_PROCESS))
  = (examples.force_failed, Ok {| sql.HasNewImmediateTask := false |}).
Proof. vm_compute. reflexivity. Qed.

(** A DEAD_END decision with another state execution pending leaves the
    process Running and aborts nothing. *)
Example dead_end_keeps_running :
  sql.CompleteExecuteExecution examples.two_running
    (examples.execute_request "S1" 1 (examples.close_with xdbapi.DEAD_END))
  = (examples.db_of
       (examples.process_row persistence.ProcessExecutionStatusRunning
          {| persistence.SequenceMap := <[ "S1" := 1 ]> {[ "S2" := 1 ]};
             persistence.PendingExecutionMap := {[ "S2" := {[ 1 := true ]} ]} |} false)
       [ examples.state_row "S1" 2 persistence.StateExecutionStatusCompleted
           persistence.StateExecutionStatusCompleted;
         examples.state_row "S2" 1 persistence.StateExecutionStatusRunning
           persistence.StateExecutionStatusUndefined ],
     Ok {| sql.HasNewImmediateTask := false |}).
Proof. vm_compute. reflexivity. Qed.

(** The force-fail above, read through the theorem. *)
Lemma force_close_aborts_running_states_witness :
  sql.CompleteExecuteExecution examples.two_running
    (examples.execute_request "S1" 1 (examples.close_with xdbapi.FORCE_FAIL_PROCESS))
  = (examples.force_failed, Ok {| sql.HasNewImmediateTask := false |})
  /\ Forall (fun r =>
               extensions.RowProcessExecutionId r = 1%N ->
               extensions.RowStatus r = persistence.ProcessExecutionStatusFailed
               /\ persistence.PendingExecutionMap (extensions.RowStateExecutionSequenceMaps r) = ∅)
            (extensions.process_executions examples.force_failed)
  /\ Forall (fun r => extensions.StateProcessExecutionId r = 1%N ->
                      postgres.has_running r = false)
            (extensions.async_state_executions examples.force_failed).
Proof.
  assert (Hrun :
    sql.CompleteExecuteExecution examples.two_running
      (examples.execute_request "S1" 1 (examples.close_with xdbapi.FORCE_FAIL_PROCESS))
    = (examples.force_failed, Ok {| sql.HasNewImmediateTask := false |}))
    by (vm_compute; reflexivity).
  split; [exact Hrun|].
  destruct (force_close_aborts_running_states
              examples.two_running examples.force_failed
              (examples.execute_request "S1" 1 (examples.close_with xdbapi.FORCE_FAIL_PROCESS))
              {| sql.HasNewImmediateTask := false |}
              (examples.locked_row persistence.ProcessExecutionStatusRunning
                 examples.both_pending false)
              {| persistence.SequenceMap := <[ "S1" := 1 ]> {[ "S2" := 1 ]};
                 persistence.PendingExecutionMap := {[ "S2" := {[ 1 := true ]} ]} |}
              xdbapi.FORCE_FAIL_PROCESS)
    as (Hprocess & _ & Hstates & _).
  - exact Hrun.
  - reflexivity.
  - right. reflexivity.
  - vm_compute. reflexivity.
  - vm_compute. reflexivity.
  - vm_compute. lia.
  - split; [exact Hprocess | exact Hstates].
Defined.

(** The last state of a process armed for graceful completion completes:
    the process is Completed and nothing is pending. *)
Lemma terminal_status_has_empty_pending_map_witness :
  sql.CompleteExecuteExecution examples.last_state_running
    (examples.execute_request "S1" 1 examples.no_decision)
  = (examples.gracefully_completed, Ok {| sql.HasNewImmediateTask := false |})
  /\ Forall (fun r =>
               extensions.RowProcessExecutionId r = 1%N ->
               extensions.RowStatus r <> persistence.ProcessExecutionStatusRunning ->
               persistence.PendingExecutionMap (extensions.RowStateExecutionSequenceMaps r) = ∅)
            (extensions.process_executions examples.gracefully_completed).
Proof.
  assert (Hrun :
    sql.CompleteExecuteExecution examples.last_state_running
      (examples.execute_request "S1" 1 examples.no_decision)
    = (examples.gracefully_completed, Ok {| sql.HasNewImmediateTask := false |}))
    by (vm_compute; reflexivity).
  split; [exact Hrun|].
  apply (terminal_status_has_empty_pending_map
           examples.last_state_running examples.gracefully_completed
           (examples.execute_request "S1" 1 examples.no_decision)
           {| sql.HasNewImmediateTask := false |}
           (examples.locked_row persistence.ProcessExecutionStatusRunning
              examples.only_S1_pending true)).
  - exact Hrun.
  - vm_compute. reflexivity.
  - intros Hterminal. exfalso. apply Hterminal. reflexivity.
Defined.

(** C5, as stated, fails: (S2, 1) is absent from the pending-execution map
    of the force-failed process, yet completing it from a snapshot taken at
    version 1 (the batch abort has since moved the row to version 2) returns
    the conditional-update failure, which is no data-corruption error and
    carries no map. *)
Lemma stale_completion_is_no_data_corruption :
  sequence_maps.pending "S2" 1 examples.none_pending = false
  /\ sql.CompleteExecuteExecution examples.force_failed
       (examples.execute_request "S2" 1 examples.no_decision)
     = (examples.force_failed, Err conditionalUpdateFailure)
  /\ ~ (exists stateId stateIdSequence currentMap err,
          conditionalUpdateFailure
          = ErrCompletingNonExisting stateId stateIdSequence currentMap err).
Proof.
  split; [vm_compute; reflexivity|].
  split; [vm_compute; reflexivity|].
  intros (stateId & stateIdSequence & currentMap & err & Heq). discriminate Heq.
Qed.

(** A state execution of a force-failed process that was waiting when the
    process closed completes its execute phase at the stored version: the
    data-corruption error carries the maps, and nothing is written. *)
Lemma completing_absent_state_rolls_back_witness :
  sequence_maps.pending "S2" 1 examples.none_pending = false
  /\ sql.CompleteExecuteExecution examples.late_execution
       (examples.execute_request "S2" 3 examples.no_decision)
     = (examples.late_execution,
        Err (ErrCompletingNonExisting "S2" 1 examples.none_pending
               (ErrStateNotPending ∅))).
Proof.
  split; [vm_compute; reflexivity|].
  pose proof (completing_absent_state_rolls_back examples.late_execution
                (examples.execute_request "S2" 3 examples.no_decision)
                (examples.locked_row persistence.ProcessExecutionStatusFailed
                   examples.none_pending false)) as Hfail.
  cbv zeta in Hfail.
  rewrite Hfail; [| vm_compute; reflexivity | vm_compute; reflexivity].
  rewrite decide_True by (vm_compute; reflexivity).
  reflexivity.
Defined.

(** The wait-until phase of S2 returns an empty command request. *)
Lemma empty_command_completes_wait_until_witness :
  exists db' published,
    sql.ProcessWaitUntilExecution (localQueue := examples.localQueue)
      examples.two_running examples.empty_command_request
    = (db', Ok {| sql.WaitUntilHasNewImmediateTask := true |})
    /\ extensions.immediate_tasks db'
       = {| extensions.TaskShardId := 0;
            extensions.TaskType := persistence.ImmediateTaskTypeExecute;
            extensions.TaskProcessExecutionId := 1%N;
            extensions.TaskStateId := "S2";
            extensions.TaskStateIdSequence := 1;
            extensions.TaskInfo := None |} :: published
    /\ length published = 1%nat.
Proof.
  pose proof (empty_command_completes_wait_until (localQueue := examples.localQueue)
                examples.two_running examples.empty_command_request eq_refl) as Hdone.
  cbv zeta in Hdone.
  rewrite decide_True in Hdone by (vm_compute; reflexivity).
  destruct Hdone as (db' & published & Hrun & _ & Htasks & _ & Hlen & _).
  exists db', published. split; [exact Hrun|]. split; [exact Htasks | exact Hlen].
Defined.

(** The same call, evaluated: S2 moves to the execute phase at version 2,
    and the tasks are the Execute task of S2 and the task of the published
    message. *)
Example empty_command_rows :
  let after := (sql.ProcessWaitUntilExecution (localQueue := examples.localQueue)
                  examples.two_running examples.empty_command_request).1 in
  extensions.async_state_executions after
  = [ examples.state_row "S1" 1 persistence.StateExecutionStatusSkipped
        persistence.StateExecutionStatusRunning;
      examples.state_row "S2" 2 persistence.StateExecutionStatusCompleted
        persistence.StateExecutionStatusRunning ]
  /\ map extensions.TaskType (extensions.immediate_tasks after)
     = [ persistence.ImmediateTaskTypeExecute;
         persistence.ImmediateTaskTypeNewLocalQueueMessage ].
Proof. vm_compute. split; reflexivity. Qed.

(** * Further properties of the code *)

(** ** Timer-task pages *)

Section timer_page_facts.
Import timer_tasks.
Context {codec : TimerTaskCodec}.

Lemma toTimerTasks_ok (shardId : Z) (rows : list timer_rows.TimerTaskRow) :
  forall acc tasks,
  toTimerTasks shardId rows acc = Ok tasks ->
  exists new, tasks = acc ++ new /\ Forall2 (task_for shardId) rows new.
Proof.
  induction rows as [|t rows IH]; intros acc tasks; cbn [toTimerTasks].
  - intros [= <-]. exists []. rewrite app_nil_r. split; [reflexivity | constructor].
  - destruct (BytesToTimerTaskInfo (timer_rows.Info t)) as [info|e] eqn:Hinfo; [|discriminate].
    cbn [mbind result_bind]. intros Hrest.
    apply IH in Hrest as (new & -> & Hnew).
    eexists (_ :: new). rewrite <- app_assoc. split; [reflexivity|].
    constructor; [|exact Hnew]. exists info. split; [exact Hinfo | reflexivity].
Qed.

Lemma toTimerTasks_err (shardId : Z) (rows : list timer_rows.TimerTaskRow) :
  forall acc e,
  toTimerTasks shardId rows acc = Err e ->
  exists before t after,
    rows = before ++ t :: after
    /\ BytesToTimerTaskInfo (timer_rows.Info t) = Err e
    /\ Forall decodes before.
Proof.
  induction rows as [|t rows IH]; intros acc e; cbn [toTimerTasks]; [discriminate|].
  destruct (BytesToTimerTaskInfo (timer_rows.Info t)) as [info|e'] eqn:Hinfo.
  - cbn [mbind result_bind]. intros Hrest.
    apply IH in Hrest as (before & t' & after & -> & Ht' & Hbefore).
    exists (t :: before), t', after. split; [reflexivity|]. split; [exact Ht'|].
    constructor; [exists info; exact Hinfo | exact Hbefore].
  - cbn [mbind result_bind]. intros [= <-].
    exists [], t, rows. split; [reflexivity|]. split; [exact Hinfo | constructor].
Qed.

Lemma sequenceBounds_fold (rows : list timer_rows.TimerTaskRow) :
  forall mn mx,
  let bounds :=
    fold_left
      (fun bounds t =>
         (if timer_rows.TaskSequence t <? bounds.1 then timer_rows.TaskSequence t else bounds.1,
          if bounds.2 <? timer_rows.TaskSequence t then timer_rows.TaskSequence t else bounds.2))
      rows (mn, mx) in
  bounds.1 <= mn /\ mx <= bounds.2
  /\ Forall (fun t => bounds.1 <= timer_rows.TaskSequence t <= bounds.2) rows
  /\ (bounds.1 = mn \/ Exists (fun t => timer_rows.TaskSequence t = bounds.1) rows)
  /\ (bounds.2 = mx \/ Exists (fun t => timer_rows.TaskSequence t = bounds.2) rows).
Proof.
  induction rows as [|t rows IH]; intros mn mx; cbn [fold_left fst snd].
  - cbn. repeat split; auto; lia.
  - set (mn1 := if timer_rows.TaskSequence t <? mn then timer_rows.TaskSequence t else mn).
    set (mx1 := if mx <? timer_rows.TaskSequence t then timer_rows.TaskSequence t else mx).
    specialize (IH mn1 mx1). cbv zeta in IH |- *.
    destruct IH as (Hmn & Hmx & Hall & Hmin & Hmax).
    assert (Hmn1 : mn1 <= mn /\ mn1 <= timer_rows.TaskSequence t
                   /\ (mn1 = mn \/ mn1 = timer_rows.TaskSequence t)).
    { subst mn1. destruct (Z.ltb_spec (timer_rows.TaskSequence t) mn); lia. }
    assert (Hmx1 : mx <= mx1 /\ timer_rows.TaskSequence t <= mx1
                   /\ (mx1 = mx \/ mx1 = timer_rows.TaskSequence t)).
    { subst mx1. destruct (Z.ltb_spec mx (timer_rows.TaskSequence t)); lia. }
    split; [lia|]. split; [lia|]. split; [constructor; [lia | exact Hall]|].
    split.
    + destruct Hmin as [Heq | Hex]; [|right; constructor 2; exact Hex].
      destruct Hmn1 as (_ & _ & [Hsame | Ht]); [left; congruence|].
      right. constructor 1. congruence.
    + destruct Hmax as [Heq | Hex]; [|right; constructor 2; exact Hex].
      destruct Hmx1 as (_ & _ & [Hsame | Ht]); [left; congruence|].
      right. constructor 1. congruence.
Qed.

Lemma createGetTimerTaskResponse_tasks (shardId : Z)
    (rows : list timer_rows.TimerTaskRow) (reqPageSize : option Z)
    (resp : GetTimerTasksResponse) :
  createGetTimerTaskResponse shardId rows reqPageSize = Ok resp ->
  Forall2 (task_for shardId) rows (Tasks resp)
  /\ MinSequenceInclusive resp = (if rows is [] then 0 else (sequenceBounds rows).1)
  /\ MaxSequenceInclusive resp = (if rows is [] then 0 else (sequenceBounds rows).2)
  /\ MinFireTimestampSecondsInclusive resp
     = (if rows is t :: _ then timer_rows.FireTimeUnixSeconds t else 0)
  /\ MaxFireTimestampSecondsInclusive resp
     = (if rows is t :: _ then timer_rows.FireTimeUnixSeconds (List.last rows t) else 0)
  /\ FullPage resp
     = (if reqPageSize is Some n then bool_decide (Z.of_nat (length rows) = n) else false).
Proof.
  unfold createGetTimerTaskResponse.
  destruct (toTimerTasks shardId rows []) as [tasks|e] eqn:Htasks; [|discriminate].
  cbn [mbind result_bind].
  apply toTimerTasks_ok in Htasks as (new & -> & Hnew). cbn [app].
  destruct rows as [|t rows]; intros [= <-]; cbn; auto 10.
Qed.

(** X1.  In a page [createGetTimerTaskResponse] builds from at least one row,
    every task carries a sequence number between [MinSequenceInclusive] and
    [MaxSequenceInclusive]; and when the sequence numbers of the rows are
    [int64] values, both bounds are the sequence numbers of tasks of the
    page. *)
Theorem timer_page_sequence_bounds (shardId : Z)
    (rows : list timer_rows.TimerTaskRow) (reqPageSize : option Z)
    (resp : GetTimerTasksResponse) :
  rows <> [] ->
  Forall (fun t => MinInt64 <= timer_rows.TaskSequence t <= MaxInt64) rows ->
  createGetTimerTaskResponse shardId rows reqPageSize = Ok resp ->
  Forall (fun task => exists s, TaskSequence task = Some s
                                /\ MinSequenceInclusive resp <= s <= MaxSequenceInclusive resp)
         (Tasks resp)
  /\ Exists (fun task => TaskSequence task = Some (MinSequenceInclusive resp)) (Tasks resp)
  /\ Exists (fun task => TaskSequence task = Some (MaxSequenceInclusive resp)) (Tasks resp).
Proof.
  intros Hne Hrange Hresp.
  apply createGetTimerTaskResponse_tasks in Hresp as (Htasks & Hmin & Hmax & _).
  destruct rows as [|t0 rows0] eqn:Hrows; [contradiction|]. rewrite <- Hrows in *.
  assert (Hmin' : MinSequenceInclusive resp = (sequenceBounds rows).1)
    by (rewrite Hmin, Hrows; reflexivity).
  assert (Hmax' : MaxSequenceInclusive resp = (sequenceBounds rows).2)
    by (rewrite Hmax, Hrows; reflexivity).
  clear Hmin Hmax.
  destruct (sequenceBounds_fold rows MaxInt64 MinInt64) as (Hle & Hge & Hall & Hlo & Hhi).
  cbv zeta in Hle, Hge, Hall, Hlo, Hhi.
  fold (sequenceBounds rows) in Hle, Hge, Hall, Hlo, Hhi.
  rewrite <- Hmin', <- Hmax' in *.
  assert (Hex : forall P Q,
            (forall t task, task_for shardId t task -> P t -> Q task) ->
            Exists P rows -> Exists Q (Tasks resp)).
  { intros P Q HPQ. clear -Htasks HPQ.
    induction Htasks as [|t task rows' tasks' Ht _ IH]; intros Hex; inversion Hex; subst.
    - constructor 1. eapply HPQ; eassumption.
    - constructor 2. apply IH. assumption. }
  assert (Hrow0 : exists t, t ∈ rows).
  { rewrite Hrows. exists t0. constructor. }
  destruct Hrow0 as (t & Hin).
  pose proof (proj1 (Forall_forall _ _) Hrange t Hin) as Ht.
  pose proof (proj1 (Forall_forall _ _) Hall t Hin) as Ht'.
  cbv beta in Ht, Ht'.
  split; [|split].
  - clear -Htasks Hall.
    induction Htasks as [|t task rows' tasks' (info & _ & ->) _ IH]; constructor.
    + exists (timer_rows.TaskSequence t). split; [reflexivity|].
      inversion Hall; subst. assumption.
    + apply IH. inversion Hall; subst. assumption.
  - destruct Hlo as [Heq | Hlo].
    + apply (Hex (fun t => timer_rows.TaskSequence t = MaxInt64)).
      * intros t' task (info & _ & ->) Hseq. cbn. rewrite Hseq, Heq. reflexivity.
      * apply Exists_exists. exists t. split; [exact Hin | lia].
    + apply (Hex _ _ (fun t' task '(ex_intro _ info (conj _ Htask)) Hseq =>
                        eq_trans (f_equal TaskSequence Htask) (f_equal Some Hseq)) Hlo).
  - destruct Hhi as [Heq | Hhi].
    + apply (Hex (fun t => timer_rows.TaskSequence t = MinInt64)).
      * intros t' task (info & _ & ->) Hseq. cbn. rewrite Hseq, Heq. reflexivity.
      * apply Exists_exists. exists t. split; [exact Hin | lia].
    + apply (Hex _ _ (fun t' task '(ex_intro _ info (conj _ Htask)) Hseq =>
                        eq_trans (f_equal TaskSequence Htask) (f_equal Some Hseq)) Hhi).
Qed.

(** X2.  [createGetTimerTaskResponse] turns the rows into tasks one for
    one and in order: each task carries its row's fire time, sequence number,
    type, execution and state ids and decoded info, and the shard id of the
    call (not the row's).  [FullPage] is set exactly when a page size was
    asked for and the page has that many tasks, an empty page of size 0
    included.  The call fails only on a row whose info does not decode, with
    the error of the first such row. *)
Theorem timer_page_tasks_follow_rows (shardId : Z)
    (rows : list timer_rows.TimerTaskRow) (reqPageSize : option Z) :
  match createGetTimerTaskResponse shardId rows reqPageSize with
  | Ok resp =>
      Forall2 (task_for shardId) rows (Tasks resp)
      /\ (FullPage resp = true <-> reqPageSize = Some (Z.of_nat (length (Tasks resp))))
  | Err e =>
      exists before t after,
        rows = before ++ t :: after
        /\ BytesToTimerTaskInfo (timer_rows.Info t) = Err e
        /\ Forall decodes before
  end.
Proof.
  destruct (createGetTimerTaskResponse shardId rows reqPageSize) as [resp|e] eqn:Hresp.
  - apply createGetTimerTaskResponse_tasks in Hresp as (Htasks & _ & _ & _ & _ & Hfull).
    split; [exact Htasks|].
    rewrite Hfull, <- (Forall2_length _ _ _ Htasks).
    destruct reqPageSize as [n|]; [|split; discriminate].
    rewrite bool_decide_eq_true. split; [intros <-; reflexivity | intros [= <-]; reflexivity].
  - unfold createGetTimerTaskResponse in Hresp.
    destruct (toTimerTasks shardId rows []) as [tasks|e'] eqn:Htasks.
    + cbn [mbind result_bind] in Hresp. destruct rows; discriminate.
    + cbn [mbind result_bind] in Hresp. injection Hresp as <-.
      eapply toTimerTasks_err. exact Htasks.
Qed.

Lemma StronglySorted_last {A : Type} (R : A -> A -> Prop) (l : list A) (d : A) :
  (forall x, R x x) ->
  StronglySorted R l -> Forall (fun x => R x (List.last l d)) l.
Proof.
  intros Hrefl Hsorted. revert d.
  induction Hsorted as [|x l Hsorted IH Hx]; intros d; [constructor|].
  destruct l as [|y l]; [constructor; [apply Hrefl | constructor]|].
  change (List.last (x :: y :: l) d) with (List.last (y :: l) d).
  constructor; [|apply IH].
  specialize (IH d). rewrite Forall_forall in Hx, IH.
  assert (Hin : List.last (y :: l) d ∈ y :: l).
  { clear. revert y. induction l as [|z l IHl]; intros y; [constructor|].
    change (List.last (y :: z :: l) d) with (List.last (z :: l) d).
    constructor 2. apply IHl. }
  apply Hx. exact Hin.
Qed.

(** X3.  The selects of timer tasks order their rows by fire time.  On rows
    in that order, the fire time of every task of the page lies between
    [MinFireTimestampSecondsInclusive] and [MaxFireTimestampSecondsInclusive],
    which the code reads off the first and the last row. *)
Theorem timer_page_fire_time_bounds (shardId : Z)
    (rows : list timer_rows.TimerTaskRow) (reqPageSize : option Z)
    (resp : GetTimerTasksResponse) :
  StronglySorted
    (fun a b => timer_rows.FireTimeUnixSeconds a <= timer_rows.FireTimeUnixSeconds b) rows ->
  createGetTimerTaskResponse shardId rows reqPageSize = Ok resp ->
  Forall (fun task => MinFireTimestampSecondsInclusive resp <= FireTimestampSeconds task
                      /\ FireTimestampSeconds task <= MaxFireTimestampSecondsInclusive resp)
         (Tasks resp).
Proof.
  intros Hsorted Hresp.
  apply createGetTimerTaskResponse_tasks in Hresp as (Htasks & _ & _ & Hmin & Hmax & _).
  assert (Hrows : Forall (fun t => MinFireTimestampSecondsInclusive resp
                                   <= timer_rows.FireTimeUnixSeconds t
                                   /\ timer_rows.FireTimeUnixSeconds t
                                      <= MaxFireTimestampSecondsInclusive resp) rows).
  { destruct rows as [|t0 rows]; [constructor|].
    rewrite Hmin, Hmax.
    pose proof (StronglySorted_last _ _ t0 (fun x => Z.le_refl _) Hsorted) as Hlast.
    inversion Hsorted as [|? ? _ Hfirst]; subst.
    apply Forall_and. split; [|exact Hlast].
    constructor; [lia | exact Hfirst]. }
  clear -Htasks Hrows.
  induction Htasks as [|t task rows' tasks' (info & _ & ->) _ IH]; constructor.
  - inversion Hrows; subst. assumption.
  - apply IH. inversion Hrows; subst. assumption.
Qed.

End timer_page_facts.

(** ** The results of the wait-until commands *)

Section command_result_facts.
Import xdbapi command_results.

Lemma rangeAppend_lookup {Command Result : Type} (body : nat -> Command -> Result)
    (commands : list Command) :
  forall (idx : nat) (results : list Result) (i : nat),
  rangeAppend body idx commands results !! i
  = if decide (i < length results)%nat then results !! i
    else body (idx + (i - length results))%nat <$> (commands !! (i - length results)%nat).
Proof.
  induction commands as [|command commands IH]; intros idx results i; cbn [rangeAppend].
  - case_decide as Hi; [reflexivity|].
    rewrite lookup_nil. cbn. apply lookup_ge_None. lia.
  - rewrite IH. rewrite length_app. cbn [length].
    case_decide as Hi; case_decide as Hi'; try lia.
    + rewrite lookup_app_l by lia. reflexivity.
    + assert (i = length results) as -> by lia.
      rewrite lookup_app_r by lia. rewrite Nat.sub_diag. cbn.
      rewrite Nat.add_0_r. reflexivity.
    + destruct (i - length results)%nat as [|k] eqn:Hk; [lia|].
      cbn [lookup list_lookup].
      replace (i - (length results + 1))%nat with k by lia.
      replace (S idx + k)%nat with (idx + S k)%nat by lia. reflexivity.
Qed.

(** X4.  [prepareWaitUntilCommandResults] answers the commands of the
    request index by index: there is a timer result exactly for every timer
    command, WAITING when the store has recorded nothing under the command's
    index, COMPLETED when it has recorded that the timer fired and SKIPPED when
    it has recorded that it did not; and a local-queue result exactly for
    every local-queue command, with the command's queue name, COMPLETED with
    the recorded messages when there is a record under the index and WAITING
    without messages otherwise.  Records under other indices are dropped. *)
Theorem command_results_follow_commands (commandResultsJson : CommandResultsJson)
    (commandRequest : CommandRequest) (i : nat) :
  let results := prepareWaitUntilCommandResults commandResultsJson commandRequest in
  TimerResults results !! i
  = (fun _ =>
       {| TimerStatus :=
            match JsonTimerResults commandResultsJson !! Z.of_nat i with
            | None => WAITING_COMMAND
            | Some true => COMPLETED_COMMAND
            | Some false => SKIPPED_COMMAND
            end |}) <$> (TimerCommands commandRequest !! i)
  /\ LocalQueueResults results !! i
     = (fun command =>
          {| Status := if JsonLocalQueueResults commandResultsJson !! Z.of_nat i is Some _
                       then COMPLETED_COMMAND else WAITING_COMMAND;
             ResultQueueName := CommandQueueName command;
             Messages := default [] (JsonLocalQueueResults commandResultsJson !! Z.of_nat i) |})
       <$> (LocalQueueCommands commandRequest !! i)
  /\ length (TimerResults results) = length (TimerCommands commandRequest)
  /\ length (LocalQueueResults results) = length (LocalQueueCommands commandRequest).
Proof.
  cbv zeta. unfold prepareWaitUntilCommandResults. cbn [TimerResults LocalQueueResults].
  assert (Hlen : forall (Command Result : Type) (body : nat -> Command -> Result) commands,
            length (rangeAppend body 0 commands []) = length commands).
  { intros Command Result body commands.
    assert (H : forall idx results,
              length (rangeAppend body idx commands results)
              = (length results + length commands)%nat).
    { induction commands as [|c commands IH]; intros idx results; cbn [rangeAppend length].
      - lia.
      - rewrite IH, length_app. cbn. lia. }
    rewrite H. reflexivity. }
  split; [|split; [|split; apply Hlen]].
  - rewrite rangeAppend_lookup. cbn [length]. rewrite decide_False by lia.
    rewrite Nat.sub_0_r, Nat.add_0_l.
    destruct (TimerCommands commandRequest !! i); [|reflexivity]. cbn.
    unfold timerResult.
    destruct (JsonTimerResults commandResultsJson !! Z.of_nat i) as [[]|]; reflexivity.
  - rewrite rangeAppend_lookup. cbn [length]. rewrite decide_False by lia.
    rewrite Nat.sub_0_r, Nat.add_0_l.
    destruct (LocalQueueCommands commandRequest !! i); [|reflexivity]. cbn.
    unfold localQueueResult.
    destruct (JsonLocalQueueResults commandResultsJson !! Z.of_nat i); reflexivity.
Qed.

End command_result_facts.

(** ** The worker call of the immediate-task processor *)



Lemma string_length_append (s1 s2 : string) :
  String.length (s1 +:+ s2) = (String.length s1 + String.length s2)%nat.
Proof.
  induction s1 as [|c s1 IH]; [reflexivity|].
  change (String c s1 +:+ s2) with (String c (s1 +:+ s2)).
  cbn [String.length Nat.add]. f_equal. exact IH.
Qed.

Lemma string_length_prefix (n : nat) (s : string) :
  String.length (String.substring 0 n s) = Nat.min n (String.length s).
Proof.
  revert s. induction n as [|n IH]; intros [|c s]; cbn; try reflexivity.
  f_equal. apply IH.
Qed.

Section worker_call_facts.
Import xdbapi persistence processor immediate_task_processor.
Context {go : GoRuntime}.


(** X5.  Every task [processImmediateTask] hands to a handler that calls the
    worker gets a timeout from [createContextWithTimeout] (the panic on an
    unknown task type is out of reach, local-queue tasks having gone their own
    way).  For a state with a config the timeout never exceeds
    [MaxAsyncStateAPITimeout], and it is the state's own timeout for the
    task's type when that is set and within the maximum; for a state without
    a config it is [DefaultAsyncStateAPITimeout] as configured, which the
    maximum does not cap. *)
Theorem worker_call_timeout (qCfg : ImmediateTaskQueueConfig) (now : Z)
    (task : ImmediateTask) (prep : PrepareStateExecutionResponse) :
  processImmediateTask task prep = WaitUntilTask
  \/ processImmediateTask task prep = ExecuteTask ->
  exists timeout,
    createContextWithTimeout qCfg (TaskType (countAttempt now task)) (StateConfig (Info prep))
    = Returned timeout
    /\ match StateConfig (Info prep) with
       | Some stateConfig =>
           let seconds :=
             match TaskType task with
             | ImmediateTaskTypeWaitUntil => GetWaitUntilApiTimeoutSeconds stateConfig
             | _ => GetExecuteApiTimeoutSeconds stateConfig
             end in
           timeout <= MaxAsyncStateAPITimeout qCfg
           /\ timeout
              = Z.min (MaxAsyncStateAPITimeout qCfg)
                      (if 0 <? seconds then int64 (seconds * Second)
                       else DefaultAsyncStateAPITimeout qCfg)
       | None => timeout = DefaultAsyncStateAPITimeout qCfg
       end.
Proof.
  intros Hhandler.
  assert (Htype : TaskType task <> ImmediateTaskTypeNewLocalQueueMessage).
  { intros Htype. unfold processImmediateTask in Hhandler.
    rewrite bool_decide_eq_true_2 in Hhandler by exact Htype.
    destruct Hhandler; discriminate. }
  unfold createContextWithTimeout. cbn [countAttempt TaskType].
  destruct (StateConfig (Info prep)) as [stateConfig|]; [|eexists; split; reflexivity].
  destruct (TaskType task); [| |contradiction].
  all: eexists; (split; [reflexivity|]); cbv zeta; rewrite cap_is_min; split; [lia | reflexivity].
Qed.

(** X6.  [composeHttpError] with a non-negative [MaxStateAPIFailureDetailSize]
    returns the status code of the response as an [int32] (0 without a
    response) and details of at most [MaxStateAPIFailureDetailSize + 14] bytes:
    the text [errMsg: ..., responseBody: ...] itself when it fits in
    [MaxStateAPIFailureDetailSize] bytes, and otherwise its first
    [MaxStateAPIFailureDetailSize] bytes followed by the 14 bytes
    [...(truncated)].  With a negative [MaxStateAPIFailureDetailSize] it
    panics on every failure. *)
Theorem failure_details_are_bounded (qCfg : ImmediateTaskQueueConfig)
    (err : option string) (httpResp : option HttpResponse) :
  let maxDetailSize := MaxStateAPIFailureDetailSize qCfg in
  let responseBody :=
    match httpResp with
    | Some httpResp => default "cannot read body from http response" (Body httpResp)
    | None => "None"
    end in
  let full := "errMsg: " +:+ default "<nil>" err +:+ ", responseBody: " +:+ responseBody in
  if decide (0 <= maxDetailSize) then
    exists details,
      composeHttpError qCfg err httpResp
      = Returned (match httpResp with
                  | Some httpResp => int32 (StatusCode httpResp)
                  | None => 0
                  end, details)
      /\ Z.of_nat (String.length details) <= maxDetailSize + 14
      /\ details
         = (if decide (Z.of_nat (String.length full) <= maxDetailSize) then full
            else String.substring 0 (Z.to_nat maxDetailSize) full +:+ "...(truncated)")
  else composeHttpError qCfg err httpResp = Panicked.
Proof.
  cbv zeta. unfold composeHttpError.
  set (full := "errMsg: " +:+ default "<nil>" err +:+ ", responseBody: " +:+ _).
  case_decide as Hmax.
  - destruct (Z.ltb_spec (MaxStateAPIFailureDetailSize qCfg) (Z.of_nat (String.length full)))
      as [Hlong | Hfits].
    + rewrite (proj2 (Z.ltb_ge _ 0)) by lia.
      eexists. split; [reflexivity|].
      rewrite decide_False by lia. split; [|reflexivity].
      rewrite string_length_append, string_length_prefix. cbn [String.length]. lia.
    + eexists. split; [reflexivity|].
      rewrite decide_True by lia. split; [lia | reflexivity].
  - rewrite (proj2 (Z.ltb_lt _ (Z.of_nat _))) by lia.
    rewrite (proj2 (Z.ltb_lt _ 0)) by lia. reflexivity.
Qed.

(** X7.  [processExecuteTask] completes the execute phase in the store only
    for a worker call that succeeded with a valid decision: the call returned
    no error, the HTTP response (if any) has status 200, and the decision of
    the response does not both close the thread and name next states.  The
    request it then makes carries that decision and the published messages of
    the response, the snapshot it was prepared with, and the execution id,
    state execution id and shard of the task. *)
Theorem completion_needs_valid_decision (qCfg : ImmediateTaskQueueConfig)
    (now retryNow timeout : Z) (task : ImmediateTask) (prep : PrepareStateExecutionResponse)
    (resp : option AsyncStateExecuteResponse) (httpResp : option HttpResponse)
    (err : option string) (request : sql.CompleteExecuteExecutionRequest) :
  processExecuteTask qCfg now retryNow task prep resp httpResp err
  = Returned (timeout, CompleteExecuteExecution request) ->
  err = None
  /\ (forall r, httpResp = Some r -> StatusCode r = 200)
  /\ exists r,
       resp = Some r
       /\ (ThreadClose (StateDecision r) = None \/ NextStates (StateDecision r) = [])
       /\ request
          = {| sql.ExecuteProcessExecutionId := ProcessExecutionId task;
               sql.ExecuteStateExecutionId := TaskStateExecutionId task;
               sql.ExecutePrepare := prep;
               sql.ExecuteStateDecision := StateDecision r;
               sql.ExecutePublishToLocalQueue := PublishToLocalQueue r;
               sql.ExecuteTaskShardId := ShardId task |}.
Proof.
  unfold processExecuteTask. cbv zeta.
  destruct (createContextWithTimeout _ _ _) as [timeout'|]; [|discriminate].
  destruct err as [msg|].
  { unfold checkResponseAndError.
    rewrite bool_decide_eq_true_2 by eauto. cbn [orb].
    destruct (composeHttpError _ _ _) as [[status details]|]; [|discriminate].
    destruct (checkRetry _ _ _) as [[secs []]|]; discriminate. }
  destruct resp as [r|]; [|discriminate].
  destruct (checkResponseAndError (checkDecision (StateDecision r)) httpResp) eqn:Hcheck.
  { destruct (composeHttpError _ _ _) as [[status details]|]; [|discriminate].
    destruct (checkRetry _ _ _) as [[secs []]|]; discriminate. }
  intros [= <- <-].
  unfold checkResponseAndError in Hcheck. apply orb_false_elim in Hcheck as [Herr Hstatus].
  apply bool_decide_eq_false in Herr.
  split; [reflexivity|]. split.
  - intros r' ->. apply negb_false_iff in Hstatus. lia.
  - exists r. split; [reflexivity|]. split.
    + unfold checkDecision in Herr.
      destruct (ThreadClose (StateDecision r)) as [close|]; [|left; reflexivity].
      right. rewrite bool_decide_eq_true_2 in Herr by eauto. cbn [andb] in Herr.
      destruct (NextStates (StateDecision r)); [reflexivity|].
      exfalso. apply Herr. cbn. eauto.
    + cbn. destruct (TaskStateExecutionId task). reflexivity.
Qed.


End worker_call_facts.

(** ** The further properties on concrete data *)

(** A page of the three timers [samples.due_timers]: the sequence numbers
    run from 4 to 9. *)
Lemma timer_page_sequence_bounds_witness :
  exists resp,
    timer_tasks.createGetTimerTaskResponse (codec := samples.codec) 0 samples.due_timers (Some 3)
    = Ok resp
    /\ timer_tasks.MinSequenceInclusive resp = 4
    /\ timer_tasks.MaxSequenceInclusive resp = 9
    /\ Exists (fun task => timer_tasks.TaskSequence task = Some 4) (timer_tasks.Tasks resp)
    /\ Exists (fun task => timer_tasks.TaskSequence task = Some 9) (timer_tasks.Tasks resp).
Proof.
  eexists. split; [vm_compute; reflexivity|].
  match goal with
  | |- context [timer_tasks.MinSequenceInclusive ?resp] =>
      destruct (timer_page_sequence_bounds (codec := samples.codec) 0 samples.due_timers
                  (Some 3) resp) as (_ & Hlo & Hhi)
  end.
  - discriminate.
  - unfold timer_tasks.MinInt64, timer_tasks.MaxInt64.
    repeat constructor; cbn; lia.
  - vm_compute. reflexivity.
  - split; [reflexivity|]. split; [reflexivity|]. split; [exact Hlo | exact Hhi].
Defined.

(** The same page: the fire times run from 100 to 105. *)
Lemma timer_page_fire_time_bounds_witness :
  exists resp,
    timer_tasks.createGetTimerTaskResponse (codec := samples.codec) 0 samples.due_timers (Some 3)
    = Ok resp
    /\ Forall (fun task => 100 <= timer_tasks.FireTimestampSeconds task
                           /\ timer_tasks.FireTimestampSeconds task <= 105)
              (timer_tasks.Tasks resp).
Proof.
  eexists. split; [vm_compute; reflexivity|].
  match goal with
  | |- Forall _ (timer_tasks.Tasks ?resp) =>
      pose proof (timer_page_fire_time_bounds (codec := samples.codec) 0 samples.due_timers
                    (Some 3) resp) as Hbounds
  end.
  apply Hbounds.
  - repeat constructor; cbn; lia.
  - vm_compute. reflexivity.
Defined.

(** The Execute task of a state with a 30-second execute timeout. *)
Lemma worker_call_timeout_witness :
  exists timeout,
    immediate_task_processor.createContextWithTimeout samples.queue_config
      persistence.ImmediateTaskTypeExecute (Some samples.state_config)
    = Returned timeout
    /\ timeout <= 60 * immediate_task_processor.Second.
Proof.
  destruct (worker_call_timeout samples.queue_config 100 samples.execute_task
              samples.prepared_execute)
    as (timeout & Hrun & Hcap & _).
  - right. vm_compute. reflexivity.
  - exists timeout. split; [exact Hrun | exact Hcap].
Defined.

(** The worker answers 200 with a decision that names S2. *)
Lemma completion_needs_valid_decision_witness :
  exists request,
    immediate_task_processor.processExecuteTask (go := backoff.reference_runtime)
      samples.queue_config 100 101 samples.execute_task samples.prepared_execute
      (Some samples.go_to_S2) (Some samples.status_ok) None
    = Returned (30 * immediate_task_processor.Second,
                immediate_task_processor.CompleteExecuteExecution request)
    /\ sql.ExecuteStateDecision request
       = immediate_task_processor.StateDecision samples.go_to_S2
    /\ sql.ExecuteStateExecutionId request
       = {| persistence.StateId := "S1"; persistence.StateIdSequence := 1 |}.
Proof.
  eexists. split; [vm_compute; reflexivity|].
  destruct (completion_needs_valid_decision (go := backoff.reference_runtime)
              samples.queue_config 100 101 30000000000 samples.execute_task
              samples.prepared_execute (Some samples.go_to_S2) (Some samples.status_ok) None
              _ eq_refl)
    as (_ & _ & r & Hr & _ & _).
  injection Hr as <-. split; reflexivity.
Defined.


(** ** The store: what a transaction writes, and what it leaves alone *)

Section store_frame_facts.
Import xdbapi persistence extensions postgres sequence_maps sql.
Context {env : StoreEnv} {localQueue : LocalQueueProcessor}.

(** The queue row and the immediate task of one published message. *)
Lemma publishToLocalQueue_pairs (messages : list LocalQueueMessage) :
  forall (tx : Tx) (processExecutionId : UUID),
  exists tx' rows tasks,
    publishToLocalQueue tx processExecutionId messages = Ok tx'
    /\ begun tx' = begun tx
    /\ (minted tx <= minted tx')%nat
    /\ latest_process_executions (store tx') = latest_process_executions (store tx)
    /\ process_executions (store tx') = process_executions (store tx)
    /\ async_state_executions (store tx') = async_state_executions (store tx)
    /\ timer_tasks (store tx') = timer_tasks (store tx)
    /\ local_queue (store tx') = local_queue (store tx) ++ rows
    /\ immediate_tasks (store tx') = immediate_tasks (store tx) ++ tasks
    /\ Forall3
         (fun message row task =>
            QueueProcessExecutionId row = processExecutionId
            /\ extensions.QueueName row = xdbapi.QueueName message
            /\ extensions.Payload row = xdbapi.Payload message
            /\ match xdbapi.DedupId message with
               | Some dedupId => extensions.DedupId row = dedupId
               | None => exists k, (minted tx <= k < minted tx')%nat
                                   /\ extensions.DedupId row = MustNewUUID k
               end
            /\ task = {| TaskShardId := DefaultShardId;
                         TaskType := ImmediateTaskTypeNewLocalQueueMessage;
                         TaskProcessExecutionId := processExecutionId;
                         TaskStateId := "";
                         TaskStateIdSequence := 0;
                         TaskInfo :=
                           Some {| WorkerTaskBackoffInfo := None;
                                   LocalQueueMessageInfo :=
                                     Some {| MessageQueueName := xdbapi.QueueName message;
                                             MessageDedupId := extensions.DedupId row |} |} |})
         messages rows tasks.
Proof.
  induction messages as [|message messages IH]; intros tx peid; cbn [publishToLocalQueue].
  - exists tx, [], []. rewrite !app_nil_r. repeat split; auto. constructor.
  - unfold publishMessage, InsertLocalQueue, InsertImmediateTask.
    destruct (xdbapi.DedupId message) as [dedupId|] eqn:Hdedup; cbn [mbind result_bind].
    + match goal with
      | |- context [publishToLocalQueue ?tx1 peid messages] =>
          destruct (IH tx1 peid)
            as (tx' & rows & tasks & -> & Hb & Hm & Hl & Hp & Ha & Ht & Hq & Hi & Hall)
      end.
      cbn in Hb, Hm, Hl, Hp, Ha, Ht, Hq, Hi.
      eexists tx', (_ :: rows), (_ :: tasks).
      split; [reflexivity|].
      rewrite Hb, Hl, Hp, Ha, Ht, Hq, Hi, <- !app_assoc. cbn [app].
      repeat (split; [first [reflexivity | exact Hm]|]).
      constructor.
      * cbn. rewrite Hdedup. repeat split; reflexivity.
      * eapply Forall3_impl; [exact Hall|].
        intros m r t (H1 & H2 & H3 & H4 & H5).
        split; [exact H1|]. split; [exact H2|]. split; [exact H3|]. split; [|exact H5].
        destruct (xdbapi.DedupId m); [exact H4|].
        destruct H4 as (k & Hk & Hid). exists k. split; [cbn in Hk; lia | exact Hid].
    + match goal with
      | |- context [publishToLocalQueue ?tx1 peid messages] =>
          destruct (IH tx1 peid)
            as (tx' & rows & tasks & -> & Hb & Hm & Hl & Hp & Ha & Ht & Hq & Hi & Hall)
      end.
      cbn in Hb, Hm, Hl, Hp, Ha, Ht, Hq, Hi.
      eexists tx', (_ :: rows), (_ :: tasks).
      split; [reflexivity|].
      rewrite Hb, Hl, Hp, Ha, Ht, Hq, Hi, <- !app_assoc. cbn [app].
      repeat (split; [first [reflexivity | lia]|]).
      constructor.
      * cbn. rewrite Hdedup. repeat split; try reflexivity.
        exists (minted tx). split; [lia | reflexivity].
      * eapply Forall3_impl; [exact Hall|].
        intros m r t (H1 & H2 & H3 & H4 & H5).
        split; [exact H1|]. split; [exact H2|]. split; [exact H3|]. split; [|exact H5].
        destruct (xdbapi.DedupId m); [exact H4|].
        destruct H4 as (k & Hk & Hid). exists k. split; [cbn in Hk; lia | exact Hid].
Qed.

(** X9.  [publishToLocalQueue] never fails, and for every message, in
    order, it appends one row to the local queue and one immediate task: the
    row holds the execution id, the queue name and the payload of the message
    and the dedup id the message supplies (a fresh one from [MustNewUUID]
    when it supplies none); the task is a NewLocalQueueMessage task of the
    default shard for no state, whose info names the same queue and the same
    dedup id as the row.  No other table changes. *)
Theorem published_messages_pair_up (messages : list LocalQueueMessage)
    (tx : Tx) (processExecutionId : UUID) :
  exists tx' rows tasks,
    publishToLocalQueue tx processExecutionId messages = Ok tx'
    /\ local_queue (store tx') = local_queue (store tx) ++ rows
    /\ immediate_tasks (store tx') = immediate_tasks (store tx) ++ tasks
    /\ Forall3
         (fun message row task =>
            QueueProcessExecutionId row = processExecutionId
            /\ extensions.QueueName row = xdbapi.QueueName message
            /\ extensions.Payload row = xdbapi.Payload message
            /\ match xdbapi.DedupId message with
               | Some dedupId => extensions.DedupId row = dedupId
               | None => exists k, (minted tx <= k < minted tx')%nat
                                   /\ extensions.DedupId row = MustNewUUID k
               end
            /\ TaskShardId task = DefaultShardId
            /\ TaskType task = ImmediateTaskTypeNewLocalQueueMessage
            /\ TaskProcessExecutionId task = processExecutionId
            /\ TaskInfo task
               = Some {| WorkerTaskBackoffInfo := None;
                         LocalQueueMessageInfo :=
                           Some {| MessageQueueName := extensions.QueueName row;
                                   MessageDedupId := extensions.DedupId row |} |})
         messages rows tasks
    /\ latest_process_executions (store tx') = latest_process_executions (store tx)
    /\ process_executions (store tx') = process_executions (store tx)
    /\ async_state_executions (store tx') = async_state_executions (store tx)
    /\ timer_tasks (store tx') = timer_tasks (store tx).
Proof.
  destruct (publishToLocalQueue_pairs messages tx processExecutionId)
    as (tx' & rows & tasks & Hrun & _ & _ & Hl & Hp & Ha & Ht & Hq & Hi & Hall).
  exists tx', rows, tasks.
  split; [exact Hrun|]. split; [exact Hq|]. split; [exact Hi|].
  split; [|auto].
  eapply Forall3_impl; [exact Hall|].
  intros m r t (H1 & H2 & H3 & H4 & ->). cbn. rewrite H2. auto 10.
Qed.

Lemma Forall2_map_after {A B C : Type} (R : A -> B -> Prop) (S : A -> C -> Prop)
    (f : B -> C) (l : list A) (k : list B) :
  Forall2 R l k -> (forall x y, R x y -> S x (f y)) -> Forall2 S l (map f k).
Proof. intros Hlk HRS. induction Hlk; cbn; constructor; auto. Qed.

(** The row and the task of each next state. *)
Lemma startNextStates_pairs (prcExeId : UUID) (stateInfo : AsyncStateExecutionInfoJson)
    (taskShardId : Z) (nextStates : list StateMovement) :
  forall (tx tx' : Tx) (maps maps' : StateExecutionSequenceMaps),
  startNextStates prcExeId stateInfo taskShardId tx maps nextStates = Ok (tx', maps') ->
  exists rows tasks,
    begun tx' = begun tx
    /\ latest_process_executions (store tx') = latest_process_executions (store tx)
    /\ process_executions (store tx') = process_executions (store tx)
    /\ timer_tasks (store tx') = timer_tasks (store tx)
    /\ local_queue (store tx') = local_queue (store tx)
    /\ async_state_executions (store tx') = async_state_executions (store tx) ++ rows
    /\ immediate_tasks (store tx') = immediate_tasks (store tx) ++ tasks
    /\ Forall3
         (fun next row task =>
            let skip := GetSkipWaitUntil (NextStateConfig next) in
            StateProcessExecutionId row = prcExeId
            /\ StateId row = NextStateId next
            /\ PreviousVersion row = 1
            /\ LastFailure row = None
            /\ Input row = NextStateInput next
            /\ Info row = stateInfo
            /\ WaitUntilStatus row
               = (if skip then StateExecutionStatusSkipped else StateExecutionStatusRunning)
            /\ ExecuteStatus row
               = (if skip then StateExecutionStatusRunning else StateExecutionStatusUndefined)
            /\ task = {| TaskShardId := taskShardId;
                         TaskType := if skip then ImmediateTaskTypeExecute
                                     else ImmediateTaskTypeWaitUntil;
                         TaskProcessExecutionId := prcExeId;
                         TaskStateId := StateId row;
                         TaskStateIdSequence := StateIdSequence row;
                         TaskInfo := None |})
         nextStates rows tasks.
Proof.
  induction nextStates as [|next nextStates IH]; intros tx tx' maps maps'; cbn [startNextStates].
  - intros [= <- <-]. exists [], []. rewrite !app_nil_r. repeat split; auto. constructor.
  - unfold startNextState, insertAsyncStateExecution, InsertAsyncStateExecution,
      insertImmediateTask, InsertImmediateTask.
    destruct (existsb _ _); [discriminate|].
    cbn [mbind result_bind fst snd]. intros Hrest.
    apply IH in Hrest as (rows & tasks & Hb & Hl & Hp & Ht & Hq & Ha & Hi & Hall).
    cbn in Hb, Hl, Hp, Ht, Hq, Ha, Hi.
    eexists (_ :: rows), (_ :: tasks).
    rewrite Hb, Hl, Hp, Ht, Hq, Ha, Hi, <- !app_assoc. cbn [app].
    repeat (split; [reflexivity|]).
    constructor; [|exact Hall].
    cbn. repeat split; reflexivity.
Qed.

Lemma UpdateProcessExecution_frame (row : ProcessExecutionRowForUpdate) (tx tx' : Tx) :
  UpdateProcessExecution row tx = Ok tx' ->
  begun tx' = begun tx
  /\ latest_process_executions (store tx') = latest_process_executions (store tx)
  /\ async_state_executions (store tx') = async_state_executions (store tx)
  /\ immediate_tasks (store tx') = immediate_tasks (store tx)
  /\ timer_tasks (store tx') = timer_tasks (store tx)
  /\ local_queue (store tx') = local_queue (store tx)
  /\ Forall2 (fun r r' =>
                RowProcessExecutionId r' = RowProcessExecutionId r
                /\ (RowProcessExecutionId r <> ProcessExecutionId row -> r' = r)
                /\ (RowProcessExecutionId r = ProcessExecutionId row ->
                    r' = process_set row r))
             (process_executions (store tx)) (process_executions (store tx')).
Proof.
  unfold UpdateProcessExecution. intros [= <-]. cbn [with_process_executions with_store store begun
    latest_process_executions async_state_executions immediate_tasks timer_tasks local_queue
    process_executions].
  repeat (split; [reflexivity|]).
  apply sql_update_Forall2.
  - intros r Hr. apply bool_decide_eq_true in Hr. cbn. split; [reflexivity|].
    split; [intros Hne; contradiction | reflexivity].
  - intros r Hr. apply bool_decide_eq_false in Hr.
    split; [reflexivity|]. split; [reflexivity | intros Heq; contradiction].
Qed.

(** The state-execution rows after the batch statement, if it runs. *)
Lemma abort_if_frame (abort : bool) (processExecutionId : UUID) (tx tx' : Tx) :
  (if abort then BatchUpdateAsyncStateExecutionsToAbortRunning processExecutionId tx
   else Ok tx) = Ok tx' ->
  begun tx' = begun tx
  /\ latest_process_executions (store tx') = latest_process_executions (store tx)
  /\ process_executions (store tx') = process_executions (store tx)
  /\ immediate_tasks (store tx') = immediate_tasks (store tx)
  /\ timer_tasks (store tx') = timer_tasks (store tx)
  /\ local_queue (store tx') = local_queue (store tx)
  /\ async_state_executions (store tx')
     = (if abort
        then map (fun r => if bool_decide (StateProcessExecutionId r = processExecutionId)
                           then abort_running r else r)
                 (async_state_executions (store tx))
        else async_state_executions (store tx)).
Proof.
  destruct abort; intros [= <-]; cbn; auto 10.
Qed.

Lemma plain_update_frame (plain : AsyncStateExecutionRowForUpdateWithoutCommands)
    (tx tx' : Tx) :
  UpdateAsyncStateExecutionWithoutCommands plain tx = Ok tx' ->
  tx' = with_async_state_executions tx
          (fst (sql_update
                  (versioned_where (PlainProcessExecutionId plain) (PlainStateId plain)
                     (PlainStateIdSequence plain) (PlainPreviousVersion plain))
                  (versioned_set (PlainStatus plain) (PlainPreviousVersion plain)
                     (PlainLastFailure plain))
                  (async_state_executions (store tx))))
  /\ length (List.filter
               (versioned_where (PlainProcessExecutionId plain) (PlainStateId plain)
                  (PlainStateIdSequence plain) (PlainPreviousVersion plain))
               (async_state_executions (store tx))) = 1%nat.
Proof.
  unfold UpdateAsyncStateExecutionWithoutCommands, sql_update.
  case_bool_decide as Hone; [discriminate|].
  intros [= <-]. split; [reflexivity|].
  destruct (decide (length (List.filter
    (versioned_where (PlainProcessExecutionId plain) (PlainStateId plain)
       (PlainStateIdSequence plain) (PlainPreviousVersion plain))
    (async_state_executions (store tx))) = 1%nat)) as [H1|H1]; [exact H1 | contradiction].
Qed.

(** X11.  A successful [CompleteExecuteExecution] stays within its process.
    It leaves the pointers to the latest executions and the timer tasks as
    they were; it deletes no row of any table; every process row keeps its
    id, and the rows of other processes are unchanged; every state-execution
    row that was there keeps its key, and those of other processes are
    unchanged; and what it adds belongs to the process of the request: one
    state-execution row per next state, one immediate task per next state and
    per published message, one local-queue row per published message. *)
Theorem complete_execute_stays_within_process (db db' : DB)
    (request : CompleteExecuteExecutionRequest) (resp : CompleteExecuteExecutionResponse) :
  CompleteExecuteExecution db request = (db', Ok resp) ->
  let processExecutionId := ExecuteProcessExecutionId request in
  latest_process_executions db' = latest_process_executions db
  /\ timer_tasks db' = timer_tasks db
  /\ Forall2 (fun r r' =>
                RowProcessExecutionId r' = RowProcessExecutionId r
                /\ (RowProcessExecutionId r <> processExecutionId -> r' = r))
             (process_executions db) (process_executions db')
  /\ (exists kept inserted,
        async_state_executions db' = kept ++ inserted
        /\ Forall2 (fun r r' =>
                      StateProcessExecutionId r' = StateProcessExecutionId r
                      /\ StateId r' = StateId r
                      /\ StateIdSequence r' = StateIdSequence r
                      /\ (StateProcessExecutionId r <> processExecutionId -> r' = r))
                   (async_state_executions db) kept
        /\ Forall (fun r => StateProcessExecutionId r = processExecutionId) inserted
        /\ length inserted = length (NextStates (ExecuteStateDecision request)))
  /\ (exists tasks,
        immediate_tasks db' = immediate_tasks db ++ tasks
        /\ Forall (fun t => TaskProcessExecutionId t = processExecutionId) tasks
        /\ length tasks = (length (NextStates (ExecuteStateDecision request))
                           + length (ExecutePublishToLocalQueue request))%nat)
  /\ (exists rows,
        local_queue db' = local_queue db ++ rows
        /\ Forall (fun r => QueueProcessExecutionId r = processExecutionId) rows
        /\ length rows = length (ExecutePublishToLocalQueue request)).
Proof.
  unfold CompleteExecuteExecution.
  destruct (doCompleteExecuteExecutionTx _ request) as [[tx' resp']|e] eqn:Hdo; [|discriminate].
  intros [= <- _]. cbv zeta.
  apply doCompleteExecuteExecutionTx_inv in Hdo. cbv zeta in Hdo.
  destruct Hdo as (prcRow & tx1 & maps1 & tx2 & maps2 & tx3 & tx4
                   & Hsel & Hupd & _ & Hnext & Habort & Hprc & Hpub).
  apply plain_update_frame in Hupd as [-> _].
  apply startNextStates_pairs in Hnext
    as (inserted & tasks & _ & Hl2 & Hp2 & Ht2 & Hq2 & Ha2 & Hi2 & Hpairs).
  apply abort_if_frame in Habort as (_ & Hl3 & Hp3 & Hi3 & Ht3 & Hq3 & Ha3).
  apply UpdateProcessExecution_frame in Hprc as (_ & Hl4 & Ha4 & Hi4 & Ht4 & Hq4 & Hp4).
  destruct (publishToLocalQueue_pairs (ExecutePublishToLocalQueue request) tx4
              (ExecuteProcessExecutionId request))
    as (tx5 & rows & published & Hpub' & _ & _ & Hl5 & Hp5 & Ha5 & Ht5 & Hq5 & Hi5 & Hall).
  rewrite Hpub in Hpub'. injection Hpub' as <-.
  cbn [PlainProcessExecutionId PlainStateId PlainStateIdSequence PlainStatus
       PlainPreviousVersion PlainLastFailure StartTransaction store
       with_async_state_executions with_store latest_process_executions process_executions
       async_state_executions immediate_tasks timer_tasks local_queue] in *.
  unfold Commit.
  split; [congruence|]. split; [congruence|]. split; [|split; [|split]].
  - rewrite Hp5. rewrite Hp3, Hp2 in Hp4.
    eapply Forall2_impl; [exact Hp4|].
    intros r r' (Hid & Hother & _). split; [exact Hid|].
    intros Hne. apply Hother.
    unfold with_SequenceMaps. cbn [ProcessExecutionId].
    rewrite closeThread_id, (SelectProcessExecutionForUpdate_id _ _ _ Hsel). exact Hne.
  - rewrite Ha5, Ha4, Ha3, Ha2.
    set (updated := fst (sql_update _ _ (async_state_executions db))).
    assert (Hupdated :
      Forall2 (fun r r' =>
                 StateProcessExecutionId r' = StateProcessExecutionId r
                 /\ StateId r' = StateId r
                 /\ StateIdSequence r' = StateIdSequence r
                 /\ (StateProcessExecutionId r <> ExecuteProcessExecutionId request -> r' = r))
              (async_state_executions db) updated).
    { apply sql_update_Forall2.
      - intros r Hr. apply versioned_where_version in Hr as (Hid & _).
        cbn. repeat split; try reflexivity. intros Hne. contradiction.
      - intros r _. auto. }
    assert (Hinserted :
      Forall (fun r => StateProcessExecutionId r = ExecuteProcessExecutionId request) inserted).
    { clear -Hpairs. induction Hpairs as [|next row task ? ? ? (Hid & _) _ IH]; constructor; auto. }
    assert (Hlen : length inserted = length (NextStates (ExecuteStateDecision request))).
    { clear -Hpairs. induction Hpairs; cbn; [reflexivity | f_equal; assumption]. }
    destruct (outcomeAbortRunningAsyncStates _).
    + rewrite map_app.
      eexists _, _. split; [reflexivity|]. split; [|split].
      * eapply Forall2_map_after; [exact Hupdated|].
        intros r r1 (H1 & H2 & H3 & H4).
        case_bool_decide as Hid.
        -- cbn. rewrite H1, H2, H3. repeat split; try reflexivity.
           intros Hne. rewrite <- H1 in Hne. rewrite Hid in Hne. contradiction.
        -- auto.
      * apply Forall_fmap. eapply Forall_impl; [exact Hinserted|].
        intros r Hr. cbn. case_bool_decide; [cbn|]; exact Hr.
      * rewrite length_map. exact Hlen.
    + exists updated, inserted. auto.
  - rewrite Hi5, Hi4, Hi3, Hi2, <- app_assoc.
    exists (tasks ++ published). split; [reflexivity|]. split.
    + apply Forall_app. split.
      * clear -Hpairs.
        induction Hpairs as [|next row task ? ? ? (_&_&_&_&_&_&_&_& ->) _ IH]; constructor; auto.
      * clear -Hall.
        induction Hall as [|m row task ? ? ? (_&_&_&_& ->) _ IH]; constructor; auto.
    + rewrite length_app. f_equal.
      * clear -Hpairs. induction Hpairs; cbn; [reflexivity | f_equal; assumption].
      * clear -Hall. induction Hall; cbn; [reflexivity | f_equal; assumption].
  - rewrite Hq5, Hq4, Hq3, Hq2.
    exists rows. split; [reflexivity|]. split.
    + clear -Hall. induction Hall as [|m row task ? ? ? (Hid & _) _ IH]; constructor; auto.
    + clear -Hall. induction Hall; cbn; [reflexivity | f_equal; assumption].
Qed.

Lemma closeThread_no_close (prcRow : ProcessExecutionRowForUpdate)
    (maps : StateExecutionSequenceMaps) (decision : StateDecision) :
  ThreadClose decision = None ->
  outcomeAbortRunningAsyncStates (closeThread prcRow maps decision) = false.
Proof. intros Hnone. unfold closeThread. rewrite Hnone. reflexivity. Qed.

Lemma closeThread_graceful (prcRow : ProcessExecutionRowForUpdate)
    (maps : StateExecutionSequenceMaps) (decision : StateDecision) :
  WaitToComplete prcRow = true ->
  PendingExecutionMap maps = ∅ ->
  closeThread prcRow maps decision
  = {| outcomeRow := with_Status prcRow ProcessExecutionStatusCompleted;
       outcomeMaps := maps;
       outcomeGracefullyComplete := true;
       outcomeAbortRunningAsyncStates := false |}.
Proof.
  intros Hwait Hempty. unfold closeThread.
  rewrite Hwait, (bool_decide_eq_true_2 (pending_len maps = 0%nat))
    by (unfold pending_len; rewrite Hempty; apply map_size_empty).
  destruct (ThreadClose decision); reflexivity.
Qed.

Lemma Forall2_Forall_right {A B : Type} (R : A -> B -> Prop) (P : B -> Prop)
    (l : list A) (k : list B) :
  Forall2 R l k -> (forall x y, R x y -> P y) -> Forall P k.
Proof. intros Hlk HRP. induction Hlk; constructor; eauto. Qed.

(** X12.  A process that an earlier decision has armed for graceful
    completion completes with its last state execution whatever that
    execution decides: when the process row has [WaitToComplete] set, the
    decision names no next state and the pending-execution map is empty once
    the completed state execution has left it, a successful
    [CompleteExecuteExecution] leaves the process Completed, also for a
    decision to force-fail it, and runs no batch abort: the state-execution
    rows are those of the database with the completed row updated. *)
Theorem graceful_completion_overrides_decision (db db' : DB)
    (request : CompleteExecuteExecutionRequest) (resp : CompleteExecuteExecutionResponse)
    (prcRow : ProcessExecutionRowForUpdate) (maps : StateExecutionSequenceMaps) :
  let processExecutionId := ExecuteProcessExecutionId request in
  let stateId := persistence.StateId (ExecuteStateExecutionId request) in
  let stateIdSequence := persistence.StateIdSequence (ExecuteStateExecutionId request) in
  let previousVersion := persistence.PreviousVersion (ExecutePrepare request) in
  CompleteExecuteExecution db request = (db', Ok resp) ->
  SelectProcessExecutionForUpdate processExecutionId (StartTransaction db) = Ok prcRow ->
  WaitToComplete prcRow = true ->
  NextStates (ExecuteStateDecision request) = [] ->
  CompleteNewStateExecution stateId stateIdSequence (SequenceMaps prcRow) = Ok maps ->
  PendingExecutionMap maps = ∅ ->
  Forall (fun r =>
            RowProcessExecutionId r = processExecutionId ->
            RowStatus r = ProcessExecutionStatusCompleted
            /\ RowWaitToComplete r = true
            /\ RowStateExecutionSequenceMaps r = maps)
         (process_executions db')
  /\ async_state_executions db'
     = fst (sql_update
              (versioned_where processExecutionId stateId stateIdSequence previousVersion)
              (versioned_set StateExecutionCompleted previousVersion None)
              (async_state_executions db)).
Proof.
  cbv zeta. unfold CompleteExecuteExecution.
  destruct (doCompleteExecuteExecutionTx _ request) as [[tx' resp']|e] eqn:Hdo; [|discriminate].
  intros [= <- _] Hsel Hwait Hnone Hdone Hempty.
  apply doCompleteExecuteExecutionTx_inv in Hdo. cbv zeta in Hdo.
  destruct Hdo as (prcRow' & tx1 & maps1 & tx2 & maps2 & tx3 & tx4
                   & Hsel' & Hupd & Hdone' & Hnext & Habort & Hprc & Hpub).
  rewrite Hsel in Hsel'. injection Hsel' as <-.
  rewrite Hdone in Hdone'. injection Hdone' as <-.
  rewrite Hnone in Hnext. cbn [startNextStates] in Hnext. injection Hnext as <- <-.
  rewrite (closeThread_graceful _ _ _ Hwait Hempty) in Habort, Hprc.
  cbn [outcomeAbortRunningAsyncStates outcomeRow outcomeMaps] in Habort, Hprc.
  injection Habort as <-.
  apply plain_update_frame in Hupd as [-> _].
  apply UpdateProcessExecution_frame in Hprc as (_ & _ & Ha4 & _ & _ & _ & Hp4).
  destruct (publishToLocalQueue_pairs (ExecutePublishToLocalQueue request) tx4
              (ExecuteProcessExecutionId request))
    as (tx5 & rows & published & Hpub' & _ & _ & _ & Hp5 & Ha5 & _).
  rewrite Hpub in Hpub'. injection Hpub' as <-.
  unfold Commit. rewrite Hp5, Ha5, Ha4. split; [|reflexivity].
  eapply Forall2_Forall_right; [exact Hp4|].
  intros r r' (Hid & _ & Hset) Hid'. cbn in Hset.
  rewrite (SelectProcessExecutionForUpdate_id _ _ _ Hsel) in Hset.
  rewrite Hset by congruence. cbn. rewrite Hwait. auto.
Qed.

(** X13.  The next states of a decision that does not close the thread.  A
    successful [CompleteExecuteExecution] appends, for every next state in
    order, one state-execution row and one immediate task.  The row is at
    version 1 without a failure, holds the next state's id and input, and
    takes its info as a whole from the snapshot of the completing state
    execution, the state config in it included; the config of the next state
    only picks the initial statuses and the type of the task.  The task is for
    the row's state execution, on the shard of the request.  Nothing is
    aborted: before the new rows stand the rows of the database with the
    completed row updated. *)
Theorem next_states_inherit_info (db db' : DB)
    (request : CompleteExecuteExecutionRequest) (resp : CompleteExecuteExecutionResponse) :
  let processExecutionId := ExecuteProcessExecutionId request in
  let stateId := persistence.StateId (ExecuteStateExecutionId request) in
  let stateIdSequence := persistence.StateIdSequence (ExecuteStateExecutionId request) in
  let previousVersion := persistence.PreviousVersion (ExecutePrepare request) in
  CompleteExecuteExecution db request = (db', Ok resp) ->
  ThreadClose (ExecuteStateDecision request) = None ->
  exists rows tasks published,
    async_state_executions db'
    = fst (sql_update
             (versioned_where processExecutionId stateId stateIdSequence previousVersion)
             (versioned_set StateExecutionCompleted previousVersion None)
             (async_state_executions db)) ++ rows
    /\ immediate_tasks db' = immediate_tasks db ++ tasks ++ published
    /\ length published = length (ExecutePublishToLocalQueue request)
    /\ Forall3
         (fun next row task =>
            let skip := GetSkipWaitUntil (NextStateConfig next) in
            StateProcessExecutionId row = processExecutionId
            /\ StateId row = NextStateId next
            /\ PreviousVersion row = 1
            /\ LastFailure row = None
            /\ Input row = NextStateInput next
            /\ Info row = persistence.Info (ExecutePrepare request)
            /\ WaitUntilStatus row
               = (if skip then StateExecutionStatusSkipped else StateExecutionStatusRunning)
            /\ ExecuteStatus row
               = (if skip then StateExecutionStatusRunning else StateExecutionStatusUndefined)
            /\ task = {| TaskShardId := ExecuteTaskShardId request;
                         TaskType := if skip then ImmediateTaskTypeExecute
                                     else ImmediateTaskTypeWaitUntil;
                         TaskProcessExecutionId := processExecutionId;
                         TaskStateId := StateId row;
                         TaskStateIdSequence := StateIdSequence row;
                         TaskInfo := None |})
         (NextStates (ExecuteStateDecision request)) rows tasks.
Proof.
  cbv zeta. unfold CompleteExecuteExecution.
  destruct (doCompleteExecuteExecutionTx _ request) as [[tx' resp']|e] eqn:Hdo; [|discriminate].
  intros [= <- _] Hnone.
  apply doCompleteExecuteExecutionTx_inv in Hdo. cbv zeta in Hdo.
  destruct Hdo as (prcRow & tx1 & maps1 & tx2 & maps2 & tx3 & tx4
                   & _ & Hupd & _ & Hnext & Habort & Hprc & Hpub).
  rewrite (closeThread_no_close _ _ _ Hnone) in Habort. injection Habort as <-.
  apply plain_update_frame in Hupd as [-> _].
  apply startNextStates_pairs in Hnext
    as (rows & tasks & _ & _ & _ & _ & _ & Ha2 & Hi2 & Hpairs).
  apply UpdateProcessExecution_frame in Hprc as (_ & _ & Ha4 & Hi4 & _).
  destruct (publishToLocalQueue_pairs (ExecutePublishToLocalQueue request) tx4
              (ExecuteProcessExecutionId request))
    as (tx5 & queued & published & Hpub' & _ & _ & _ & _ & Ha5 & _ & _ & Hi5 & Hall).
  rewrite Hpub in Hpub'. injection Hpub' as <-.
  exists rows, tasks, published. unfold Commit.
  rewrite Ha5, Ha4, Ha2, Hi5, Hi4, Hi2, <- app_assoc.
  split; [reflexivity|]. split; [reflexivity|]. split; [|exact Hpairs].
  clear -Hall. induction Hall; cbn; [reflexivity | f_equal; assumption].
Qed.

Lemma versioned_update_not_repeatable (peid : UUID) (sid : string) (seq pv : Z)
    (status : StateExecutionRowStatus) (failure : option StateExecutionFailureJson)
    (table : list AsyncStateExecutionRow) :
  List.filter (versioned_where peid sid seq pv)
    (fst (sql_update (versioned_where peid sid seq pv) (versioned_set status pv failure) table))
  = [].
Proof.
  cbn. induction table as [|r table IH]; [reflexivity|]. cbn.
  destruct (versioned_where peid sid seq pv r) eqn:Hr.
  - assert (Hset : versioned_where peid sid seq pv (versioned_set status pv failure r) = false).
    { unfold versioned_where, versioned_set. cbn.
      rewrite (bool_decide_eq_false_2 (pv + 1 = pv)) by lia.
      apply andb_false_r. }
    rewrite Hset. exact IH.
  - rewrite Hr. exact IH.
Qed.

(** X10.  [ProcessWaitUntilExecution] on a command request that is not empty
    and waits for no local queue (timer commands at most).  When exactly one
    row has the key of the state execution and the prepared version, the call
    succeeds: that row is rewritten by the versioned update to the status
    WaitUntilWaiting at the next version, no process row is read or written,
    the immediate tasks gain only the tasks of the published messages,
    [HasNewImmediateTask] says whether a message was published, and no timer
    task is inserted.  A second call with the same request then fails with
    the conditional-update failure and changes nothing.  Otherwise the call
    fails with the conditional-update failure and the database is as before. *)
Theorem wait_until_without_queue_commands (db : DB)
    (request : ProcessWaitUntilExecutionRequest) :
  WaitingType (WaitUntilCommandRequest request) <> EMPTY_COMMAND ->
  LocalQueueCommands (WaitUntilCommandRequest request) = [] ->
  let processExecutionId := WaitUntilProcessExecutionId request in
  let stateId := persistence.StateId (WaitUntilStateExecutionId request) in
  let stateIdSequence := persistence.StateIdSequence (WaitUntilStateExecutionId request) in
  let previousVersion := persistence.PreviousVersion (WaitUntilPrepare request) in
  let selected := versioned_where processExecutionId stateId stateIdSequence previousVersion in
  if decide (length (List.filter selected (async_state_executions db)) = 1%nat) then
    exists db' published,
      ProcessWaitUntilExecution db request
      = (db', Ok {| WaitUntilHasNewImmediateTask :=
                      bool_decide (0 < length (WaitUntilPublishToLocalQueue request))%nat |})
      /\ async_state_executions db'
         = fst (sql_update selected
                  (versioned_set StateExecutionStatusWaitUntilWaiting previousVersion None)
                  (async_state_executions db))
      /\ process_executions db' = process_executions db
      /\ timer_tasks db' = timer_tasks db
      /\ immediate_tasks db' = immediate_tasks db ++ published
      /\ Forall (fun t => TaskType t = ImmediateTaskTypeNewLocalQueueMessage) published
      /\ length published = length (WaitUntilPublishToLocalQueue request)
      /\ ProcessWaitUntilExecution db' request = (db', Err conditionalUpdateFailure)
  else ProcessWaitUntilExecution db request = (db, Err conditionalUpdateFailure).
Proof.
  intros Hcommand Hqueues. cbv zeta.
  assert (Hrun : forall db0,
    ProcessWaitUntilExecution db0 request
    = if decide (length (List.filter
                   (versioned_where (WaitUntilProcessExecutionId request)
                      (persistence.StateId (WaitUntilStateExecutionId request))
                      (persistence.StateIdSequence (WaitUntilStateExecutionId request))
                      (persistence.PreviousVersion (WaitUntilPrepare request)))
                   (async_state_executions db0)) = 1%nat)
      then
        match publishToLocalQueue
                (with_async_state_executions (StartTransaction db0)
                   (fst (sql_update
                           (versioned_where (WaitUntilProcessExecutionId request)
                              (persistence.StateId (WaitUntilStateExecutionId request))
                              (persistence.StateIdSequence (WaitUntilStateExecutionId request))
                              (persistence.PreviousVersion (WaitUntilPrepare request)))
                           (versioned_set StateExecutionStatusWaitUntilWaiting
                              (persistence.PreviousVersion (WaitUntilPrepare request)) None)
                           (async_state_executions db0))))
                (WaitUntilProcessExecutionId request)
                (WaitUntilPublishToLocalQueue request) with
        | Ok tx =>
            (store tx,
             Ok {| WaitUntilHasNewImmediateTask :=
                     bool_decide (0 < length (WaitUntilPublishToLocalQueue request))%nat |})
        | Err err => (db0, Err err)
        end
      else (db0, Err conditionalUpdateFailure)).
  { intros db0.
    unfold ProcessWaitUntilExecution, doProcessWaitUntilExecutionTx.
    rewrite (bool_decide_eq_false_2 (WaitingType _ = EMPTY_COMMAND)) by exact Hcommand.
    unfold updateWaitUntilExecution. rewrite Hqueues. cbn [length].
    rewrite (bool_decide_eq_false_2 (0 < 0)%nat) by lia.
    cbn [mbind result_bind fst snd].
    unfold UpdateAsyncStateExecution, updateAsyncStateExecutionQuery, sql_update.
    cbn [UpdateProcessExecutionId UpdateStateId UpdateStateIdSequence UpdateStatus
         UpdatePreviousVersion UpdateLastFailure StartTransaction store].
    case_decide as Hone.
    - rewrite (bool_decide_eq_false_2 (length _ <> 1%nat))
        by (intros Hne; apply Hne; exact Hone).
      cbn [mbind result_bind fst snd].
      destruct (publishToLocalQueue _ _ _) as [tx|err]; cbn [mbind result_bind]; [|reflexivity].
      unfold Commit. destruct (bool_decide (0 < _)%nat); reflexivity.
    - rewrite (bool_decide_eq_true_2 (length _ <> 1%nat)) by exact Hone. reflexivity. }
  destruct (decide (length (List.filter _ (async_state_executions db)) = 1%nat)) as [Hone|Hone];
    [|rewrite (Hrun db), decide_False by exact Hone; reflexivity].
  rewrite (Hrun db), decide_True by exact Hone.
  match goal with
  | |- context [publishToLocalQueue ?tx ?peid ?msgs] =>
      destruct (publishToLocalQueue_pairs msgs tx peid)
        as (tx' & rows & tasks & -> & _ & _ & _ & Hp & Ha & Ht & _ & Hi & Hall)
  end.
  cbn [with_async_state_executions with_store store StartTransaction process_executions
       async_state_executions timer_tasks immediate_tasks] in Hp, Ha, Ht, Hi.
  exists (store tx'), tasks.
  split; [reflexivity|]. split; [exact Ha|]. split; [exact Hp|]. split; [exact Ht|].
  split; [exact Hi|]. split; [|split].
  - clear -Hall. induction Hall as [|m row task ? ? ? (_&_&_&_& ->) _ IH]; constructor; auto.
  - clear -Hall. induction Hall; cbn; [reflexivity | f_equal; assumption].
  - rewrite (Hrun (store tx')), Ha, versioned_update_not_repeatable.
    rewrite decide_False by (cbn; lia). reflexivity.
Qed.

End store_frame_facts.

(** ** Starting and describing a process *)

Section start_facts.
Import api_engine.

(** The three keys [StartProcess] inserts under, looked up in [db]. *)
Lemma StartProcess_unfold (db : DB) (prcExeId : UUID) (now : Z)
    (request : ProcessExecutionStartRequest) :
  let pointer_taken :=
    existsb (fun r => bool_decide (CurrentNamespace r = Namespace request
                                   /\ CurrentProcessId r = ProcessId request))
            (current_process_executions db) in
  let state_taken :=
    match StartStateId request with
    | Some startStateId =>
        existsb (fun r => bool_decide (StateProcessExecutionId r = prcExeId
                                       /\ StateId r = startStateId
                                       /\ StateIdSequence r = 1))
                (async_state_executions db)
    | None => false
    end in
  let process_taken :=
    existsb (fun r => bool_decide (ProcessExecutionId r = prcExeId)) (process_executions db) in
  let info := {| InfoProcessType := ProcessType request; InfoWorkerURL := WorkerUrl request |} in
  let skip := xdbapi.GetSkipWaitUntil (StartStateConfig request) in
  let resp := Some {| ResponseProcessExecutionId := prcExeId |} in
  StartProcess db prcExeId now request
  = if pointer_taken then (db, (None, true, None))
    else if state_taken then (db, (None, false, Some ErrDuplicateEntry))
    else if process_taken then (db, (resp, false, Some ErrDuplicateEntry))
    else
      ({| current_process_executions :=
            current_process_executions db
            ++ [ {| CurrentNamespace := Namespace request;
                    CurrentProcessId := ProcessId request;
                    CurrentProcessExecutionId := prcExeId |} ];
          process_executions :=
            process_executions db
            ++ [ {| ProcessExecutionId := prcExeId;
                    IsCurrent := true;
                    Status := persistence.ProcessExecutionStatusRunning;
                    HistoryEventIdSequence := 0;
                    StateIdSequenceJson :=
                      match StartStateId request with
                      | Some startStateId => {[ startStateId := 1 ]}
                      | None => ∅
                      end;
                    RowNamespace := Namespace request;
                    RowProcessId := ProcessId request;
                    StartTime := now;
                    RowTimeoutSeconds :=
                      match StartConfig request with
                      | Some sc => default 0 (TimeoutSeconds sc)
                      | None => 0
                      end;
                    RowInfo := info |} ];
          async_state_executions :=
            async_state_executions db
            ++ match StartStateId request with
               | Some startStateId =>
                   [ {| StateProcessExecutionId := prcExeId;
                        StateId := startStateId;
                        StateIdSequence := 1;
                        PreviousVersion := 1;
                        WaitUntilStatus := if skip then persistence.StateExecutionStatusSkipped
                                           else persistence.StateExecutionStatusRunning;
                        ExecuteStatus := if skip then persistence.StateExecutionStatusRunning
                                         else persistence.StateExecutionStatusUndefined;
                        Input := StartStateInput request;
                        Info := info |} ]
               | None => []
               end;
          worker_tasks :=
            worker_tasks db
            ++ match StartStateId request with
               | Some startStateId =>
                   [ {| TaskShardId := persistence.DefaultShardId;
                        TaskProcessExecutionId := prcExeId;
                        TaskStateId := startStateId;
                        TaskStateIdSequence := 1;
                        TaskType := if skip then WorkerTaskTypeExecute
                                    else WorkerTaskTypeWaitUntil |} ]
               | None => []
               end |},
       (resp, false, None)).
Proof.
  cbv zeta.
  unfold StartProcess, startProcessBody, InsertCurrentProcessExecution.
  destruct (existsb _ (current_process_executions db)); [reflexivity|].
  destruct (StartStateId request) as [startStateId|].
  - unfold insertStartState, InsertAsyncStateExecution, InsertWorkerTask.
    cbn [async_state_executions StateProcessExecutionId StateId StateIdSequence].
    destruct (existsb _ (async_state_executions db)); [reflexivity|].
    cbn [mbind result_bind]. unfold InsertProcessExecution.
    cbn [process_executions ProcessExecutionId].
    destruct (existsb _ (process_executions db)); reflexivity.
  - unfold InsertProcessExecution. cbn [process_executions ProcessExecutionId].
    destruct (existsb _ (process_executions db)); cbn; rewrite ?app_nil_r; reflexivity.
Qed.


Import api_describe.

(** X15.  A process that [StartProcess] has started is the one
    [DescribeLatestProcess] describes for its namespace and process id: the
    response carries the execution id [StartProcess] returned, the process
    type and worker URL of the start request, and the start time as an
    [int32].  The query joins the pointer with the executions on the process
    id alone, so this is shown for a process id no earlier execution has
    used (in any namespace). *)
Theorem started_process_is_described (FromPostgresDateTime : Z -> Z)
    (db db' : DB) (prcExeId : UUID) (now : Z) (request : ProcessExecutionStartRequest)
    (resp : ProcessExecutionStartResponse) :
  StartProcess db prcExeId now request = (db', (Some resp, false, None)) ->
  Forall (fun e => RowProcessId e <> ProcessId request) (process_executions db) ->
  ResponseProcessExecutionId resp = prcExeId
  /\ DescribeLatestProcess FromPostgresDateTime db'
       {| DescribeNamespace := Namespace request; DescribeProcessId := ProcessId request |}
     = (Some {| DescribedProcessExecutionId := prcExeId;
                DescribedProcessType := ProcessType request;
                DescribedWorkerUrl := WorkerUrl request;
                StartTimestamp := int32 (FromPostgresDateTime now) |},
        false, None).
Proof.
  rewrite StartProcess_unfold. cbv zeta.
  destruct (existsb _ (current_process_executions db)) eqn:Hpointer; [discriminate|].
  destruct (match StartStateId request with Some _ => _ | None => false end); [discriminate|].
  destruct (existsb _ (process_executions db)); [discriminate|].
  intros [= <- <-] Hfresh. split; [reflexivity|].
  unfold DescribeLatestProcess, SelectCurrentProcessExecution, selectCurrentExecutionQuery.
  cbn [current_process_executions process_executions DescribeNamespace DescribeProcessId].
  assert (Hnone : List.filter
            (fun ce => bool_decide (CurrentNamespace ce = Namespace request)
                       && bool_decide (CurrentProcessId ce = ProcessId request))
            (current_process_executions db) = []).
  { induction (current_process_executions db) as [|ce rows IH]; [reflexivity|].
    cbn in Hpointer. apply orb_false_elim in Hpointer as [Hce Hrows].
    apply bool_decide_eq_false in Hce. cbn.
    destruct (bool_decide (CurrentNamespace ce = Namespace request)) eqn:Hns;
      destruct (bool_decide (CurrentProcessId ce = ProcessId request)) eqn:Hid;
      cbn [andb]; try (apply IH; exact Hrows).
    apply bool_decide_eq_true in Hns, Hid. exfalso. apply Hce. auto. }
  assert (Hothers : List.filter
            (fun e => bool_decide (RowProcessId e = ProcessId request))
            (process_executions db) = []).
  { induction Hfresh as [|e rows He _ IH]; [reflexivity|].
    cbn. rewrite bool_decide_eq_false_2 by exact He. exact IH. }
  rewrite !List.filter_app, Hnone. cbn [app List.filter].
  rewrite !bool_decide_eq_true_2 by reflexivity. cbn [andb flat_map CurrentProcessId].
  rewrite List.filter_app, Hothers. cbn [app List.filter RowProcessId].
  rewrite bool_decide_eq_true_2 by reflexivity. reflexivity.
Qed.

End start_facts.

(** The wait-until phase of S2 asks for a timer: S2 waits at version 2, no
    task of any kind is added, and the same request cannot be applied again. *)
Lemma wait_until_without_queue_commands_witness :
  exists db',
    sql.ProcessWaitUntilExecution (localQueue := examples.localQueue)
      examples.two_running samples.timer_request
    = (db', Ok {| sql.WaitUntilHasNewImmediateTask := false |})
    /\ extensions.async_state_executions db'
       = [ examples.state_row "S1" 1 persistence.StateExecutionStatusSkipped
             persistence.StateExecutionStatusRunning;
           examples.state_row "S2" 2 persistence.StateExecutionStatusWaiting
             persistence.StateExecutionStatusUndefined ]
    /\ extensions.timer_tasks db' = []
    /\ extensions.immediate_tasks db' = []
    /\ sql.ProcessWaitUntilExecution (localQueue := examples.localQueue) db'
         samples.timer_request
       = (db', Err conditionalUpdateFailure).
Proof.
  pose proof (wait_until_without_queue_commands (localQueue := examples.localQueue)
                examples.two_running samples.timer_request
                ltac:(discriminate) eq_refl) as Hdone.
  cbv zeta in Hdone.
  rewrite decide_True in Hdone by (vm_compute; reflexivity).
  destruct Hdone as (db' & published & Hrun & Ha & _ & Ht & Hi & _ & Hlen & Hagain).
  destruct published; [|discriminate Hlen].
  exists db'. split; [exact Hrun|]. split; [rewrite Ha; vm_compute; reflexivity|].
  split; [exact Ht|]. split; [exact Hi | exact Hagain].
Defined.

(** S1 goes on to S2 and publishes a message: one new state-execution row,
    two new immediate tasks and one new local-queue row, all of process 1. *)
Lemma complete_execute_stays_within_process_witness :
  exists db',
    sql.CompleteExecuteExecution examples.two_running samples.on_to_S2
    = (db', Ok {| sql.HasNewImmediateTask := true |})
    /\ extensions.latest_process_executions db'
       = extensions.latest_process_executions examples.two_running
    /\ length (extensions.async_state_executions db') = 3%nat
    /\ length (extensions.immediate_tasks db') = 2%nat
    /\ length (extensions.local_queue db') = 1%nat.
Proof.
  exists (sql.CompleteExecuteExecution examples.two_running samples.on_to_S2).1.
  assert (Hrun :
    sql.CompleteExecuteExecution examples.two_running samples.on_to_S2
    = ((sql.CompleteExecuteExecution examples.two_running samples.on_to_S2).1,
       Ok {| sql.HasNewImmediateTask := true |}))
    by (vm_compute; reflexivity).
  split; [exact Hrun|].
  destruct (complete_execute_stays_within_process examples.two_running _ samples.on_to_S2
              _ Hrun)
    as (Hl & _ & _ & (kept & inserted & Ha & Hkept & _ & Hn) & (tasks & Hi & _ & Hm)
        & (rows & Hq & _ & Hk)).
  split; [exact Hl|].
  rewrite Ha, Hi, Hq, !length_app, <- (Forall2_length _ _ _ Hkept), Hn, Hm, Hk.
  repeat split; reflexivity.
Defined.

(** The last state of a process armed for graceful completion decides to
    force-fail it: the process is Completed all the same. *)
Lemma graceful_completion_overrides_decision_witness :
  exists db',
    sql.CompleteExecuteExecution examples.last_state_running
      (examples.execute_request "S1" 1 (examples.close_with xdbapi.FORCE_FAIL_PROCESS))
    = (db', Ok {| sql.HasNewImmediateTask := false |})
    /\ Forall (fun r =>
                 extensions.RowProcessExecutionId r = 1%N ->
                 extensions.RowStatus r = persistence.ProcessExecutionStatusCompleted)
              (extensions.process_executions db').
Proof.
  exists examples.gracefully_completed.
  assert (Hrun :
    sql.CompleteExecuteExecution examples.last_state_running
      (examples.execute_request "S1" 1 (examples.close_with xdbapi.FORCE_FAIL_PROCESS))
    = (examples.gracefully_completed, Ok {| sql.HasNewImmediateTask := false |}))
    by (vm_compute; reflexivity).
  split; [exact Hrun|].
  destruct (graceful_completion_overrides_decision examples.last_state_running
              examples.gracefully_completed
              (examples.execute_request "S1" 1 (examples.close_with xdbapi.FORCE_FAIL_PROCESS))
              {| sql.HasNewImmediateTask := false |}
              (examples.locked_row persistence.ProcessExecutionStatusRunning
                 examples.only_S1_pending true)
              {| persistence.SequenceMap := {[ "S1" := 1 ]};
                 persistence.PendingExecutionMap := ∅ |})
    as [Hprocess _].
  - exact Hrun.
  - vm_compute. reflexivity.
  - reflexivity.
  - reflexivity.
  - vm_compute. reflexivity.
  - reflexivity.
  - eapply Forall_impl; [exact Hprocess|]. intros r Hr Hid. apply Hr, Hid.
Defined.

(** S1 goes on to S2: the new row of S2 carries the info of S1's snapshot,
    the state config of S1 in it. *)
Lemma next_states_inherit_info_witness :
  exists db' row,
    sql.CompleteExecuteExecution examples.two_running samples.on_to_S2
    = (db', Ok {| sql.HasNewImmediateTask := true |})
    /\ List.last (extensions.async_state_executions db')
         (examples.state_row "" 0 persistence.StateExecutionStatusUndefined
            persistence.StateExecutionStatusUndefined)
       = row
    /\ extensions.StateId row = "S2"
    /\ persistence.StateConfig (extensions.Info row) = Some samples.state_config.
Proof.
  assert (Hrun :
    sql.CompleteExecuteExecution examples.two_running samples.on_to_S2
    = ((sql.CompleteExecuteExecution examples.two_running samples.on_to_S2).1,
       Ok {| sql.HasNewImmediateTask := true |}))
    by (vm_compute; reflexivity).
  destruct (next_states_inherit_info examples.two_running _ samples.on_to_S2 _ Hrun eq_refl)
    as (rows & tasks & published & Ha & _ & _ & Hpairs).
  inversion Hpairs as [|next row task nexts rows' tasks' Hrow Hrest]; subst.
  inversion Hrest; subst.
  exists (sql.CompleteExecuteExecution examples.two_running samples.on_to_S2).1, row.
  split; [exact Hrun|].
  split; [rewrite Ha; apply last_last|].
  destruct Hrow as (_ & Hid & _ & _ & _ & Hinfo & _).
  rewrite Hid, Hinfo. split; reflexivity.
Defined.

(** Process "p" of namespace "n", started on an empty database and then
    described. *)
Lemma started_process_is_described_witness :
  exists db',
    api_engine.StartProcess (api_engine.Build_DB [] [] [] []) 8%N 1700000000
      examples.start_request
    = (db', (Some {| api_engine.ResponseProcessExecutionId := 8%N |}, false, None))
    /\ api_describe.DescribeLatestProcess (fun t => t) db'
         {| api_describe.DescribeNamespace := "n"; api_describe.DescribeProcessId := "p" |}
       = (Some {| api_describe.DescribedProcessExecutionId := 8%N;
                  api_describe.DescribedProcessType := "order";
                  api_describe.DescribedWorkerUrl := "http://worker";
                  api_describe.StartTimestamp := 1700000000 |},
          false, None).
Proof.
  exists (api_engine.StartProcess (api_engine.Build_DB [] [] [] []) 8%N 1700000000
            examples.start_request).1.
  assert (Hrun :
    api_engine.StartProcess (api_engine.Build_DB [] [] [] []) 8%N 1700000000
      examples.start_request
    = ((api_engine.StartProcess (api_engine.Build_DB [] [] [] []) 8%N 1700000000
          examples.start_request).1,
       (Some {| api_engine.ResponseProcessExecutionId := 8%N |}, false, None)))
    by (vm_compute; reflexivity).
  split; [exact Hrun|].
  destruct (started_process_is_described (fun t => t) _ _ 8%N 1700000000
              examples.start_request _ Hrun) as [_ Hdescribed].
  - constructor.
  - exact Hdescribed.
Defined.
